(** * pack/builder: the builder assembly engine

    A shallow embedding of the Go package [builder] (builder.go and
    lifecycle.go) and the properties of its order resolution, buildpack
    validation, lifecycle construction, layer composition and [Save]
    orchestration.

    Go values are modelled as follows.
    - [string] is a Go string; slices are lists (a nil slice and an empty
      slice are both [[]], which is all the code can observe through [len]
      and [range]).
    - A Go [error] is a value of the inductive type [error]: the format and
      the arguments of the [fmt.Errorf] / [errors.Wrap] call that built it.
      A nil error is [None].
    - A function that mutates its receiver or an argument returns the new
      value next to its result, also when the result is an error.
    - The operating system, the tar writer and the image are a [World] of
      oracles that say which call fails; the image calls made are logged. *)

From Stdlib Require Import ZArith String Ascii List Bool Lia.
From stdpp Require Import base option list strings gmap sets.
Import ListNotations.

Local Open Scope string_scope.
Local Open Scope list_scope.

(** ** Errors ([fmt.Errorf], [github.com/pkg/errors]) *)

(** An error is built by [fmt.Errorf] or [errors.New], or wraps a cause
    ([errors.Wrap], [errors.Wrapf]), or is the sentinel
    [archive.ErrEntryNotExist]. An argument of a format string is
    [style.Symbol(s)] (a quoted, coloured rendering of [s]), a plain string
    or an error. *)
Inductive error : Type :=
| Errorf (format : string) (args : list fmtarg)
| Wrap (cause : error) (format : string) (args : list fmtarg)
| ErrEntryNotExist
with fmtarg : Type :=
| Symbol (s : string)
| Str (s : string)
| ErrArg (e : error).

(** [errors.New(msg)] *)
Definition errors_New (msg : string) : error := Errorf msg [].

(** [errors.Cause]: the innermost error of a chain of [Wrap]s. *)
Fixpoint Cause (e : error) : error :=
  match e with
  | Wrap c _ _ => Cause c
  | _ => e
  end.

(** [Carries e' e]: the error [e'] was built from [e], by wrapping it or by
    formatting it into a message. *)
Inductive Carries : error -> error -> Prop :=
| Carries_refl e : Carries e e
| Carries_wrap c f a e : Carries c e -> Carries (Wrap c f a) e
| Carries_fmt f a x e : In (ErrArg x) a -> Carries x e -> Carries (Errorf f a) e.

(** The error names the string [s]: [style.Symbol(s)] is one of the
    arguments of its own message (not of a wrapped cause). *)
Definition names (e : error) (s : string) : Prop :=
  match e with
  | Errorf _ a | Wrap _ _ a => In (Symbol s) a
  | _ => False
  end.

(** ** Data model (builder.go, with the types of metadata.go and
    buildpack.go that it uses) *)

(** Modelled from the spec: the identity tuple (id, version) of a
    buildpack; the struct [BuildpackInfo] is declared in buildpack.go. *)
Record BuildpackInfo : Type := mkInfo { ID : string; Version : string }.

Record BuildpackRef : Type := mkRef {
  ref_info :> BuildpackInfo;   (* embedded BuildpackInfo *)
  Optional : bool
}.

Record OrderEntry : Type := mkEntry { Group : list BuildpackRef }.

Definition Order : Type := list OrderEntry.

(** Modelled from the spec: an entry of the flat list of known buildpacks of
    the metadata (id and version); [BuildpackMetadata] is declared in
    metadata.go and embeds [BuildpackInfo]. *)
Record BuildpackMetadata : Type := mkBpMeta { bm_info :> BuildpackInfo }.

(** ** Version resolution: [processOrder] *)

Definition setVersion (r : BuildpackRef) (v : string) : BuildpackRef :=
  mkRef (mkInfo (ID r) v) (Optional r).

(** The inner loop that collects the known buildpacks with the ref's id. *)
Fixpoint matchingBps (bpRefID : string) (buildpacks : list BuildpackMetadata)
  : list BuildpackInfo :=
  match buildpacks with
  | [] => []
  | bp :: rest =>
      if String.eqb bpRefID (ID bp)
      then bm_info bp :: matchingBps bpRefID rest
      else matchingBps bpRefID rest
  end.

Fixpoint hasBuildpackWithVersion (bps : list BuildpackInfo) (version : string) : bool :=
  match bps with
  | [] => false
  | bp :: rest =>
      if String.eqb (Version bp) version then true
      else hasBuildpackWithVersion rest version
  end.

Definition err_no_versions (id : string) : error :=
  Errorf "no versions of buildpack %s were found on the builder" [Symbol id].

Definition err_ambiguous (id : string) : error :=
  Errorf "unable to resolve version: multiple versions of %s - must specify an explicit version"
         [Symbol id].

Definition err_version_not_found (id version : string) : error :=
  Errorf "buildpack %s with version %s was not found on the builder"
         [Symbol id; Symbol version].

(** The body of the inner loop of [processOrder] on one ref, [g.Group[i]]:
    the ref as the body leaves it (it is written through a pointer into the
    group's array) and the error the body returns, if any. *)
Definition processOrder_ref (buildpacks : list BuildpackMetadata) (bpRef : BuildpackRef)
  : BuildpackRef * option error :=
  let matching := matchingBps (ID bpRef) buildpacks in
  match matching with
  | [] => (bpRef, Some (err_no_versions (ID bpRef)))
  | first :: _ =>
      if String.eqb (Version bpRef) "" && (1 <? length matching)%nat
      then (bpRef, Some (err_ambiguous (ID bpRef)))
      else
        let bpRef' :=
          if String.eqb (Version bpRef) "" then setVersion bpRef (Version first)
          else bpRef in
        if hasBuildpackWithVersion matching (Version bpRef')
        then (bpRef', None)
        else (bpRef', Some (err_version_not_found (ID bpRef') (Version bpRef')))
  end.

(** [for i := range g.Group]: stops at the first error; the refs after it
    are not visited. *)
Fixpoint processOrder_group (buildpacks : list BuildpackMetadata) (group : list BuildpackRef)
  : list BuildpackRef * option error :=
  match group with
  | [] => ([], None)
  | bpRef :: rest =>
      match processOrder_ref buildpacks bpRef with
      | (bpRef', Some e) => (bpRef' :: rest, Some e)
      | (bpRef', None) =>
          let (rest', r) := processOrder_group buildpacks rest in
          (bpRef' :: rest', r)
      end
  end.

(** [processOrder(buildpacks, &order)]: the order as the call leaves it and
    the returned error. The loop variable [g] is a copy of the entry, but
    its slice [g.Group] shares the array of the entry, so the versions
    written through [&g.Group[i]] are in the order itself. (Two groups that
    share one array are not modelled.) *)
Fixpoint processOrder (buildpacks : list BuildpackMetadata) (order : Order)
  : Order * option error :=
  match order with
  | [] => ([], None)
  | g :: rest =>
      match processOrder_group buildpacks (Group g) with
      | (group', Some e) => (mkEntry group' :: rest, Some e)
      | (group', None) =>
          let (rest', r) := processOrder buildpacks rest in
          (mkEntry group' :: rest', r)
      end
  end.

(** ** [path] (Go standard library) *)

Module path.

(** [strings.Split(s, "/")] *)
Fixpoint components (s : string) : list string :=
  match s with
  | EmptyString => [""]
  | String c s' =>
      if Ascii.eqb c "/" then "" :: components s'
      else match components s' with
           | h :: t => String c h :: t
           | [] => [String c ""]
           end
  end.

(** [strings.Join(elems, "/")] *)
Fixpoint join (elems : list string) : string :=
  match elems with
  | [] => ""
  | [e] => e
  | e :: rest => e +:+ "/" +:+ join rest
  end.

(** One path element against the elements kept so far (last kept element
    first): empty and "." elements are dropped, ".." removes the last
    kept element when there is one to remove, is dropped at the root of
    a rooted path and is kept otherwise. *)
Definition clean_step (rooted : bool) (kept : list string) (c : string) : list string :=
  if String.eqb c "" || String.eqb c "." then kept
  else if String.eqb c ".." then
    match kept with
    | top :: below => if String.eqb top ".." then c :: kept else below
    | [] => if rooted then [] else [c]
    end
  else c :: kept.

(** [path.Clean]: the shortest path equivalent to [p] by lexical
    processing. *)
Definition Clean (p : string) : string :=
  match p with
  | EmptyString => "."
  | String c _ =>
      let rooted := Ascii.eqb c "/" in
      let body := join (rev (fold_left (clean_step rooted) (components p) [])) in
      if rooted then "/" +:+ body
      else if String.eqb body "" then "." else body
  end.

(** [path.Join]: the elements from the first non-empty one on, joined
    with slashes and cleaned. *)
Fixpoint Join (elem : list string) : string :=
  match elem with
  | [] => ""
  | e :: rest => if String.eqb e "" then Join rest else Clean (join elem)
  end.

End path.

(** ** [semver] (github.com/Masterminds/semver) *)

Module semver.

Record Version : Type := mkVersion {
  major : Z; minor : Z; patch : Z;
  pre : string;
  metadata : string
}.

Definition compareSegment (v o : Z) : Z :=
  if (v <? o)%Z then (-1)%Z else if (o <? v)%Z then 1%Z else 0%Z.

Section Compare.
(** The part-wise comparison of two non-empty prerelease strings. *)
Variable comparePrerelease : string -> string -> Z.

Definition Compare (v o : Version) : Z :=
  let d := compareSegment (major v) (major o) in
  if negb (d =? 0)%Z then d else
  let d := compareSegment (minor v) (minor o) in
  if negb (d =? 0)%Z then d else
  let d := compareSegment (patch v) (patch o) in
  if negb (d =? 0)%Z then d else
  if String.eqb (pre v) "" && String.eqb (pre o) "" then 0%Z
  else if String.eqb (pre v) "" then 1%Z
  else if String.eqb (pre o) "" then (-1)%Z
  else comparePrerelease (pre v) (pre o).

Definition LessThan (v o : Version) : bool := (Compare v o <? 0)%Z.
Definition Equal (v o : Version) : bool := (Compare v o =? 0)%Z.
End Compare.

(** [semver.MustParse("0.4.0")] *)
Definition v0_4_0 : Version := mkVersion 0 4 0 "" "".
(** [semver.MustParse("0.3.0")] *)
Definition v0_3_0 : Version := mkVersion 0 3 0 "" "".

End semver.

(** ** [archive/tar] (Go standard library) *)

Module tar.

Definition TypeReg : ascii := "0"%char.
Definition TypeRegA : ascii := "000"%char.
Definition TypeSymlink : ascii := "2"%char.
Definition TypeDir : ascii := "5"%char.

Record Header : Type := mkHeader {
  Typeflag : ascii;
  Name : string;
  Linkname : string;
  Size : Z;
  Mode : Z;
  Uid : Z;
  Gid : Z;
  ModTime : Z
}.

Definition set_Name (h : Header) (n : string) : Header :=
  mkHeader (Typeflag h) n (Linkname h) (Size h) (Mode h) (Uid h) (Gid h) (ModTime h).

Definition set_owner (h : Header) (uid gid : Z) : Header :=
  mkHeader (Typeflag h) (Name h) (Linkname h) (Size h) (Mode h) uid gid (ModTime h).

(** What a [tar.Reader] yields: [tr.Next()] returns a header, [io.EOF]
    or another error; after a header, [ioutil.ReadAll(tr)] returns the
    entry's bytes or an error. *)
Inductive Reader : Type :=
| AtEOF
| NextErr (e : error)
| Entry (h : Header) (content : string + error) (rest : Reader).

(** What a [tar.Writer] has written: headers with the bytes that follow. *)
Definition Written : Type := list (Header * string).

End tar.

(** A [Blob]: [Open()] returns a reader and an error. A failing [Open]
    usually returns a nil reader, [None]. Opening the same blob twice gives
    the same result. *)
Record Blob : Type := mkBlob { Open : option tar.Reader * option error }.

(** The result of a call that may return normally, return an error, or
    panic (a method call on a nil reader). *)
Inductive result (A : Type) : Type :=
| Ok (a : A)
| Err (e : error)
| Panic.
Arguments Ok {A} a.
Arguments Err {A} e.
Arguments Panic {A}.

#[global] Instance result_ret : MRet result := fun A a => Ok a.
#[global] Instance result_bind : MBind result := fun A B f r =>
  match r with
  | Ok a => f a
  | Err e => Err e
  | Panic => Panic
  end.

(** [if err != nil { return ..., f(err) }] *)
Definition on_err {A : Type} (f : error -> error) (r : result A) : result A :=
  match r with
  | Err e => Err (f e)
  | _ => r
  end.

(** A call that returns only an error. *)
Definition check (err : option error) : result unit :=
  match err with
  | None => Ok tt
  | Some e => Err e
  end.

(** ** Data model, continued *)

(** Modelled from the spec: a buildpack to embed (declared in buildpack.go):
    its identity, its nested order, the stack identifiers it supports and
    its archive blob. *)
Record Buildpack : Type := mkBuildpack {
  Info : BuildpackInfo;
  bp_Order : Order;
  Stacks : list string;
  bp_Blob : Blob
}.

(** Modelled from the spec: a buildpack declaring stacks supports the stack
    id that is a member of them ([SupportsStack] is in buildpack.go). *)
Definition SupportsStack (bp : Buildpack) (stackID : string) : bool :=
  existsb (String.eqb stackID) (Stacks bp).

Record LifecycleInfo : Type := mkLifecycleInfo { li_Version : option semver.Version }.

Record LifecycleAPI : Type := mkAPI {
  PlatformVersion : string;
  BuildpackVersion : string
}.

Record LifecycleDescriptor : Type := mkDescriptor {
  d_Info : LifecycleInfo;
  d_API : LifecycleAPI
}.

(** The struct [lifecycle] of lifecycle.go, the implementation of the
    interface [Lifecycle]. *)
Record lifecycle : Type := mkLifecycle {
  descriptor : LifecycleDescriptor;
  lc_Blob : Blob
}.

(** Modelled from the spec: the legacy groups representation of an order, a
    list of raw detection groups ([V1Order], [V1Group] and [ToV1Order] are
    in compat.go). *)
Record V1Group : Type := mkV1Group { v1_Buildpacks : list BuildpackRef }.

Definition V1Order : Type := list V1Group.

Definition ToV1Order (o : Order) : V1Order :=
  map (fun gp => mkV1Group (Group gp)) o.

Record RunImageMetadata : Type := mkRunImage { Image : string; Mirrors : list string }.

Record StackMetadata : Type := mkStack { RunImage : RunImageMetadata }.

(** Modelled from the spec: the lifecycle part of the metadata, the
    lifecycle version and API info ([LifecycleMetadata] is in metadata.go;
    it embeds [LifecycleInfo]). *)
Record LifecycleMetadata : Type := mkLifecycleMetadata {
  lm_LifecycleInfo : LifecycleInfo;
  lm_API : LifecycleAPI
}.

(** Modelled from the spec: the record serialized into the metadata label
    ([Metadata] is in metadata.go). *)
Record Metadata : Type := mkMetadata {
  Description : string;
  Buildpacks : list BuildpackMetadata;
  Groups : V1Order;
  Stack : StackMetadata;
  md_Lifecycle : LifecycleMetadata
}.

Record Builder : Type := mkBuilder {
  b_lifecycle : option lifecycle;
  additionalBuildpacks : list Buildpack;
  metadata : Metadata;
  env : list (string * string);   (* in the order [range] visits the map *)
  UID : Z;
  GID : Z;
  StackID : string;
  replaceOrder : bool;
  order : Order
}.

(** The value handed to [toml.NewEncoder(buf).Encode]. *)
Inductive tomlData : Type :=
| v1OrderTOML (groups : V1Order)
| orderTOML (o : Order)
| stackTOML (s : StackMetadata).

(** The calls on the image abstraction ([imgutil.Image]) that [Save] makes.
    [AddLayer] carries the archive found at the path. *)
Inductive ImageOp : Type :=
| AddLayer (layerTar : string) (archive : tar.Written)
| SetLabel (key value : string)
| SetWorkingDir (dir : string)
| ImageSave.

(** Which calls to the operating system, the tar writer and the image fail,
    and with what error. *)
Record World : Type := mkWorld {
  ioutil_TempDir : result string;
  os_Create : string -> option error;
  tw_WriteHeader : tar.Header -> option error;
  tw_Write : string -> option error;
  time_Now : Z;
  archive_CreateSingleFileTar : string -> option error;
  image_call : ImageOp -> option error
}.

(** What the code takes from other packages and files: the TOML and JSON
    codecs, the prerelease comparison of semver, and from this repository
    [Buildpack.EscapedID] (buildpack.go), [processMetadata] and
    [symlinkLatest] (compat.go) and the constant [MetadataLabel]
    (metadata.go). [symlinkLatest] is given the entries written so far
    and returns them with what it writes. *)
Class Externals : Type := {
  comparePrerelease : string -> string -> Z;
  toml_Decode : string -> result LifecycleDescriptor;
  toml_Encode : tomlData -> result string;
  json_Marshal : Metadata -> result string;
  EscapedID : Buildpack -> string;
  processMetadata : Metadata -> Metadata * option error;
  symlinkLatest : World -> tar.Written -> string -> Buildpack -> Metadata -> result tar.Written;
  MetadataLabel : string
}.

(** ** lifecycle.go *)

Definition defaultAPI : string := "0.1".

Definition DefaultLifecycleDescriptor : LifecycleDescriptor :=
  mkDescriptor (mkLifecycleInfo (Some semver.v0_3_0)) (mkAPI defaultAPI defaultAPI).

Definition lifecycleBinaries : list string :=
  ["detector"; "restorer"; "analyzer"; "builder"; "exporter"; "cacher"; "launcher"].

(** The part of [s] before its first slash and the part after it. *)
Fixpoint cut_slash (s : string) : option (string * string) :=
  match s with
  | EmptyString => None
  | String c s' =>
      if Ascii.eqb c "/" then Some ("", s')
      else match cut_slash s' with
           | Some (d, f) => Some (String c d, f)
           | None => None
           end
  end.

Fixpoint has_slash (s : string) : bool :=
  match s with
  | EmptyString => false
  | String c s' => Ascii.eqb c "/" || has_slash s'
  end.

(** [regexp.MustCompile(`^[^/]+/([^/]+)$`).FindStringSubmatch(s)], its
    group 1 when [s] matches: [s] is a non-empty run without a slash, a
    slash, and a non-empty run without a slash, which is the group. *)
Definition FindStringSubmatch (s : string) : option string :=
  match cut_slash s with
  | Some (d, f) =>
      if negb (String.eqb d "") && negb (String.eqb f "") && negb (has_slash f)
      then Some f else None
  | None => None
  end.

(** Modelled from the spec: [archive.ReadTarEntry] (internal/archive) reads
    the single entry of that name from the blob; when the entry is absent
    the cause of its error is [ErrEntryNotExist]. *)
Fixpoint ReadTarEntry (rc : tar.Reader) (entryPath : string) : result (tar.Header * string) :=
  match rc with
  | tar.AtEOF => Err (Wrap ErrEntryNotExist "could not find entry path '%s'" [Str entryPath])
  | tar.NextErr e => Err (Wrap e "failed to get next tar entry" [])
  | tar.Entry h content rest =>
      if String.eqb (path.Clean (tar.Name h)) entryPath
      then match content with
           | inl buf => Ok (h, buf)
           | inr e => Err (Wrap e "failed to read contents of '%s'" [Str entryPath])
           end
      else ReadTarEntry rest entryPath
  end.

(** The first loop of [validateBinaries]: the names observed. *)
Fixpoint observe (tr : tar.Reader) (headers : gset string) : result (gset string) :=
  match tr with
  | tar.AtEOF => Ok headers
  | tar.NextErr e => Err (Wrap e "failed to get next tar entry" [])
  | tar.Entry h _ rest =>
      match FindStringSubmatch (path.Clean (tar.Name h)) with
      | Some binaryName => observe rest ({[ binaryName ]} ∪ headers)
      | None => observe rest headers
      end
  end.

(** The second loop of [validateBinaries]. *)
Fixpoint find_all (binaries : list string) (headers : gset string) : result unit :=
  match binaries with
  | [] => Ok tt
  | p :: rest =>
      if decide (p ∈ headers) then find_all rest headers
      else Err (Errorf "did not find '%s' in tar" [Str p])
  end.

Definition validateBinaries (l : lifecycle) : result unit :=
  match Open (lc_Blob l) with
  | (_, Some err) => Err (Wrap err "create lifecycle blob reader" [])
  | (None, None) => Panic
  | (Some rc, None) =>
      headers ← observe rc ∅;
      find_all lifecycleBinaries headers
  end.

Definition NewLifecycle `{Externals} (blob : Blob) : result lifecycle :=
  match Open blob with
  | (_, Some err) => Err (Wrap err "open lifecycle blob" [])
  | (None, None) => Panic
  | (Some br, None) =>
      match ReadTarEntry br "lifecycle.toml" with
      | Panic => Panic
      | Err err =>
          match Cause err with
          | ErrEntryNotExist => Ok (mkLifecycle DefaultLifecycleDescriptor blob)
          | _ => Err (Wrap err "decode lifecycle descriptor" [])
          end
      | Ok (_, buf) =>
          descriptor ← on_err (fun err => Wrap err "decoding descriptor" []) (toml_Decode buf);
          let lifecycle := mkLifecycle descriptor blob in
          _ ← on_err (fun err => Wrap err "validating binaries" []) (validateBinaries lifecycle);
          Ok lifecycle
      end
  end.

(** ** builder.go: graph and stack validation *)

Definition buildpacksDir : string := "/buildpacks".
Definition platformDir : string := "/platform".
Definition lifecycleDir : string := "/lifecycle".
Definition workspaceDir : string := "/workspace".
Definition layersDir : string := "/layers".

(** [id + "@" + version], the key of the lookup and the name in messages. *)
Definition bpKey (info : BuildpackInfo) : string := ID info +:+ "@" +:+ Version info.

Definition err_neither (key : string) : error :=
  Errorf "buildpack %s must have either stacks or an order defined" [Symbol key].

Definition err_both (key : string) : error :=
  Errorf "buildpack %s cannot have both stacks and an order defined" [Symbol key].

Definition err_unsupported_stack (key stackID : string) : error :=
  Errorf "buildpack %s does not support stack %s" [Symbol key; Symbol stackID].

Definition err_ref_not_found (key : string) : error :=
  Errorf "buildpack %s not found on the builder" [Symbol key].

(** The first loop of [validateBuildpacks]: [bpLookup[key] = nil]. *)
Fixpoint fill_bpLookup (bps : list Buildpack) (bpLookup : gset string) : gset string :=
  match bps with
  | [] => bpLookup
  | bp :: rest => fill_bpLookup rest ({[ bpKey (Info bp) ]} ∪ bpLookup)
  end.

(** [for _, r := range g.Group] *)
Fixpoint validate_group (bpLookup : gset string) (group : list BuildpackRef) : option error :=
  match group with
  | [] => None
  | r :: rest =>
      if decide (bpKey r ∈ bpLookup) then validate_group bpLookup rest
      else Some (err_ref_not_found (bpKey r))
  end.

(** [for _, g := range bp.Order] *)
Fixpoint validate_order (bpLookup : gset string) (o : Order) : option error :=
  match o with
  | [] => None
  | g :: rest =>
      match validate_group bpLookup (Group g) with
      | Some e => Some e
      | None => validate_order bpLookup rest
      end
  end.

(** The body of the second loop of [validateBuildpacks]. *)
Definition validate_bp (stackID : string) (bpLookup : gset string) (bp : Buildpack)
  : option error :=
  if (length (bp_Order bp) =? 0)%nat && (length (Stacks bp) =? 0)%nat then
    Some (err_neither (bpKey (Info bp)))
  else if (1 <=? length (bp_Order bp))%nat && (1 <=? length (Stacks bp))%nat then
    Some (err_both (bpKey (Info bp)))
  else if (1 <=? length (Stacks bp))%nat && negb (SupportsStack bp stackID) then
    Some (err_unsupported_stack (bpKey (Info bp)) stackID)
  else validate_order bpLookup (bp_Order bp).

(** [for _, bp := range bps] *)
Fixpoint validate_bps (stackID : string) (bpLookup : gset string) (bps : list Buildpack)
  : option error :=
  match bps with
  | [] => None
  | bp :: rest =>
      match validate_bp stackID bpLookup bp with
      | Some e => Some e
      | None => validate_bps stackID bpLookup rest
      end
  end.

Definition validateBuildpacks (stackID : string) (bps : list Buildpack) : option error :=
  let bpLookup := fill_bpLookup bps ∅ in
  validate_bps stackID bpLookup bps.

(** ** builder.go: layer composition *)

(** [filepath.Join], on a system whose separator is the slash. *)
Definition filepath_Join (elem : list string) : string := path.Join elem.

(** [tw.WriteHeader(h)] on a writer that has written [tw]. *)
Definition WriteHeader (w : World) (tw : tar.Written) (h : tar.Header) : result tar.Written :=
  match tw_WriteHeader w h with
  | Some e => Err e
  | None => Ok (tw ++ [(h, "")])
  end.

(** [tw.Write(buf)]: the bytes follow the last header written. *)
Definition Write (w : World) (tw : tar.Written) (buf : string) : result tar.Written :=
  match tw_Write w buf with
  | Some e => Err e
  | None =>
      match rev tw with
      | (h, body) :: before => Ok (rev before ++ [(h, body +:+ buf)])
      | [] => Ok tw
      end
  end.

(** The file modes 0755 and 0644 (octal). *)
Definition mode_0755 : Z := 493.
Definition mode_0644 : Z := 420.

Definition GetLifecycleVersion (b : Builder) : option semver.Version :=
  li_Version (lm_LifecycleInfo (md_Lifecycle (metadata b))).

Definition packOwnedDir (b : Builder) (p : string) (time : Z) : tar.Header :=
  tar.mkHeader tar.TypeDir p "" 0 mode_0755 (UID b) (GID b) time.

Definition rootOwnedDir (b : Builder) (p : string) (time : Z) : tar.Header :=
  tar.mkHeader tar.TypeDir p "" 0 mode_0755 0 0 time.

(** The "latest" symlink of a buildpack: an alias, next to the version
    directory, that points at it. *)
Definition latest_symlink (escapedID : string) (baseTarDir : string) : tar.Header :=
  tar.mkHeader tar.TypeSymlink (path.Join [buildpacksDir; escapedID; "latest"])
               baseTarDir 0 mode_0644 0 0 0.

(** Modelled from the spec: [symlinkLatest] (compat.go) writes an
    additional "latest" symlink alias pointing at the version directory. *)
Definition symlinkLatest_spec (escapedID : Buildpack -> string) (w : World)
    (tw : tar.Written) (baseTarDir : string) (bp : Buildpack) (md : Metadata)
  : result tar.Written :=
  WriteHeader w tw (latest_symlink (escapedID bp) baseTarDir).

Section Layers.
Context `{Externals}.
Variable w : World.

Definition defaultDirsLayer (b : Builder) (dest : string) : result (string * tar.Written) :=
  let fh := filepath_Join [dest; "dirs.tar"] in
  _ ← check (os_Create w fh);
  let now := time_Now w in
  tw ← on_err (fun err => Wrap err "creating %s dir in layer" [Symbol workspaceDir])
        (WriteHeader w [] (packOwnedDir b workspaceDir now));
  tw ← on_err (fun err => Wrap err "creating %s dir in layer" [Symbol layersDir])
        (WriteHeader w tw (packOwnedDir b layersDir now));
  tw ← on_err (fun err => Wrap err "creating %s dir in layer" [Symbol buildpacksDir])
        (WriteHeader w tw (rootOwnedDir b buildpacksDir now));
  tw ← on_err (fun err => Wrap err "creating %s dir in layer" [Symbol platformDir])
        (WriteHeader w tw (rootOwnedDir b platformDir now));
  tw ← on_err (fun err => Wrap err "creating %s dir in layer" [Symbol (platformDir +:+ "/env")])
        (WriteHeader w tw (rootOwnedDir b (platformDir +:+ "/env") now));
  Ok (fh, tw).

(** [for k, v := range env] *)
Fixpoint envLayer_entries (now : Z) (tw : tar.Written) (env : list (string * string))
  : result tar.Written :=
  match env with
  | [] => Ok tw
  | (k, v) :: rest =>
      tw ← WriteHeader w tw
             (tar.mkHeader tar.TypeRegA (path.Join [platformDir; "env"; k]) ""
                           (Z.of_nat (String.length v)) mode_0644 0 0 now);
      tw ← Write w tw v;
      envLayer_entries now tw rest
  end.

Definition envLayer (b : Builder) (dest : string) (env : list (string * string))
  : result (string * tar.Written) :=
  let fh := filepath_Join [dest; "env.tar"] in
  _ ← check (os_Create w fh);
  let now := time_Now w in
  tw ← envLayer_entries now [] env;
  Ok (fh, tw).

(** The loop of [embedLifecycleTar]. *)
Fixpoint embedLifecycleTar_entries (tw : tar.Written) (tr : tar.Reader) : result tar.Written :=
  match tr with
  | tar.AtEOF => Ok tw
  | tar.NextErr err => Err (Wrap err "failed to get next tar entry" [])
  | tar.Entry header content rest =>
      match FindStringSubmatch (path.Clean (tar.Name header)) with
      | Some binaryName =>
          let header := tar.set_Name header (lifecycleDir +:+ "/" +:+ binaryName) in
          tw ← on_err (fun err => Wrap err "failed to write header for '%s'" [Str (tar.Name header)])
                (WriteHeader w tw header);
          buf ← match content with
                | inl buf => Ok buf
                | inr err => Err (Wrap err "failed to read contents of '%s'" [Str (tar.Name header)])
                end;
          tw ← on_err (fun err => Wrap err "failed to write contents to '%s'" [Str (tar.Name header)])
                (Write w tw buf);
          embedLifecycleTar_entries tw rest
      | None => embedLifecycleTar_entries tw rest
      end
  end.

Definition embedLifecycleTar (l : lifecycle) (tw : tar.Written) : result tar.Written :=
  match Open (lc_Blob l) with
  | (_, Some err) => Err (Wrap err "failed to open lifecycle" [])
  | (None, None) => Panic
  | (Some lr, None) => embedLifecycleTar_entries tw lr
  end.

Definition lifecycleLayer (l : lifecycle) (dest : string) : result (string * tar.Written) :=
  let fh := filepath_Join [dest; "lifecycle.tar"] in
  _ ← check (os_Create w fh);
  let now := time_Now w in
  tw ← WriteHeader w [] (tar.mkHeader tar.TypeDir lifecycleDir "" 0 mode_0755 0 0 now);
  tw ← embedLifecycleTar l tw;
  Ok (fh, tw).

(** The loop of [embedBuildpackTar]. *)
Fixpoint embedBuildpackTar_entries (b : Builder) (baseTarDir : string)
    (tw : tar.Written) (tr : tar.Reader) : result tar.Written :=
  match tr with
  | tar.AtEOF => Ok tw
  | tar.NextErr err => Err (Wrap err "failed to get next tar entry" [])
  | tar.Entry header content rest =>
      let header := tar.set_Name header (path.Clean (tar.Name header)) in
      if String.eqb (tar.Name header) "." || String.eqb (tar.Name header) "/"
      then embedBuildpackTar_entries b baseTarDir tw rest
      else
        let header :=
          tar.set_Name header (path.Clean (path.Join [baseTarDir; tar.Name header])) in
        let header := tar.set_owner header (UID b) (GID b) in
        tw ← on_err (fun err => Wrap err "failed to write header for '%s'" [Str (tar.Name header)])
              (WriteHeader w tw header);
        buf ← match content with
              | inl buf => Ok buf
              | inr err => Err (Wrap err "failed to read contents of '%s'" [Str (tar.Name header)])
              end;
        tw ← on_err (fun err => Wrap err "failed to write contents to '%s'" [Str (tar.Name header)])
              (Write w tw buf);
        embedBuildpackTar_entries b baseTarDir tw rest
  end.

(** [embedBuildpackTar]. When [bp.Open()] returns an error, the code builds
    [errors.Wrap(err, "read buildpack blob")] and drops it: there is no
    [return], and the function goes on with the reader it was given; on a
    nil reader, [rc.Close()] panics. *)
Definition embedBuildpackTar (b : Builder) (tw : tar.Written) (bp : Buildpack)
    (baseTarDir : string) : result tar.Written :=
  match Open (bp_Blob bp) with
  | (None, _) => Panic
  | (Some rc, _) => embedBuildpackTar_entries b baseTarDir tw rc
  end.

(** [lifecycleVersion != nil && lifecycleVersion.LessThan(semver.MustParse("0.4.0"))] *)
Definition lifecycle_before_0_4_0 (b : Builder) : bool :=
  match GetLifecycleVersion b with
  | Some lifecycleVersion => semver.LessThan comparePrerelease lifecycleVersion semver.v0_4_0
  | None => false
  end.

Definition buildpackLayer (b : Builder) (dest : string) (bp : Buildpack)
  : result (string * tar.Written) :=
  let layerTar :=
    filepath_Join [dest; EscapedID bp +:+ "." +:+ Version (Info bp) +:+ ".tar"] in
  _ ← on_err (fun err => Errorf "create file for tar: %s" [ErrArg err])
       (check (os_Create w layerTar));
  let now := time_Now w in
  tw ← WriteHeader w []
        (tar.mkHeader tar.TypeDir (path.Join [buildpacksDir; EscapedID bp]) "" 0 mode_0755 0 0 now);
  let baseTarDir := path.Join [buildpacksDir; EscapedID bp; Version (Info bp)] in
  tw ← WriteHeader w tw (tar.mkHeader tar.TypeDir baseTarDir "" 0 mode_0755 0 0 now);
  tw ← on_err (fun err => Wrap err "creating layer tar for buildpack '%s:%s'"
                               [Str (ID (Info bp)); Str (Version (Info bp))])
        (embedBuildpackTar b tw bp baseTarDir);
  tw ← (if lifecycle_before_0_4_0 b
        then symlinkLatest w tw baseTarDir bp (metadata b)
        else Ok tw);
  Ok (layerTar, tw).

(** The archive of one file. *)
Definition single_file (p txt : string) : tar.Written :=
  [(tar.mkHeader tar.TypeReg p "" (Z.of_nat (String.length txt)) mode_0644 0 0 0, txt)].

(** Modelled from the spec: [archive.CreateSingleFileTar] (internal/archive)
    creates the archive at [tarFile] with the one file [p] whose content is
    [txt]. *)
Definition CreateSingleFileTar (tarFile p txt : string) : result tar.Written :=
  _ ← check (archive_CreateSingleFileTar w tarFile);
  Ok (single_file p txt).

(** The document that [orderLayer] encodes. *)
Definition orderLayer_tomlData (b : Builder) : tomlData :=
  if lifecycle_before_0_4_0 b
  then v1OrderTOML (Groups (metadata b))
  else orderTOML (order b).

Definition orderLayer (b : Builder) (dest : string) : result (string * tar.Written) :=
  let tomlData := orderLayer_tomlData b in
  buf ← on_err (fun err => Wrap err "failed to marshal order.toml" []) (toml_Encode tomlData);
  let layerTar := filepath_Join [dest; "order.tar"] in
  tw ← on_err (fun err => Wrap err "failed to create order.toml layer tar" [])
        (CreateSingleFileTar layerTar (path.Join [buildpacksDir; "order.toml"]) buf);
  Ok (layerTar, tw).

Definition stackLayer (b : Builder) (dest : string) : result (string * tar.Written) :=
  buf ← on_err (fun err => Wrap err "failed to marshal stack.toml" [])
         (toml_Encode (stackTOML (Stack (metadata b))));
  let layerTar := filepath_Join [dest; "stack.tar"] in
  tw ← on_err (fun err => Wrap err "failed to create stack.toml layer tar" [])
        (CreateSingleFileTar layerTar (path.Join [buildpacksDir; "stack.toml"]) buf);
  Ok (layerTar, tw).

End Layers.

(** ** builder.go: [Save] *)

(** [Save] runs on the builder, which it mutates, and on the image, whose
    calls are logged in the order they are made. *)
Definition SaveState : Type := (Builder * list ImageOp)%type.

Definition M (A : Type) : Type := SaveState -> SaveState * result A.

#[global] Instance M_ret : MRet M := fun A a s => (s, Ok a).
#[global] Instance M_bind : MBind M := fun A B f m s =>
  match m s with
  | (s', Ok a) => f a s'
  | (s', Err e) => (s', Err e)
  | (s', Panic) => (s', Panic)
  end.

Definition lift {A : Type} (r : result A) : M A := fun s => (s, r).

Definition get_builder : M Builder := fun s => (s, Ok (fst s)).

Definition put_builder (b : Builder) : M unit := fun s => ((b, snd s), Ok tt).

Definition set_order (b : Builder) (o : Order) : Builder :=
  mkBuilder (b_lifecycle b) (additionalBuildpacks b) (metadata b) (env b)
            (UID b) (GID b) (StackID b) (replaceOrder b) o.

Definition set_metadata (b : Builder) (md : Metadata) : Builder :=
  mkBuilder (b_lifecycle b) (additionalBuildpacks b) md (env b)
            (UID b) (GID b) (StackID b) (replaceOrder b) (order b).

Definition set_Groups (md : Metadata) (g : V1Order) : Metadata :=
  mkMetadata (Description md) (Buildpacks md) g (Stack md) (md_Lifecycle md).

Definition set_Lifecycle (md : Metadata) (l : LifecycleMetadata) : Metadata :=
  mkMetadata (Description md) (Buildpacks md) (Groups md) (Stack md) l.

Section Save.
Context `{Externals}.
Variable w : World.

(** A call on [b.image]: it is logged, and it fails when the world says so. *)
Definition image (f : error -> error) (op : ImageOp) : M unit := fun s =>
  ((fst s, snd s ++ [op]), on_err f (check (image_call w op))).

(** [for _, bp := range b.additionalBuildpacks] *)
Fixpoint Save_buildpacks (tmpDir : string) (bps : list Buildpack) : M unit :=
  match bps with
  | [] => mret tt
  | bp :: rest =>
      b ← get_builder;
      layer ← lift (buildpackLayer w b tmpDir bp);
      _ ← image (fun err => Wrap err "adding layer tar for buildpack %s:%s"
                                 [Symbol (ID (Info bp)); Symbol (Version (Info bp))])
                (AddLayer (fst layer) (snd layer));
      Save_buildpacks tmpDir rest
  end.

Definition Save_M : M unit :=
  b ← get_builder;
  let processed := processOrder (Buildpacks (metadata b)) (order b) in
  let b := set_order b (fst processed) in
  _ ← put_builder b;
  _ ← lift (on_err (fun err => Wrap err "processing order" []) (check (snd processed)));

  let b := set_metadata b (set_Groups (metadata b) (ToV1Order (order b))) in
  let processed := processMetadata (metadata b) in
  let b := set_metadata b (fst processed) in
  _ ← put_builder b;
  _ ← lift (on_err (fun err => Wrap err "processing metadata" []) (check (snd processed)));

  _ ← lift (on_err (fun err => Wrap err "validating buildpacks" [])
                   (check (validateBuildpacks (StackID b) (additionalBuildpacks b))));

  tmpDir ← lift (ioutil_TempDir w);

  dirsTar ← lift (defaultDirsLayer w b tmpDir);
  _ ← image (fun err => Wrap err "adding default dirs layer" [])
            (AddLayer (fst dirsTar) (snd dirsTar));

  envTar ← lift (envLayer w b tmpDir (env b));
  _ ← image (fun err => Wrap err "adding env layer" [])
            (AddLayer (fst envTar) (snd envTar));

  _ ← match b_lifecycle b with
      | Some l =>
          let b := set_metadata b
                     (set_Lifecycle (metadata b)
                        (mkLifecycleMetadata (d_Info (descriptor l)) (d_API (descriptor l)))) in
          _ ← put_builder b;
          lifecycleTar ← lift (lifecycleLayer w l tmpDir);
          image (fun err => Wrap err "adding lifecycle layer" [])
                (AddLayer (fst lifecycleTar) (snd lifecycleTar))
      | None => mret tt
      end;

  b ← get_builder;
  _ ← Save_buildpacks tmpDir (additionalBuildpacks b);

  _ ← (if replaceOrder b then
         orderTar ← lift (orderLayer w b tmpDir);
         image (fun err => Wrap err "adding order.tar layer" [])
               (AddLayer (fst orderTar) (snd orderTar))
       else mret tt);

  stackTar ← lift (stackLayer w b tmpDir);
  _ ← image (fun err => Wrap err "adding stack.tar layer" [])
            (AddLayer (fst stackTar) (snd stackTar));

  label ← lift (on_err (fun err => Wrap err "failed marshal builder image metadata" [])
                       (json_Marshal (metadata b)));

  _ ← image (fun err => Wrap err "failed to set metadata label" [])
            (SetLabel MetadataLabel label);

  _ ← image (fun err => Wrap err "failed to set working dir" [])
            (SetWorkingDir layersDir);

  image (fun err => err) ImageSave.

(** [b.Save()] on an image on which no call was made yet: the builder as
    [Save] leaves it, the calls made on the image, and what [Save]
    returns. *)
Definition Save (b : Builder) : Builder * list ImageOp * result unit :=
  let '((b', calls), r) := Save_M (b, []) in (b', calls, r).

End Save.

(** ** [strconv.Atoi] (Go standard library) *)

Module strconv.

(** The value of a decimal digit. *)
Definition digit (ch : ascii) : option Z :=
  let n := nat_of_ascii ch in
  if (48 <=? n)%nat && (n <=? 57)%nat then Some (Z.of_nat (n - 48)) else None.

(** The digits of [s] after the digits that gave [n]. *)
Fixpoint digits (s : string) (n : Z) : option Z :=
  match s with
  | EmptyString => Some n
  | String ch rest =>
      match digit ch with
      | Some d => digits rest (n * 10 + d)
      | None => None
      end
  end.

(** [strconv.Atoi], where [int] has 64 bits: an optional sign and at least
    one decimal digit, and a value that fits; [None] for its errors, which
    the code does not look into. *)
Definition Atoi (s : string) : option Z :=
  match s with
  | EmptyString => None
  | String ch rest =>
      let neg := Ascii.eqb ch "-" in
      let body := if neg || Ascii.eqb ch "+" then rest else s in
      match body with
      | EmptyString => None
      | _ =>
          match digits body 0 with
          | Some n =>
              let v := if neg then (- n)%Z else n in
              if (- 2 ^ 63 <=? v)%Z && (v <=? 2 ^ 63 - 1)%Z then Some v else None
          | None => None
          end
      end
  end.

End strconv.

(** ** builder.go: loading and creating a builder *)

Definition stackLabel : string := "io.buildpacks.stack.id".
Definition envUID : string := "CNB_USER_ID".
Definition envGID : string := "CNB_GROUP_ID".

(** What [GetBuilder] and [New] read of the image ([imgutil.Image]): its
    name, its labels and its environment variables. A label or variable
    that is not set reads as the empty string. *)
Record imgutil_Image : Type := mkImage {
  img_Name : string;
  img_Label : string -> result string;
  img_Env : string -> result string
}.

(** [img.Rename(name)] *)
Definition Rename (img : imgutil_Image) (name : string) : imgutil_Image :=
  mkImage name (img_Label img) (img_Env img).

Definition err_missing_env (img : imgutil_Image) (name : string) : error :=
  Errorf "image %s missing required env var %s" [Symbol (img_Name img); Symbol name].

Definition err_not_integer (name value : string) : error :=
  Errorf "failed to parse %s, value %s should be an integer" [Symbol name; Symbol value].

Definition userAndGroupIDs (img : imgutil_Image) : result (Z * Z) :=
  sUID ← on_err (fun err => Wrap err "reading builder env variables" []) (img_Env img envUID);
  if String.eqb sUID "" then Err (err_missing_env img envUID) else
  sGID ← on_err (fun err => Wrap err "reading builder env variables" []) (img_Env img envGID);
  if String.eqb sGID "" then Err (err_missing_env img envGID) else
  match strconv.Atoi sUID with
  | None => Err (err_not_integer envUID sUID)
  | Some uid =>
      match strconv.Atoi sGID with
      | None => Err (err_not_integer envGID sGID)
      | Some gid => Ok (uid, gid)
      end
  end.

Definition err_missing_label (img : imgutil_Image) (label : string) : error :=
  Errorf "image %s missing label %s" [Symbol (img_Name img); Symbol label].

Definition err_recreate (img : imgutil_Image) (label : string) : error :=
  Errorf "builder %s missing label %s -- try recreating builder"
         [Symbol (img_Name img); Symbol label].

Section Load.
Context `{Externals}.
(** [json.Unmarshal] into a [Metadata], and [V1Order.ToOrder]
    (compat.go), the order that the groups of the metadata stand for. *)
Variable json_Unmarshal : string -> result Metadata.
Variable ToOrder : V1Order -> Order.

(** The builder that [GetBuilder] and [New] return: no lifecycle, no
    pending buildpack, the order of the groups of the metadata, not
    replaced. *)
Definition loaded (md : Metadata) (uid gid : Z) (stackID : string) : Builder :=
  mkBuilder None [] md [] uid gid stackID false (ToOrder (Groups md)).

(** [img.Label(key)], its error wrapped. *)
Definition get_label (img : imgutil_Image) (key : string) : result string :=
  on_err (fun err => Wrap err "get label %s from image %s" [Symbol key; Symbol (img_Name img)])
         (img_Label img key).

Definition parse_metadata (img : imgutil_Image) (label : string) : result Metadata :=
  on_err (fun err => Wrap err "failed to parse metadata for builder %s" [Symbol (img_Name img)])
         (json_Unmarshal label).

Definition GetBuilder (img : imgutil_Image) : result Builder :=
  ids ← userAndGroupIDs img;
  stackID ← get_label img stackLabel;
  if String.eqb stackID "" then Err (err_missing_label img stackLabel) else
  label ← get_label img MetadataLabel;
  if String.eqb label "" then Err (err_recreate img MetadataLabel) else
  metadata ← parse_metadata img label;
  Ok (loaded metadata (fst ids) (snd ids) stackID).

(** [New(img, name)]: the builder and the image, renamed. *)
Definition New (img : imgutil_Image) (name : string) : result (Builder * imgutil_Image) :=
  ids ← userAndGroupIDs img;
  stackID ← get_label img stackLabel;
  if String.eqb stackID "" then Err (err_missing_label img stackLabel) else
  label ← get_label img MetadataLabel;
  let label := if String.eqb label "" then "{}" else label in
  metadata ← parse_metadata img label;
  Ok (loaded metadata (fst ids) (snd ids) stackID, Rename img name).

End Load.

(** ** builder.go: getters and setters *)

Definition GetBuildpacks (b : Builder) : list BuildpackMetadata := Buildpacks (metadata b).

Definition GetOrder (b : Builder) : Order := order b.

Definition AddBuildpack (b : Builder) (bp : Buildpack) : Builder :=
  mkBuilder (b_lifecycle b) (additionalBuildpacks b ++ [bp])
            (mkMetadata (Description (metadata b))
                        (Buildpacks (metadata b) ++ [mkBpMeta (Info bp)])
                        (Groups (metadata b)) (Stack (metadata b)) (md_Lifecycle (metadata b)))
            (env b) (UID b) (GID b) (StackID b) (replaceOrder b) (order b).

Definition SetLifecycle (b : Builder) (l : lifecycle) : Builder :=
  mkBuilder (Some l) (additionalBuildpacks b) (metadata b) (env b)
            (UID b) (GID b) (StackID b) (replaceOrder b) (order b).

Definition SetEnv (b : Builder) (env : list (string * string)) : Builder :=
  mkBuilder (b_lifecycle b) (additionalBuildpacks b) (metadata b) env
            (UID b) (GID b) (StackID b) (replaceOrder b) (order b).

Definition SetOrder (b : Builder) (o : Order) : Builder :=
  mkBuilder (b_lifecycle b) (additionalBuildpacks b) (metadata b) (env b)
            (UID b) (GID b) (StackID b) true o.

(** The fields of [StackConfig] (config.go) that [SetStackInfo] reads. *)
Record StackConfig : Type := mkStackConfig {
  sc_RunImage : string;
  sc_RunImageMirrors : list string
}.

Definition SetStackInfo (b : Builder) (stackConfig : StackConfig) : Builder :=
  set_metadata b (mkMetadata (Description (metadata b)) (Buildpacks (metadata b))
                             (Groups (metadata b))
                             (mkStack (mkRunImage (sc_RunImage stackConfig)
                                                  (sc_RunImageMirrors stackConfig)))
                             (md_Lifecycle (metadata b))).

(** ** lifecycle.go: [Validate] *)

Section Validate.
Context `{Externals}.
(** [Version.String] *)
Variable version_String : semver.Version -> string.

Definition err_version_mismatch (v expected : semver.Version) : error :=
  Errorf "lifecycle has version %s which does not match provided version %s"
         [Symbol (version_String v); Symbol (version_String expected)].

(** [validateVersion]. With an expected version and a descriptor without
    version, [Equal] is called on a nil pointer. *)
Definition validateVersion (l : lifecycle) (expectedVersion : option semver.Version)
  : result unit :=
  match expectedVersion with
  | None => Ok tt
  | Some expected =>
      match li_Version (d_Info (descriptor l)) with
      | None => Panic
      | Some v =>
          if negb (semver.Equal comparePrerelease v expected)
          then Err (err_version_mismatch v expected)
          else Ok tt
      end
  end.

Definition Validate (l : lifecycle) (expectedVersion : option semver.Version) : result unit :=
  on_err (fun err => Wrap err "invalid lifecycle: version" [])
         (validateVersion l expectedVersion).

End Validate.

(** * The vocabulary of the properties *)

(** ** Version resolution and validation *)

(** The ref passes the body of the loop of [processOrder]. *)
Definition ref_passes (buildpacks : list BuildpackMetadata) (r : BuildpackRef) : Prop :=
  snd (processOrder_ref buildpacks r) = None.

(** The refs of the groups [before] and the refs [gbefore] are those that
    [processOrder] visits before the ref at [gbefore]'s end. *)
Definition visited_pass (buildpacks : list BuildpackMetadata)
    (before : Order) (gbefore : list BuildpackRef) : Prop :=
  Forall (fun g => Forall (ref_passes buildpacks) (Group g)) before /\
  Forall (ref_passes buildpacks) gbefore.

(** Exactly one of the nested order and the stack set is non-empty. *)
Definition order_xor_stacks (bp : Buildpack) : Prop :=
  (bp_Order bp <> [] /\ Stacks bp = []) \/ (bp_Order bp = [] /\ Stacks bp <> []).

(** The buildpack passes the body of the loop of [validateBuildpacks]. *)
Definition bp_passes (stackID : string) (bps : list Buildpack) (bp : Buildpack) : Prop :=
  validate_bp stackID (fill_bpLookup bps ∅) bp = None.

(** A blob whose archive is empty. *)
Definition empty_blob : Blob := mkBlob (Some tar.AtEOF, None).

(** The ref's key [id@version] is the key of a buildpack of the list. *)
Definition ref_resolves (bps : list Buildpack) (r : BuildpackRef) : Prop :=
  exists bp, bp ∈ bps /\ bpKey (Info bp) = bpKey r.

(** The ref's id and version are those of a buildpack of the list. *)
Definition ref_matches_identity (bps : list Buildpack) (r : BuildpackRef) : Prop :=
  exists bp, bp ∈ bps /\ Info bp = ref_info r.

(** The string has the separator of the keys. *)
Fixpoint has_at (s : string) : bool :=
  match s with
  | EmptyString => false
  | String c s' => Ascii.eqb c "@" || has_at s'
  end.

(** ** Lifecycle archives *)

(** The header is one that the reader yields before its end or its first
    error. *)
Inductive yields : tar.Reader -> tar.Header -> Prop :=
| yields_here h content rest : yields (tar.Entry h content rest) h
| yields_later h h' content rest : yields rest h -> yields (tar.Entry h' content rest) h.

(** The name is observed: it is the filename of an entry whose cleaned path
    is one directory component followed by one filename component. *)
Definition observed (rc : tar.Reader) (name : string) : Prop :=
  exists h, yields rc h /\ FindStringSubmatch (path.Clean (tar.Name h)) = Some name.

(** The header of a regular file, and the reader of an archive that reads
    without error. *)
Definition file_header (name : string) : tar.Header :=
  tar.mkHeader tar.TypeReg name "" 0 mode_0755 0 0 0.

Fixpoint reader_of (entries : list (tar.Header * string)) : tar.Reader :=
  match entries with
  | [] => tar.AtEOF
  | (h, content) :: rest => tar.Entry h (inl content) (reader_of rest)
  end.

(** A lifecycle archive without descriptor entry and without exporter. *)
Definition blob_without_exporter : Blob :=
  mkBlob (Some (reader_of
            [(file_header "lifecycle/detector", ""); (file_header "lifecycle/restorer", "");
             (file_header "lifecycle/analyzer", ""); (file_header "lifecycle/builder", "");
             (file_header "lifecycle/cacher", ""); (file_header "lifecycle/launcher", "")]),
          None).

(** ** [Save] as a plan of stages *)

(** A stage of [Save]: a check that makes no call on the image, or the
    preparation of a call (a layer is built, the metadata is marshalled)
    followed by the call, whose error is wrapped by [f]. *)
Inductive step : Type :=
| Check (r : result unit)
| Call (prepared : result ImageOp) (f : error -> error).

(** The stages in turn, up to the first that fails: the calls made on the
    image and the result. *)
Fixpoint exec (w : World) (steps : list step) : list ImageOp * result unit :=
  match steps with
  | [] => ([], Ok tt)
  | Check r :: rest =>
      match r with
      | Ok _ => exec w rest
      | Err e => ([], Err e)
      | Panic => ([], Panic)
      end
  | Call prepared f :: rest =>
      match prepared with
      | Ok op =>
          match image_call w op with
          | None => let (calls, r) := exec w rest in (op :: calls, r)
          | Some e => ([op], Err (f e))
          end
      | Err e => ([], Err e)
      | Panic => ([], Panic)
      end
  end.

(** The call that adds a layer, once the layer is composed. *)
Definition layer_call (layer : result (string * tar.Written)) : result ImageOp :=
  match layer with
  | Ok l => Ok (AddLayer (fst l) (snd l))
  | Err e => Err e
  | Panic => Panic
  end.

(** The builder after order resolution. *)
Definition b_resolved (b : Builder) : Builder :=
  set_order b (fst (processOrder (Buildpacks (metadata b)) (order b))).

(** The temporary directory, when [ioutil.TempDir] gives one. *)
Definition tmpDir_of (w : World) : string :=
  match ioutil_TempDir w with
  | Ok tmpDir => tmpDir
  | _ => ""
  end.

Section PlanDefs.
Context `{Externals}.
Variable w : World.

(** The builder after the groups are regenerated and the metadata is
    processed. *)
Definition b_processed (b : Builder) : Builder :=
  let b1 := b_resolved b in
  let b1 := set_metadata b1 (set_Groups (metadata b1) (ToV1Order (order b1))) in
  set_metadata b1 (fst (processMetadata (metadata b1))).

(** The builder when the buildpack, order and stack layers are composed
    and the label is written: the lifecycle info of the metadata is that of
    the lifecycle, when one is set. *)
Definition b_composed (b : Builder) : Builder :=
  let b2 := b_processed b in
  match b_lifecycle b2 with
  | Some l =>
      set_metadata b2
        (set_Lifecycle (metadata b2)
           (mkLifecycleMetadata (d_Info (descriptor l)) (d_API (descriptor l))))
  | None => b2
  end.

(** The stage of one pending buildpack. *)
Definition buildpack_step (b : Builder) (tmpDir : string) (bp : Buildpack) : step :=
  Call (layer_call (buildpackLayer w b tmpDir bp))
       (fun err => Wrap err "adding layer tar for buildpack %s:%s"
                        [Symbol (ID (Info bp)); Symbol (Version (Info bp))]).

(** The call that sets the metadata label, once the metadata is
    marshalled. *)
Definition label_call (md : Metadata) : result ImageOp :=
  match on_err (fun err => Wrap err "failed marshal builder image metadata" [])
               (json_Marshal md) with
  | Ok label => Ok (SetLabel MetadataLabel label)
  | Err e => Err e
  | Panic => Panic
  end.

(** The stages of [Save], in the order of the code. *)
Definition Save_plan (b : Builder) : list step :=
  let b1 := b_resolved b in
  let b2 := b_processed b in
  let b3 := b_composed b in
  let tmpDir := tmpDir_of w in
  [ Check (on_err (fun err => Wrap err "processing order" [])
                  (check (snd (processOrder (Buildpacks (metadata b)) (order b)))));
    Check (on_err (fun err => Wrap err "processing metadata" [])
                  (check (snd (processMetadata
                                 (set_Groups (metadata b1) (ToV1Order (order b1)))))));
    Check (on_err (fun err => Wrap err "validating buildpacks" [])
                  (check (validateBuildpacks (StackID b) (additionalBuildpacks b))));
    Check (_ ← ioutil_TempDir w; Ok tt);
    Call (layer_call (defaultDirsLayer w b2 tmpDir))
         (fun err => Wrap err "adding default dirs layer" []);
    Call (layer_call (envLayer w b2 tmpDir (env b)))
         (fun err => Wrap err "adding env layer" []) ]
  ++ match b_lifecycle b with
     | Some l => [ Call (layer_call (lifecycleLayer w l tmpDir))
                        (fun err => Wrap err "adding lifecycle layer" []) ]
     | None => []
     end
  ++ map (buildpack_step b3 tmpDir) (additionalBuildpacks b)
  ++ (if replaceOrder b
      then [ Call (layer_call (orderLayer w b3 tmpDir))
                  (fun err => Wrap err "adding order.tar layer" []) ]
      else [])
  ++ [ Call (layer_call (stackLayer w b3 tmpDir))
            (fun err => Wrap err "adding stack.tar layer" []);
       Call (label_call (metadata b3))
            (fun err => Wrap err "failed to set metadata label" []);
       Call (Ok (SetWorkingDir layersDir))
            (fun err => Wrap err "failed to set working dir" []);
       Call (Ok ImageSave) (fun err => err) ].

End PlanDefs.

(** ** The sequence of calls *)

(** What is left of an image call when its archive, or its label value, is
    dropped. *)
Inductive OpKind : Type :=
| KAddLayer (layerTar : string)
| KSetLabel (key : string)
| KSetWorkingDir (dir : string)
| KSave.

Definition kind (op : ImageOp) : OpKind :=
  match op with
  | AddLayer layerTar _ => KAddLayer layerTar
  | SetLabel key _ => KSetLabel key
  | SetWorkingDir dir => KSetWorkingDir dir
  | ImageSave => KSave
  end.

Section SequenceDefs.
Context `{Externals}.
Variable w : World.

(** The archive name of a buildpack layer: [{escaped-id}.{version}.tar]. *)
Definition buildpack_layerTar (tmpDir : string) (bp : Buildpack) : string :=
  filepath_Join [tmpDir; EscapedID bp +:+ "." +:+ Version (Info bp) +:+ ".tar"].

(** The layers in their fixed order, without the label, the working
    directory and the commit. *)
Definition expected_layers (b : Builder) : list OpKind :=
  let tmpDir := tmpDir_of w in
  [ KAddLayer (filepath_Join [tmpDir; "dirs.tar"]);
    KAddLayer (filepath_Join [tmpDir; "env.tar"]) ]
  ++ match b_lifecycle b with
     | Some _ => [ KAddLayer (filepath_Join [tmpDir; "lifecycle.tar"]) ]
     | None => []
     end
  ++ map (fun bp => KAddLayer (buildpack_layerTar tmpDir bp)) (additionalBuildpacks b)
  ++ (if replaceOrder b then [ KAddLayer (filepath_Join [tmpDir; "order.tar"]) ] else [])
  ++ [ KAddLayer (filepath_Join [tmpDir; "stack.tar"]) ].

(** The sequence of calls of a [Save] that succeeds. *)
Definition expected_sequence (b : Builder) : list OpKind :=
  expected_layers b ++ [ KSetLabel MetadataLabel; KSetWorkingDir layersDir; KSave ].

(** The stages make calls of these kinds, in this order, and wrap the error
    of a call. *)
Inductive plan_kinds : list step -> list OpKind -> Prop :=
| plan_nil : plan_kinds [] []
| plan_check r steps ks : plan_kinds steps ks -> plan_kinds (Check r :: steps) ks
| plan_call prepared f k steps ks :
    (forall op, prepared = Ok op -> kind op = k) ->
    (forall e, Carries (f e) e) ->
    plan_kinds steps ks ->
    plan_kinds (Call prepared f :: steps) (k :: ks).

(** The call succeeds on the image. *)
Definition succeeded (op : ImageOp) : Prop := image_call w op = None.

End SequenceDefs.

Section SaveSequenceDefs.
Context `{Externals}.
Variable w : World.

(** The stages of [Save] before the commit. *)
Definition Save_plan_before_commit (b : Builder) : list step :=
  removelast (Save_plan w b).

End SaveSequenceDefs.

(** The result of one stage on its own, and the call it makes. *)
Definition stage_result (w : World) (s : step) : result unit :=
  match s with
  | Check r => r
  | Call (Ok op) f => on_err f (check (image_call w op))
  | Call (Err e) _ => Err e
  | Call Panic _ => Panic
  end.

Definition stage_calls (s : step) : list ImageOp :=
  match s with
  | Call (Ok op) _ => [op]
  | _ => []
  end.

(** ** A concrete builder *)

(** Codecs that always succeed; the order document they print shows its
    shape. *)
Definition sample_externals : Externals := {|
  comparePrerelease := fun _ _ => 0%Z;
  toml_Decode := fun _ => Ok (mkDescriptor (mkLifecycleInfo (Some semver.v0_4_0)) (mkAPI "0.2" "0.2"));
  toml_Encode := fun d =>
    match d with
    | v1OrderTOML _ => Ok "[[groups]]"
    | orderTOML _ => Ok "[[order]]"
    | stackTOML _ => Ok "[run-image]"
    end;
  json_Marshal := fun _ => Ok "{}";
  EscapedID := fun bp => ID (Info bp);
  processMetadata := fun md => (md, None);
  symlinkLatest := symlinkLatest_spec (fun bp => ID (Info bp));
  MetadataLabel := "io.buildpacks.builder.metadata"
|}.

(** A world in which no call fails. *)
Definition quiet_world : World := {|
  ioutil_TempDir := Ok "/tmp/create-builder-scratch";
  os_Create := fun _ => None;
  tw_WriteHeader := fun _ => None;
  tw_Write := fun _ => None;
  time_Now := 0;
  archive_CreateSingleFileTar := fun _ => None;
  image_call := fun _ => None
|}.

(** A leaf buildpack y@1.0 with one file, and a lifecycle of a given
    version. *)
Definition sample_buildpack : Buildpack :=
  mkBuildpack (mkInfo "y" "1.0") [] ["io.buildpacks.stacks.bionic"]
              (mkBlob (Some (reader_of [(file_header "./cnb/detect", "#!")]), None)).

Definition sample_lifecycle (v : semver.Version) : lifecycle :=
  mkLifecycle (mkDescriptor (mkLifecycleInfo (Some v)) (mkAPI "0.2" "0.2"))
              (mkBlob (Some (reader_of [(file_header "lifecycle/detector", "")]), None)).

(** The metadata of a new builder: the document [{}]. *)
Definition empty_metadata : Metadata :=
  mkMetadata "" [] [] (mkStack (mkRunImage "" []))
             (mkLifecycleMetadata (mkLifecycleInfo None) (mkAPI "" "")).

(** A new builder after [AddBuildpack], [SetLifecycle] and [SetOrder]. *)
Definition sample_builder (l : option lifecycle) (v : option semver.Version) : Builder :=
  mkBuilder l [sample_buildpack]
            (mkMetadata "" [mkBpMeta (mkInfo "y" "1.0")] [] (mkStack (mkRunImage "run" []))
                        (mkLifecycleMetadata (mkLifecycleInfo v) (mkAPI "" "")))
            [("FOO", "bar")] 1000 1000 "io.buildpacks.stacks.bionic" true
            [mkEntry [mkRef (mkInfo "y" "") false]].

(** ** The compatibility pivot *)

(** The version precedes 0.4.0 in the order of semantic versions: its
    numbers are smaller or, when they are 0.4.0, it is a prerelease. *)
Definition precedes_0_4_0 (v : semver.Version) : Prop :=
  (semver.major v < 0 \/
   (semver.major v = 0 /\ semver.minor v < 4) \/
   (semver.major v = 0 /\ semver.minor v = 4 /\ semver.patch v < 0) \/
   (semver.major v = 0 /\ semver.minor v = 4 /\ semver.patch v = 0 /\ semver.pre v <> ""))%Z.

Section PivotDefs.
Context `{Externals}.
Variable w : World.

(** The two directory entries that open a buildpack layer. *)
Definition buildpack_dirs (bp : Buildpack) : tar.Written :=
  [ (tar.mkHeader tar.TypeDir (path.Join [buildpacksDir; EscapedID bp]) "" 0 mode_0755 0 0
                  (time_Now w), "");
    (tar.mkHeader tar.TypeDir (path.Join [buildpacksDir; EscapedID bp; Version (Info bp)])
                  "" 0 mode_0755 0 0 (time_Now w), "") ].

End PivotDefs.

Section OriginDefs.
Context `{Externals}.
Variable w : World.

(** The stage that prepared a call of [Save]. The directory and
    environment layers are composed on the builder after the metadata is
    processed; the buildpack, order and stack layers and the label on the
    builder whose lifecycle metadata is that of the lifecycle set. *)
Definition call_origin (b : Builder) (op : ImageOp) : Prop :=
  let b2 := b_processed b in
  let b3 := b_composed b in
  let tmpDir := tmpDir_of w in
  layer_call (defaultDirsLayer w b2 tmpDir) = Ok op \/
  layer_call (envLayer w b2 tmpDir (env b)) = Ok op \/
  (exists l, b_lifecycle b = Some l /\ layer_call (lifecycleLayer w l tmpDir) = Ok op) \/
  (exists bp, bp ∈ additionalBuildpacks b /\
              layer_call (buildpackLayer w b3 tmpDir bp) = Ok op) \/
  (replaceOrder b = true /\ layer_call (orderLayer w b3 tmpDir) = Ok op) \/
  layer_call (stackLayer w b3 tmpDir) = Ok op \/
  label_call (metadata b3) = Ok op \/
  op = SetWorkingDir layersDir \/
  op = ImageSave.

End OriginDefs.

(** A builder that was loaded with groups that its order no longer has. *)
Definition stale_builder : Builder :=
  let b := sample_builder None None in
  set_metadata b (set_Groups (metadata b) [mkV1Group [mkRef (mkInfo "old" "0.1") false]]).

(** The error of a blob that cannot be opened. *)
Definition open_error : error := errors_New "open y.tgz: permission denied".

(** A buildpack whose blob fails to open and gives no reader. *)
Definition unreadable_buildpack : Buildpack :=
  mkBuildpack (mkInfo "y" "1.0") [] ["io.buildpacks.stacks.bionic"]
              (mkBlob (None, Some open_error)).

(** A buildpack whose blob returns an error next to a reader. *)
Definition half_open_buildpack : Buildpack :=
  mkBuildpack (mkInfo "y" "1.0") [] ["io.buildpacks.stacks.bionic"]
              (mkBlob (Some (reader_of [(file_header "./cnb/detect", "#!")]), Some open_error)).

(** A builder with that one pending buildpack. *)
Definition builder_of (bp : Buildpack) : Builder :=
  mkBuilder None [bp] empty_metadata [] 1000 1000 "io.buildpacks.stacks.bionic" false [].

(** ** The order document *)

(** A TOML document as the encoder and the decoder of
    github.com/BurntSushi/toml see it, between the Go value and the text:
    tables of keyed values, arrays, strings, booleans. *)
Module toml.

#[local] Unset Elimination Schemes.
Inductive Value : Type :=
| String (s : string)
| Bool (b : bool)
| Array (elements : list Value)
| Table (fields : list (string * Value)).
#[local] Set Elimination Schemes.

(** The value under a key of a table. *)
Fixpoint lookup (key : string) (fields : list (string * Value)) : option Value :=
  match fields with
  | [] => None
  | (k, v) :: rest => if String.eqb k key then Some v else lookup key rest
  end.

(** Decoding into a struct field: a key that the table does not have
    leaves the zero value of the field; a value of another type is an
    error. *)
Definition string_field (key : string) (fields : list (string * Value)) : option string :=
  match lookup key fields with
  | None => Some ""
  | Some (String s) => Some s
  | Some _ => None
  end.

Definition bool_field (key : string) (fields : list (string * Value)) : option bool :=
  match lookup key fields with
  | None => Some false
  | Some (Bool b) => Some b
  | Some _ => None
  end.

Definition slice_field {A : Type} (decode : Value -> option A) (key : string)
    (fields : list (string * Value)) : option (list A) :=
  match lookup key fields with
  | None => Some []
  | Some (Array elements) => mapM decode elements
  | Some _ => None
  end.

End toml.

(** [BuildpackRef] as a table: the embedded [BuildpackInfo] is flattened
    into the keys [id] and [version] (modelled from the spec, which gives
    the ref the keys id, version and optional: the tags of [BuildpackInfo]
    are in buildpack.go), and [optional] is left out when false
    ([omitempty]). *)
Definition encode_BuildpackRef (r : BuildpackRef) : toml.Value :=
  toml.Table ([("id", toml.String (ID r)); ("version", toml.String (Version r))]
              ++ (if Optional r then [("optional", toml.Bool true)] else [])).

(** [OrderEntry]: the key [group]. *)
Definition encode_OrderEntry (e : OrderEntry) : toml.Value :=
  toml.Table [("group", toml.Array (map encode_BuildpackRef (Group e)))].

(** [orderTOML{Order: o}]: the key [order] wraps the entries. *)
Definition encode_orderTOML (o : Order) : toml.Value :=
  toml.Table [("order", toml.Array (map encode_OrderEntry o))].

(** Decoding, field by field under the same keys. *)
Definition decode_BuildpackRef (v : toml.Value) : option BuildpackRef :=
  match v with
  | toml.Table fields =>
      id ← toml.string_field "id" fields;
      version ← toml.string_field "version" fields;
      optional ← toml.bool_field "optional" fields;
      Some (mkRef (mkInfo id version) optional)
  | _ => None
  end.

Definition decode_OrderEntry (v : toml.Value) : option OrderEntry :=
  match v with
  | toml.Table fields =>
      group ← toml.slice_field decode_BuildpackRef "group" fields;
      Some (mkEntry group)
  | _ => None
  end.

Definition decode_orderTOML (v : toml.Value) : option Order :=
  match v with
  | toml.Table fields => toml.slice_field decode_OrderEntry "order" fields
  | _ => None
  end.

(** ** Further vocabulary *)

(** What [processOrder] may do to a ref: it keeps the id and the optional
    flag, and it keeps the version unless the version was empty. *)
Definition version_filled (r r' : BuildpackRef) : Prop :=
  ID r' = ID r /\ Optional r' = Optional r /\ (Version r' = Version r \/ Version r = "").

(** The ref has the id and the version of a known buildpack. *)
Definition ref_known (buildpacks : list BuildpackMetadata) (r : BuildpackRef) : Prop :=
  exists bp : BuildpackMetadata, bp ∈ buildpacks /\ bm_info bp = ref_info r.

(** The ref can be resolved: it names a version, and a known buildpack has
    its id and that version; or it names none, and exactly one known
    buildpack (counted with repetition) has its id. *)
Definition resolvable (buildpacks : list BuildpackMetadata) (r : BuildpackRef) : Prop :=
  (Version r <> "" /\
   exists bp : BuildpackMetadata, bp ∈ buildpacks /\ ID bp = ID r /\ Version bp = Version r) \/
  (Version r = "" /\ length (matchingBps (ID r) buildpacks) = 1).

(** What [validateBuildpacks] asks of one buildpack of the list [bps]: a
    leaf supports the stack, a composite refers only to keys of [bps]. *)
Definition bp_valid (stackID : string) (bps : list Buildpack) (bp : Buildpack) : Prop :=
  (bp_Order bp = [] /\ Stacks bp <> [] /\ SupportsStack bp stackID = true) \/
  (bp_Order bp <> [] /\ Stacks bp = [] /\
   forall g r, g ∈ bp_Order bp -> r ∈ Group g -> ref_resolves bps r).

(** ** Layer contents *)

(** The entry that [envLayer] writes for one variable. *)
Definition env_entry (now : Z) (kv : string * string) : tar.Header * string :=
  (tar.mkHeader tar.TypeRegA (path.Join [platformDir; "env"; fst kv]) ""
                (Z.of_nat (String.length (snd kv))) mode_0644 0 0 now,
   snd kv).

(** A name that is one path element: not empty, not "." or "..", without
    slash. *)
Definition plain_name (k : string) : Prop :=
  k <> "" /\ k <> "." /\ k <> ".." /\ has_slash k = false.

(** The entry of a buildpack archive is its root, which the layer leaves
    out. *)
Definition is_root (e : tar.Header * string) : bool :=
  String.eqb (path.Clean (tar.Name (fst e))) "." ||
  String.eqb (path.Clean (tar.Name (fst e))) "/".

(** The entry of a buildpack archive as the layer has it: below the
    version directory, owned by the builder's user and group. *)
Definition relocated (b : Builder) (baseTarDir : string) (e : tar.Header * string)
  : tar.Header * string :=
  (tar.set_owner
     (tar.set_Name (fst e)
        (path.Clean (path.Join [baseTarDir; path.Clean (tar.Name (fst e))])))
     (UID b) (GID b),
   snd e).

(** A lifecycle with a full set of binaries and a descriptor without
    effect on the checks of the binaries. *)
Definition full_lifecycle : lifecycle :=
  mkLifecycle DefaultLifecycleDescriptor
    (mkBlob (Some (reader_of
       [(file_header "lifecycle/detector", "d"); (file_header "lifecycle/restorer", "r");
        (file_header "lifecycle/analyzer", "a"); (file_header "lifecycle/builder", "b");
        (file_header "lifecycle/exporter", "e"); (file_header "lifecycle/cacher", "c");
        (file_header "lifecycle/launcher", "l"); (file_header "lifecycle.toml", "")]),
     None)).

(** ** Lifecycle archives, continued *)

(** The archive reads to its end: no [tr.Next()] returns an error other
    than [io.EOF]. *)
Inductive reads_to_end : tar.Reader -> Prop :=
| reads_eof : reads_to_end tar.AtEOF
| reads_entry h content rest : reads_to_end rest -> reads_to_end (tar.Entry h content rest).

(** The numbers and the prerelease of the version are those of 0.3.0. *)
Definition is_0_3_0 (v : semver.Version) : Prop :=
  semver.major v = 0%Z /\ semver.minor v = 3%Z /\ semver.patch v = 0%Z /\ semver.pre v = "".

(** ** Loading, changing and saving a builder *)

(** An image with the labels and variables of a builder image. *)
Definition sample_image (metadataLabel : string) : imgutil_Image :=
  mkImage "some/builder"
    (fun key => if String.eqb key stackLabel then Ok "io.buildpacks.stacks.bionic"
                else if String.eqb key "io.buildpacks.builder.metadata" then Ok metadataLabel
                else Ok "")
    (fun key => if String.eqb key envUID then Ok "1234"
                else if String.eqb key envGID then Ok "4321"
                else Ok "").

(** A decoder that knows the empty document. *)
Definition sample_Unmarshal (label : string) : result Metadata :=
  if String.eqb label "{}" then Ok empty_metadata
  else Err (errors_New "unexpected end of JSON input").

(** The order of the groups, group by group. *)
Definition sample_ToOrder (groups : V1Order) : Order :=
  map (fun gp => mkEntry (v1_Buildpacks gp)) groups.

(** The kinds of the calls of a [Save] that adds neither lifecycle nor
    buildpack nor order layer. *)
Definition plain_sequence `{Externals} (w : World) : list OpKind :=
  [ KAddLayer (filepath_Join [tmpDir_of w; "dirs.tar"]);
    KAddLayer (filepath_Join [tmpDir_of w; "env.tar"]);
    KAddLayer (filepath_Join [tmpDir_of w; "stack.tar"]);
    KSetLabel MetadataLabel; KSetWorkingDir layersDir; KSave ].

(** * Properties *)

(** ** Version resolution *)

Lemma matchingBps_elem id buildpacks info :
  info ∈ matchingBps id buildpacks <->
  exists bp, bp ∈ buildpacks /\ bm_info bp = info /\ ID bp = id.
Proof.
  induction buildpacks as [|bp rest IH]; simpl.
  - split; [intros Hin; inversion Hin | intros (bp & Hin & _); inversion Hin].
  - destruct (String.eqb_spec id (ID bp)) as [Heq|Hne].
    + rewrite elem_of_cons, IH. split.
      * intros [->|(bp' & Hin & Hinfo & Hid)].
        -- exists bp. split; [left|]; auto.
        -- exists bp'. split; [right|]; auto.
      * intros (bp' & Hin & Hinfo & Hid).
        apply elem_of_cons in Hin as [->|Hin]; [left; auto|].
        right. exists bp'. auto.
    + rewrite IH. split.
      * intros (bp' & Hin & Hinfo & Hid). exists bp'. split; [right|]; auto.
      * intros (bp' & Hin & Hinfo & Hid).
        apply elem_of_cons in Hin as [->|Hin]; [congruence|].
        exists bp'. auto.
Qed.

Lemma hasBuildpackWithVersion_true bps version :
  hasBuildpackWithVersion bps version = true <->
  exists info, info ∈ bps /\ Version info = version.
Proof.
  induction bps as [|bp rest IH]; simpl.
  - split; [discriminate | intros (i & Hin & _); inversion Hin].
  - destruct (String.eqb_spec (Version bp) version) as [Heq|Hne].
    + split; [intros _; exists bp; split; [left|]; auto | auto].
    + rewrite IH. split.
      * intros (i & Hin & Hv). exists i. split; [right|]; auto.
      * intros (i & Hin & Hv).
        apply elem_of_cons in Hin as [->|Hin]; [congruence|]. exists i. auto.
Qed.

(** A known buildpack with the ref's id and version is found among the
    matches, and only such a one. *)
Lemma has_exact_version buildpacks id version :
  hasBuildpackWithVersion (matchingBps id buildpacks) version = true <->
  exists bp : BuildpackMetadata, bp ∈ buildpacks /\ ID bp = id /\ Version bp = version.
Proof.
  rewrite hasBuildpackWithVersion_true. split.
  - intros (info & Hin & Hv). apply matchingBps_elem in Hin as (bp & Hin & <- & Hid).
    exists bp. auto.
  - intros (bp & Hin & Hid & Hv). exists (bm_info bp). split; [|exact Hv].
    apply matchingBps_elem. exists bp. auto.
Qed.

Lemma processOrder_group_app buildpacks gbefore r gafter :
  Forall (ref_passes buildpacks) gbefore ->
  processOrder_group buildpacks (gbefore ++ r :: gafter) =
  let before' := map (fun x => fst (processOrder_ref buildpacks x)) gbefore in
  match processOrder_ref buildpacks r with
  | (r', Some e) => (before' ++ r' :: gafter, Some e)
  | (r', None) =>
      (before' ++ r' :: fst (processOrder_group buildpacks gafter),
       snd (processOrder_group buildpacks gafter))
  end.
Proof.
  induction 1 as [|x l Hx Hl IH]; simpl.
  - destruct (processOrder_ref buildpacks r) as [r' [e|]]; [reflexivity|].
    destruct (processOrder_group buildpacks gafter); reflexivity.
  - unfold ref_passes in Hx.
    destruct (processOrder_ref buildpacks x) as [x' [e|]]; simpl in *; [discriminate|].
    rewrite IH. simpl.
    destruct (processOrder_ref buildpacks r) as [r' [e|]]; reflexivity.
Qed.

Lemma processOrder_group_pass buildpacks group :
  Forall (ref_passes buildpacks) group ->
  processOrder_group buildpacks group =
  (map (fun x => fst (processOrder_ref buildpacks x)) group, None).
Proof.
  induction 1 as [|x l Hx Hl IH]; simpl; [reflexivity|].
  unfold ref_passes in Hx.
  destruct (processOrder_ref buildpacks x) as [x' [e|]]; simpl in *; [discriminate|].
  rewrite IH. reflexivity.
Qed.

Lemma processOrder_app buildpacks before g after :
  Forall (fun g => Forall (ref_passes buildpacks) (Group g)) before ->
  processOrder buildpacks (before ++ g :: after) =
  let before' :=
    map (fun g => mkEntry (fst (processOrder_group buildpacks (Group g)))) before in
  match processOrder_group buildpacks (Group g) with
  | (group', Some e) => (before' ++ mkEntry group' :: after, Some e)
  | (group', None) =>
      (before' ++ mkEntry group' :: fst (processOrder buildpacks after),
       snd (processOrder buildpacks after))
  end.
Proof.
  induction 1 as [|x l Hx Hl IH]; simpl.
  - destruct (processOrder_group buildpacks (Group g)) as [g' [e|]]; [reflexivity|].
    destruct (processOrder buildpacks after); reflexivity.
  - rewrite (processOrder_group_pass _ _ Hx). rewrite IH. simpl.
    destruct (processOrder_group buildpacks (Group g)) as [g' [e|]]; reflexivity.
Qed.

(** What [processOrder] does at a ref that it reaches: the error of the
    body on that ref is the error of [processOrder], and the ref the body
    leaves is in the order at the ref's place. *)
Lemma processOrder_at buildpacks before gbefore r gafter after :
  visited_pass buildpacks before gbefore ->
  let order := before ++ mkEntry (gbefore ++ r :: gafter) :: after in
  let r' := fst (processOrder_ref buildpacks r) in
  (forall e, snd (processOrder_ref buildpacks r) = Some e ->
             snd (processOrder buildpacks order) = Some e) /\
  exists g', fst (processOrder buildpacks order) !! length before = Some g' /\
             Group g' !! length gbefore = Some r'.
Proof.
  intros [Hb Hg] order r'. subst order r'.
  rewrite (processOrder_app _ _ _ _ Hb). cbn zeta. simpl Group.
  rewrite (processOrder_group_app _ _ _ _ Hg). cbn zeta.
  set (before' := map _ before). set (gbefore' := map _ gbefore).
  assert (Hlb : length before' = length before) by apply length_map.
  assert (Hlg : length gbefore' = length gbefore) by apply length_map.
  destruct (processOrder_ref buildpacks r) as [r' [e|]]; simpl.
  - split; [auto|]. eexists. split.
    + rewrite <- Hlb. apply list_lookup_middle. reflexivity.
    + simpl. rewrite <- Hlg. apply list_lookup_middle. reflexivity.
  - split; [discriminate|].
    destruct (processOrder_group buildpacks gafter) as [gafter' [e|]]; simpl;
      eexists; (split; [rewrite <- Hlb; apply list_lookup_middle; reflexivity|]);
      simpl; rewrite <- Hlg; apply list_lookup_middle; reflexivity.
Qed.

Lemma processOrder_ref_no_match buildpacks (r : BuildpackRef) :
  length (matchingBps (ID r) buildpacks) = 0 ->
  processOrder_ref buildpacks r = (r, Some (err_no_versions (ID r))).
Proof.
  unfold processOrder_ref. destruct (matchingBps (ID r) buildpacks); [reflexivity|discriminate].
Qed.

Lemma processOrder_ref_ambiguous buildpacks (r : BuildpackRef) :
  Version r = "" -> 2 <= length (matchingBps (ID r) buildpacks) ->
  processOrder_ref buildpacks r = (r, Some (err_ambiguous (ID r))).
Proof.
  intros Hv Hn. unfold processOrder_ref.
  destruct (matchingBps (ID r) buildpacks) as [|first rest] eqn:Hm; [simpl in Hn; lia|].
  rewrite Hv. simpl String.eqb. cbn [andb].
  destruct (Nat.ltb_spec 1 (length (first :: rest))); [reflexivity|lia].
Qed.

Lemma processOrder_ref_unique buildpacks (r : BuildpackRef) info :
  Version r = "" -> matchingBps (ID r) buildpacks = [info] ->
  processOrder_ref buildpacks r = (setVersion r (Version info), None).
Proof.
  intros Hv Hm. unfold processOrder_ref. rewrite Hm, Hv. simpl.
  rewrite String.eqb_refl. reflexivity.
Qed.

Lemma processOrder_ref_version_missing buildpacks (r : BuildpackRef) :
  Version r <> "" -> 1 <= length (matchingBps (ID r) buildpacks) ->
  (forall bp : BuildpackMetadata,
      bp ∈ buildpacks -> ~ (ID bp = ID r /\ Version bp = Version r)) ->
  processOrder_ref buildpacks r = (r, Some (err_version_not_found (ID r) (Version r))).
Proof.
  intros Hv Hn Hnone. unfold processOrder_ref.
  assert (Hhas : hasBuildpackWithVersion (matchingBps (ID r) buildpacks) (Version r) = false).
  { apply not_true_is_false. rewrite has_exact_version.
    intros (bp & Hin & Hid & Hver). exact (Hnone bp Hin (conj Hid Hver)). }
  destruct (matchingBps (ID r) buildpacks) as [|first rest] eqn:Hm; [simpl in Hn; lia|].
  destruct (String.eqb_spec (Version r) "") as [Heq|_]; [contradiction|].
  cbn [andb]. rewrite Hhas. reflexivity.
Qed.

(** C1, as the code has it. At a ref that [processOrder] reaches (the refs
    before it, in its group and in the groups before, pass), with [n] the
    number of known buildpacks that share the ref's id:
    - [n = 0]: [processOrder] fails with the not-found error naming the id;
    - empty version, [n >= 2]: it fails with the ambiguity error naming the
      id;
    - empty version, exactly one known buildpack with the id: the ref
      passes and its version is set, in place, to that buildpack's version;
    - non-empty version, [n >= 1], and no known buildpack has that id and
      that version: it fails with the error naming the id and the
      version. *)
Theorem processOrder_cases buildpacks before gbefore r gafter after :
  visited_pass buildpacks before gbefore ->
  let order := before ++ mkEntry (gbefore ++ r :: gafter) :: after in
  let n := length (matchingBps (ID r) buildpacks) in
  (n = 0 ->
   snd (processOrder buildpacks order) = Some (err_no_versions (ID r))) /\
  (Version r = "" -> 2 <= n ->
   snd (processOrder buildpacks order) = Some (err_ambiguous (ID r))) /\
  (Version r = "" ->
   forall info, matchingBps (ID r) buildpacks = [info] ->
     ref_passes buildpacks r /\
     exists g', fst (processOrder buildpacks order) !! length before = Some g' /\
                Group g' !! length gbefore = Some (setVersion r (Version info))) /\
  (Version r <> "" -> 1 <= n ->
   (forall bp : BuildpackMetadata,
       bp ∈ buildpacks -> ~ (ID bp = ID r /\ Version bp = Version r)) ->
   snd (processOrder buildpacks order) =
     Some (err_version_not_found (ID r) (Version r))).
Proof.
  intros Hvisited order n.
  destruct (processOrder_at buildpacks before gbefore r gafter after Hvisited)
    as [Herr (g' & Hg' & Hr')].
  fold order in Herr, Hg'.
  split; [|split; [|split]].
  - intros Hn. apply Herr. rewrite (processOrder_ref_no_match _ _ Hn). reflexivity.
  - intros Hv Hn. apply Herr. rewrite (processOrder_ref_ambiguous _ _ Hv Hn). reflexivity.
  - intros Hv info Hm. split.
    + unfold ref_passes. rewrite (processOrder_ref_unique _ _ _ Hv Hm). reflexivity.
    + exists g'. split; [exact Hg'|].
      rewrite Hr', (processOrder_ref_unique _ _ _ Hv Hm). reflexivity.
  - intros Hv Hn Hnone. apply Herr.
    rewrite (processOrder_ref_version_missing _ _ Hv Hn Hnone). reflexivity.
Qed.

(** [processOrder_cases] at the known buildpacks x@1.0, y@1 and y@2 and the
    order [[x, y@3]]: the version of the first ref is set to 1.0 in place. *)
Lemma processOrder_cases_witness :
  let buildpacks := [mkBpMeta (mkInfo "x" "1.0"); mkBpMeta (mkInfo "y" "1");
                     mkBpMeta (mkInfo "y" "2")] in
  let r := mkRef (mkInfo "x" "") false in
  let order := [mkEntry [r; mkRef (mkInfo "y" "3") true]] in
  exists g', fst (processOrder buildpacks order) !! 0 = Some g' /\
             Group g' !! 0 = Some (mkRef (mkInfo "x" "1.0") false).
Proof.
  intros buildpacks r order.
  assert (Hv : visited_pass buildpacks [] []) by (split; constructor).
  pose proof (processOrder_cases buildpacks [] [] r [mkRef (mkInfo "y" "3") true] [] Hv)
    as (_ & _ & Hset & _).
  destruct (Hset eq_refl (mkInfo "x" "1.0") eq_refl) as [_ Hplace].
  exact Hplace.
Defined.

(** C1, as stated, fails where its first and its last case overlap: no
    known buildpack has the id x, and the ref x@1.0 has a version. The
    error is the not-found error of the first case; it names the id and
    not the version. *)
Lemma processOrder_unknown_id_names_no_version :
  let buildpacks : list BuildpackMetadata := [] in
  let r := mkRef (mkInfo "x" "1.0") false in
  Version r <> "" /\
  (forall bp : BuildpackMetadata,
      bp ∈ buildpacks -> ~ (ID bp = ID r /\ Version bp = Version r)) /\
  snd (processOrder buildpacks [mkEntry [r]]) = Some (err_no_versions "x") /\
  ~ (exists e, snd (processOrder buildpacks [mkEntry [r]]) = Some e /\
               names e (ID r) /\ names e (Version r)).
Proof.
  simpl. repeat split.
  - discriminate.
  - intros bp Hin. inversion Hin.
  - intros (e & He & _ & Hnames). injection He as <-.
    simpl in Hnames. destruct Hnames as [Heq|[]]. discriminate.
Qed.

(** ** Graph and stack validation *)

Lemma fill_bpLookup_elem bps (bpLookup : gset string) key :
  key ∈ fill_bpLookup bps bpLookup <->
  key ∈ bpLookup \/ exists bp, bp ∈ bps /\ bpKey (Info bp) = key.
Proof.
  revert bpLookup. induction bps as [|bp rest IH]; intros bpLookup; simpl.
  - split; [auto | intros [Hin|(bp & Hin & _)]; [exact Hin | inversion Hin]].
  - rewrite IH, elem_of_union, elem_of_singleton. split.
    + intros [[->|Hin]|(bp' & Hin & Hk)].
      * right. exists bp. split; [left|reflexivity].
      * left. exact Hin.
      * right. exists bp'. split; [right; exact Hin | exact Hk].
    + intros [Hin|(bp' & Hin & Hk)].
      * left. right. exact Hin.
      * apply elem_of_cons in Hin as [->|Hin].
        -- left. left. symmetry. exact Hk.
        -- right. exists bp'. auto.
Qed.

Lemma validate_bps_None stackID bpLookup bps :
  validate_bps stackID bpLookup bps = None <->
  Forall (fun bp => validate_bp stackID bpLookup bp = None) bps.
Proof.
  induction bps as [|bp rest IH]; simpl.
  - split; [constructor | reflexivity].
  - destruct (validate_bp stackID bpLookup bp) as [e|] eqn:Hbp.
    + split; [discriminate | intros HF; inversion HF; congruence].
    + rewrite IH. split; [intros HF; constructor; assumption | intros HF; inversion HF; assumption].
Qed.

Lemma validate_bps_first stackID bpLookup before bp after e :
  Forall (fun bp => validate_bp stackID bpLookup bp = None) before ->
  validate_bp stackID bpLookup bp = Some e ->
  validate_bps stackID bpLookup (before ++ bp :: after) = Some e.
Proof.
  intros HF Hbp. induction HF as [|x l Hx Hl IH]; simpl.
  - rewrite Hbp. reflexivity.
  - rewrite Hx. exact IH.
Qed.

Lemma validate_bp_neither stackID bpLookup bp :
  bp_Order bp = [] -> Stacks bp = [] ->
  validate_bp stackID bpLookup bp = Some (err_neither (bpKey (Info bp))).
Proof. intros Ho Hs. unfold validate_bp. rewrite Ho, Hs. reflexivity. Qed.

Lemma validate_bp_both stackID bpLookup bp :
  bp_Order bp <> [] -> Stacks bp <> [] ->
  validate_bp stackID bpLookup bp = Some (err_both (bpKey (Info bp))).
Proof.
  intros Ho Hs. unfold validate_bp.
  destruct (bp_Order bp) as [|g o]; [contradiction|].
  destruct (Stacks bp) as [|s l]; [contradiction|]. reflexivity.
Qed.

Lemma validate_bp_xor stackID bpLookup bp :
  validate_bp stackID bpLookup bp = None -> order_xor_stacks bp.
Proof.
  unfold validate_bp, order_xor_stacks.
  destruct (bp_Order bp) as [|g o]; destruct (Stacks bp) as [|s l]; simpl;
    try discriminate; intros _; [right | left]; split; congruence.
Qed.

(** C3. [validateBuildpacks] succeeds only if every buildpack has exactly
    one of a non-empty nested order and a non-empty stack set; a list with
    a buildpack that has neither, or both, is rejected; and when that
    buildpack is the first that fails a check, the error is the "must have
    either stacks or an order defined" error for neither and the "cannot
    have both stacks and an order defined" error for both, each with the
    buildpack's id@version; the two errors differ. *)
Theorem validateBuildpacks_order_xor_stacks stackID bps :
  (validateBuildpacks stackID bps = None -> Forall order_xor_stacks bps) /\
  (forall bp, bp ∈ bps -> ~ order_xor_stacks bp ->
              exists e, validateBuildpacks stackID bps = Some e) /\
  (forall before bp after,
      bps = before ++ bp :: after ->
      Forall (bp_passes stackID bps) before ->
      (bp_Order bp = [] -> Stacks bp = [] ->
       validateBuildpacks stackID bps = Some (err_neither (bpKey (Info bp)))) /\
      (bp_Order bp <> [] -> Stacks bp <> [] ->
       validateBuildpacks stackID bps = Some (err_both (bpKey (Info bp))))) /\
  (forall key key', err_neither key <> err_both key').
Proof.
  assert (Hxor : validateBuildpacks stackID bps = None -> Forall order_xor_stacks bps).
  { unfold validateBuildpacks. rewrite validate_bps_None.
    intros HF. eapply Forall_impl; [exact HF|].
    intros bp. apply validate_bp_xor. }
  split; [exact Hxor|]. split; [|split].
  - intros bp Hin Hnot.
    destruct (validateBuildpacks stackID bps) as [e|] eqn:Hv; [exists e; reflexivity|].
    exfalso. apply Hnot. specialize (Hxor eq_refl).
    rewrite Forall_forall in Hxor. apply Hxor. exact Hin.
  - intros before bp after Hbps Hbefore. unfold validateBuildpacks.
    set (bpLookup := fill_bpLookup bps ∅) in *. rewrite Hbps. split.
    + intros Ho Hs. apply validate_bps_first; [exact Hbefore|].
      apply validate_bp_neither; assumption.
    + intros Ho Hs. apply validate_bps_first; [exact Hbefore|].
      apply validate_bp_both; assumption.
  - intros key key'. unfold err_neither, err_both. discriminate.
Qed.

(** [validateBuildpacks_order_xor_stacks] at the buildpack y@1.0 with no
    stacks and no order. *)
Lemma validateBuildpacks_order_xor_stacks_witness :
  validateBuildpacks "io.buildpacks.stacks.bionic" [mkBuildpack (mkInfo "y" "1.0") [] [] empty_blob]
  = Some (err_neither "y@1.0").
Proof.
  set (y := mkBuildpack (mkInfo "y" "1.0") [] [] empty_blob).
  destruct (validateBuildpacks_order_xor_stacks "io.buildpacks.stacks.bionic" [y])
    as (_ & _ & Hfirst & _).
  destruct (Hfirst [] y [] eq_refl (List.Forall_nil _)) as [Hneither _].
  exact (Hneither eq_refl eq_refl).
Defined.

Lemma key_inj (a b c d : string) :
  has_at a = false -> has_at c = false ->
  a +:+ "@" +:+ b = c +:+ "@" +:+ d -> a = c /\ b = d.
Proof.
  revert c. induction a as [|x a IH]; intros [|y c] Ha Hc Heq; cbn in Ha, Hc, Heq.
  - injection Heq as Heq. auto.
  - injection Heq as Hy _. subst y. discriminate.
  - injection Heq as Hx _. subst x. discriminate.
  - injection Heq as Hxy Heq. subst y.
    apply orb_false_elim in Ha as [_ Ha]. apply orb_false_elim in Hc as [_ Hc].
    destruct (IH c Ha Hc Heq) as [Hac Hbd]. subst. auto.
Qed.

Lemma bpKey_inj (i j : BuildpackInfo) :
  has_at (ID i) = false -> has_at (ID j) = false -> bpKey i = bpKey j -> i = j.
Proof.
  destruct i as [a b], j as [c d]. unfold bpKey. simpl. intros Ha Hc Heq.
  destruct (key_inj a b c d Ha Hc Heq) as [-> ->]. reflexivity.
Qed.

Lemma in_bpLookup bps (r : BuildpackRef) :
  bpKey r ∈ fill_bpLookup bps ∅ <-> ref_resolves bps r.
Proof.
  rewrite fill_bpLookup_elem. unfold ref_resolves. split.
  - intros [Hin|Hex]; [set_solver | exact Hex].
  - auto.
Qed.

Lemma validate_group_None (bpLookup : gset string) group :
  validate_group bpLookup group = None <->
  Forall (fun r : BuildpackRef => bpKey r ∈ bpLookup) group.
Proof.
  induction group as [|r rest IH]; simpl.
  - split; [constructor | reflexivity].
  - destruct (decide (bpKey r ∈ bpLookup)) as [Hin|Hnin].
    + rewrite IH. split; [intros HF; constructor; assumption | intros HF; inversion HF; assumption].
    + split; [discriminate | intros HF; inversion HF; contradiction].
Qed.

Lemma validate_group_first (bpLookup : gset string) rbefore (r : BuildpackRef) rafter :
  Forall (fun r : BuildpackRef => bpKey r ∈ bpLookup) rbefore ->
  bpKey r ∉ bpLookup ->
  validate_group bpLookup (rbefore ++ r :: rafter) = Some (err_ref_not_found (bpKey r)).
Proof.
  intros HF Hnin. induction HF as [|x l Hx Hl IH]; simpl.
  - destruct (decide (bpKey r ∈ bpLookup)); [contradiction|reflexivity].
  - destruct (decide (bpKey x ∈ bpLookup)); [exact IH|contradiction].
Qed.

Lemma validate_order_None (bpLookup : gset string) o :
  validate_order bpLookup o = None <->
  Forall (fun g => Forall (fun r : BuildpackRef => bpKey r ∈ bpLookup) (Group g)) o.
Proof.
  induction o as [|g rest IH]; simpl.
  - split; [constructor | reflexivity].
  - destruct (validate_group bpLookup (Group g)) as [e|] eqn:Hg.
    + split; [discriminate|]. intros HF. inversion HF as [|? ? Hhead _]; subst.
      apply validate_group_None in Hhead. congruence.
    + apply validate_group_None in Hg. rewrite IH.
      split; [intros HF; constructor; assumption | intros HF; inversion HF; assumption].
Qed.

Lemma validate_order_first (bpLookup : gset string) gbefore g gafter e :
  Forall (fun g => Forall (fun r : BuildpackRef => bpKey r ∈ bpLookup) (Group g)) gbefore ->
  validate_group bpLookup (Group g) = Some e ->
  validate_order bpLookup (gbefore ++ g :: gafter) = Some e.
Proof.
  intros HF Hg. induction HF as [|x l Hx Hl IH]; simpl.
  - rewrite Hg. reflexivity.
  - apply validate_group_None in Hx. rewrite Hx. exact IH.
Qed.

Lemma validate_bp_composite stackID bpLookup bp :
  bp_Order bp <> [] -> Stacks bp = [] ->
  validate_bp stackID bpLookup bp = validate_order bpLookup (bp_Order bp).
Proof.
  intros Ho Hs. unfold validate_bp. rewrite Hs.
  destruct (bp_Order bp) as [|g o]; [contradiction|]. reflexivity.
Qed.

Lemma bp_passes_composite stackID bps bp :
  bp_Order bp <> [] -> Stacks bp = [] ->
  bp_passes stackID bps bp <->
  forall g r, g ∈ bp_Order bp -> r ∈ Group g -> ref_resolves bps r.
Proof.
  intros Ho Hs. unfold bp_passes.
  rewrite (validate_bp_composite _ _ _ Ho Hs), validate_order_None, Forall_forall.
  split.
  - intros HF g r Hg Hr. apply in_bpLookup.
    specialize (HF g Hg). rewrite Forall_forall in HF. exact (HF r Hr).
  - intros Hall g Hg. rewrite Forall_forall. intros r Hr.
    apply in_bpLookup. exact (Hall g r Hg Hr).
Qed.

(** C4, as the code has it. A buildpack that declares a nested order (and
    no stacks) passes the check of [validateBuildpacks] if and only if the
    key id@version of every ref of every group of its nested order is the
    key of a buildpack of the embedded list; the first ref whose key is
    absent gives the "not found on the builder" error with that
    id@version. The keys are concatenated strings: where no id contains
    the separator, the key of a ref is in the list exactly when its id and
    version are those of a buildpack of the list. *)
Theorem validateBuildpacks_nested_order stackID bps bp :
  bp_Order bp <> [] -> Stacks bp = [] ->
  (bp_passes stackID bps bp <->
   forall g r, g ∈ bp_Order bp -> r ∈ Group g -> ref_resolves bps r) /\
  (forall gbefore g gafter rbefore r rafter,
      bp_Order bp = gbefore ++ g :: gafter ->
      Group g = rbefore ++ r :: rafter ->
      Forall (fun g' => Forall (ref_resolves bps) (Group g')) gbefore ->
      Forall (ref_resolves bps) rbefore ->
      ~ ref_resolves bps r ->
      validate_bp stackID (fill_bpLookup bps ∅) bp = Some (err_ref_not_found (bpKey r))) /\
  (bp ∈ bps -> validateBuildpacks stackID bps = None -> bp_passes stackID bps bp) /\
  ((forall bp', bp' ∈ bps -> has_at (ID (Info bp')) = false) ->
   (forall g r, g ∈ bp_Order bp -> r ∈ Group g -> has_at (ID (ref_info r)) = false) ->
   (bp_passes stackID bps bp <->
    forall g r, g ∈ bp_Order bp -> r ∈ Group g -> ref_matches_identity bps r)).
Proof.
  intros Ho Hs.
  pose proof (bp_passes_composite stackID bps bp Ho Hs) as Hiff.
  split; [exact Hiff|]. split; [|split].
  - intros gbefore g gafter rbefore r rafter Horder Hgroup Hgb Hrb Hr.
    rewrite (validate_bp_composite _ _ _ Ho Hs), Horder.
    apply validate_order_first.
    + eapply Forall_impl; [exact Hgb|]. intros g' Hg'. simpl in Hg'.
      eapply Forall_impl; [exact Hg'|]. intros r' Hr'. apply in_bpLookup. exact Hr'.
    + rewrite Hgroup. apply validate_group_first.
      * eapply Forall_impl; [exact Hrb|]. intros r' Hr'. apply in_bpLookup. exact Hr'.
      * intros Hin. apply Hr. apply in_bpLookup. exact Hin.
  - intros Hin Hvalid. unfold validateBuildpacks in Hvalid.
    apply validate_bps_None in Hvalid. rewrite Forall_forall in Hvalid.
    exact (Hvalid bp Hin).
  - intros Hbps Hrefs. rewrite Hiff. split.
    + intros Hall g r Hg Hr. destruct (Hall g r Hg Hr) as (bp' & Hin & Hkey).
      exists bp'. split; [exact Hin|].
      apply bpKey_inj; [exact (Hbps bp' Hin) | exact (Hrefs g r Hg Hr) | exact Hkey].
    + intros Hall g r Hg Hr. destruct (Hall g r Hg Hr) as (bp' & Hin & Hinfo).
      exists bp'. split; [exact Hin|]. rewrite Hinfo. reflexivity.
Qed.

(** [validateBuildpacks_nested_order] at the list of the leaf x@1 and of
    m@1, whose nested order refers to x@1 and to z@2: the ref z@2 is not
    found. *)
Lemma validateBuildpacks_nested_order_witness :
  let x := mkBuildpack (mkInfo "x" "1") [] ["io.buildpacks.stacks.bionic"] empty_blob in
  let rx := mkRef (mkInfo "x" "1") false in
  let rz := mkRef (mkInfo "z" "2") false in
  let m := mkBuildpack (mkInfo "m" "1") [mkEntry [rx; rz]] [] empty_blob in
  validate_bp "io.buildpacks.stacks.bionic" (fill_bpLookup [x; m] ∅) m
  = Some (err_ref_not_found "z@2").
Proof.
  intros x rx rz m.
  assert (Ho : bp_Order m <> []) by discriminate.
  destruct (validateBuildpacks_nested_order "io.buildpacks.stacks.bionic" [x; m] m Ho eq_refl)
    as (_ & Hfirst & _).
  apply (Hfirst [] (mkEntry [rx; rz]) [] [rx] rz [] eq_refl eq_refl).
  - constructor.
  - constructor; [|constructor]. exists x. split; [left|reflexivity].
  - intros (bp' & Hin & Hkey).
    apply elem_of_cons in Hin as [->|Hin]; [discriminate Hkey|].
    apply elem_of_cons in Hin as [->|Hin]; [discriminate Hkey|].
    inversion Hin.
Defined.

(** C4, as stated, fails on ids with the separator: the list of the leaf
    with id a and version b@c and of m@1, whose nested order refers to the
    id a@b at version c, passes, and no buildpack of the list has the id
    and the version of that ref. *)
Lemma validateBuildpacks_key_collision :
  let a := mkBuildpack (mkInfo "a" "b@c") [] ["io.buildpacks.stacks.bionic"] empty_blob in
  let r := mkRef (mkInfo "a@b" "c") false in
  let m := mkBuildpack (mkInfo "m" "1") [mkEntry [r]] [] empty_blob in
  validateBuildpacks "io.buildpacks.stacks.bionic" [a; m] = None /\
  bp_passes "io.buildpacks.stacks.bionic" [a; m] m /\
  ~ (forall g r, g ∈ bp_Order m -> r ∈ Group g -> ref_matches_identity [a; m] r).
Proof.
  intros a r m. split; [vm_compute; reflexivity|]. split; [vm_compute; reflexivity|].
  intros Hall.
  destruct (Hall (mkEntry [r]) r) as (bp' & Hin & Hinfo); [left | left |].
  apply elem_of_cons in Hin as [->|Hin]; [discriminate Hinfo|].
  apply elem_of_cons in Hin as [->|Hin]; [discriminate Hinfo|].
  inversion Hin.
Qed.

(** ** Lifecycle construction *)

Lemma observe_elem rc (seen headers : gset string) name :
  observe rc seen = Ok headers ->
  (name ∈ headers <-> name ∈ seen \/ observed rc name).
Proof.
  revert seen. induction rc as [|e|h content rest IH]; intros seen; simpl.
  - intros [= <-]. split; [auto|]. intros [Hin|(h & Hy & _)]; [exact Hin|inversion Hy].
  - discriminate.
  - destruct (FindStringSubmatch (path.Clean (tar.Name h))) as [binaryName|] eqn:Hm;
      intros Hobs; rewrite (IH _ Hobs); clear IH Hobs.
    + rewrite elem_of_union, elem_of_singleton. split.
      * intros [[->|Hin]|(h' & Hy & Hf)].
        -- right. exists h. split; [constructor|exact Hm].
        -- left. exact Hin.
        -- right. exists h'. split; [constructor; exact Hy|exact Hf].
      * intros [Hin|(h' & Hy & Hf)]; [left; right; exact Hin|].
        inversion Hy; subst.
        -- left. left. congruence.
        -- right. exists h'. auto.
    + split.
      * intros [Hin|(h' & Hy & Hf)]; [left; exact Hin|].
        right. exists h'. split; [constructor; exact Hy|exact Hf].
      * intros [Hin|(h' & Hy & Hf)]; [left; exact Hin|].
        inversion Hy; subst; [congruence|]. right. exists h'. auto.
Qed.

Lemma find_all_Ok binaries (headers : gset string) :
  find_all binaries headers = Ok tt <-> forall p, p ∈ binaries -> p ∈ headers.
Proof.
  induction binaries as [|p rest IH]; simpl.
  - split; [intros _ p Hin; inversion Hin | reflexivity].
  - destruct (decide (p ∈ headers)) as [Hin|Hnin].
    + rewrite IH. split.
      * intros Hall q Hq. apply elem_of_cons in Hq as [->|Hq]; auto.
      * intros Hall q Hq. apply Hall. right. exact Hq.
    + split; [discriminate|]. intros Hall. exfalso. apply Hnin, Hall. left.
Qed.

Lemma find_all_Err binaries (headers : gset string) :
  (exists p, p ∈ binaries /\ p ∉ headers) ->
  exists q, q ∈ binaries /\ (q ∉ headers) /\
            find_all binaries headers = Err (Errorf "did not find '%s' in tar" [Str q]).
Proof.
  induction binaries as [|p rest IH]; simpl; intros (x & Hx & Hnin).
  - inversion Hx.
  - destruct (decide (p ∈ headers)) as [Hin|Hp].
    + apply elem_of_cons in Hx as [->|Hx]; [contradiction|].
      destruct IH as (q & Hq & Hqn & Hfind); [exists x; auto|].
      exists q. split; [right; exact Hq|auto].
    + exists p. split; [left|auto].
Qed.

(** When the blob has a descriptor entry that decodes, and the archive
    reads to its end, [NewLifecycle] succeeds exactly when each of the seven
    required names is observed, under any directory name; when one is not,
    it fails with the error of [validateBinaries] for a required name that
    is not observed. *)
Lemma NewLifecycle_with_descriptor `{Externals} blob rc h buf d headers :
  Open blob = (Some rc, None) ->
  ReadTarEntry rc "lifecycle.toml" = Ok (h, buf) ->
  toml_Decode buf = Ok d ->
  observe rc ∅ = Ok headers ->
  (NewLifecycle blob = Ok (mkLifecycle d blob) <->
   forall p, p ∈ lifecycleBinaries -> observed rc p) /\
  ((exists p, p ∈ lifecycleBinaries /\ ~ observed rc p) ->
   exists q, q ∈ lifecycleBinaries /\ ~ observed rc q /\
     NewLifecycle blob =
       Err (Wrap (Errorf "did not find '%s' in tar" [Str q]) "validating binaries" [])).
Proof.
  intros Hopen Hread Hdecode Hobs.
  assert (Hin : forall p, p ∈ headers <-> observed rc p).
  { intros p. rewrite (observe_elem _ _ _ p Hobs). split; [intros [Hp|Hp]|]; [set_solver| |]; auto. }
  unfold NewLifecycle. rewrite Hopen, Hread, Hdecode. cbn [on_err mbind result_bind].
  unfold validateBinaries. cbn [lc_Blob]. rewrite Hopen, Hobs. cbn [mbind result_bind].
  split.
  - destruct (find_all lifecycleBinaries headers) as [[]| |] eqn:Hfind.
    + split; [|reflexivity]. intros _ p Hp. apply Hin.
      exact (proj1 (find_all_Ok _ _) Hfind p Hp).
    + split; [discriminate|]. intros Hall.
      assert (Hok : find_all lifecycleBinaries headers = Ok tt).
      { apply find_all_Ok. intros p Hp. apply Hin, Hall, Hp. }
      congruence.
    + split; [discriminate|]. intros Hall.
      assert (Hok : find_all lifecycleBinaries headers = Ok tt).
      { apply find_all_Ok. intros p Hp. apply Hin, Hall, Hp. }
      congruence.
  - intros (p & Hp & Hnobs).
    destruct (find_all_Err lifecycleBinaries headers) as (q & Hq & Hqn & Hfind).
    { exists p. split; [exact Hp|]. rewrite Hin. exact Hnobs. }
    exists q. split; [exact Hq|]. split; [rewrite <- Hin; exact Hqn|].
    rewrite Hfind. reflexivity.
Qed.

(** When the blob has no descriptor entry, [NewLifecycle] returns the
    lifecycle with the default descriptor at once: [validateBinaries] is
    not called. *)
Lemma NewLifecycle_without_descriptor `{Externals} blob rc err :
  Open blob = (Some rc, None) ->
  ReadTarEntry rc "lifecycle.toml" = Err err ->
  Cause err = ErrEntryNotExist ->
  NewLifecycle blob = Ok (mkLifecycle DefaultLifecycleDescriptor blob).
Proof.
  intros Hopen Hread Hcause. unfold NewLifecycle. rewrite Hopen, Hread, Hcause. reflexivity.
Qed.

(** C2 at a blob that has no descriptor entry and no exporter:
    [NewLifecycle] accepts it with the default descriptor, although
    [validateBinaries] rejects the lifecycle it returns, naming exporter. *)
Theorem NewLifecycle_default_skips_validateBinaries `{Externals} :
  NewLifecycle blob_without_exporter
  = Ok (mkLifecycle DefaultLifecycleDescriptor blob_without_exporter) /\
  validateBinaries (mkLifecycle DefaultLifecycleDescriptor blob_without_exporter)
  = Err (Errorf "did not find '%s' in tar" [Str "exporter"]).
Proof.
  split.
  - reflexivity.
  - vm_compute. reflexivity.
Qed.

(** ** [Save] runs its plan of stages *)

Section SaveExec.
Context `{Externals}.
Variable w : World.

Lemma exec_app steps1 steps2 :
  exec w (steps1 ++ steps2) =
  match exec w steps1 with
  | (calls1, Ok _) => (calls1 ++ fst (exec w steps2), snd (exec w steps2))
  | (calls1, r) => (calls1, r)
  end.
Proof.
  induction steps1 as [|[r|prepared f] rest IH]; simpl.
  - destruct (exec w steps2); reflexivity.
  - destruct r as [[]| |]; [exact IH|reflexivity|reflexivity].
  - destruct prepared as [op| |]; [|reflexivity|reflexivity].
    destruct (image_call w op); [reflexivity|].
    rewrite IH. destruct (exec w rest) as [calls1 [[]| |]]; reflexivity.
Qed.

Lemma Save_buildpacks_exec tmpDir bps b calls :
  Save_buildpacks w tmpDir bps (b, calls) =
  ((b, calls ++ fst (exec w (map (buildpack_step w b tmpDir) bps))),
   snd (exec w (map (buildpack_step w b tmpDir) bps))).
Proof.
  revert calls. induction bps as [|bp rest IH]; intros calls; simpl.
  - rewrite app_nil_r. reflexivity.
  - unfold mbind, M_bind, get_builder, lift, image. simpl.
    destruct (buildpackLayer w b tmpDir bp) as [[layerTar tw]| |]; simpl;
      [|rewrite app_nil_r; reflexivity|rewrite app_nil_r; reflexivity].
    destruct (image_call w (AddLayer layerTar tw)); simpl; [reflexivity|].
    rewrite IH.
    destruct (exec w (map (buildpack_step w b tmpDir) rest)) as [calls' r]. simpl.
    rewrite <- app_assoc. reflexivity.
Qed.

End SaveExec.

(** [Save] makes the calls of its plan and returns its result. *)
Section SaveRefinesPlan.
Context `{Externals}.
Variable w : World.

Lemma bind_get {B} (f : Builder -> M B) s : (get_builder ≫= f) s = f (fst s) s.
Proof. reflexivity. Qed.

Lemma bind_put {B} (f : unit -> M B) b s : (put_builder b ≫= f) s = f tt (b, snd s).
Proof. reflexivity. Qed.

Lemma bind_lift {A B} (r : result A) (f : A -> M B) s :
  (lift r ≫= f) s =
  match r with
  | Ok a => f a s
  | Err e => (s, Err e)
  | Panic => (s, Panic)
  end.
Proof. unfold mbind, M_bind, lift. destruct r; reflexivity. Qed.

Lemma run_image g op s :
  image w g op s =
  ((fst s, snd s ++ [op]),
   match image_call w op with
   | None => Ok tt
   | Some e => Err (g e)
   end).
Proof. unfold image. destruct (image_call w op); reflexivity. Qed.

Lemma bind_image {B} g op (f : unit -> M B) s :
  (image w g op ≫= f) s =
  match image_call w op with
  | None => f tt (fst s, snd s ++ [op])
  | Some e => ((fst s, snd s ++ [op]), Err (g e))
  end.
Proof. unfold mbind, M_bind, image. destruct (image_call w op); reflexivity. Qed.

Lemma bind_bind {A B C} (m : M A) (f : A -> M B) (g : B -> M C) s :
  ((m ≫= f) ≫= g) s = (m ≫= (fun a => f a ≫= g)) s.
Proof.
  unfold mbind, M_bind. destruct (m s) as [s' [a| |]]; reflexivity.
Qed.

Lemma bind_ret {A B} (a : A) (f : A -> M B) s : (mret a ≫= f) s = f a s.
Proof. reflexivity. Qed.

Ltac builder_simpl :=
  cbn [b_lifecycle additionalBuildpacks metadata env UID GID StackID replaceOrder order
       set_order set_metadata fst snd app].

Ltac step :=
  first [ rewrite bind_get | rewrite bind_put | rewrite bind_ret | rewrite bind_bind ];
  builder_simpl.

Ltac case_result :=
  match goal with
  | |- context [match ?r with Ok _ => _ | Err _ => _ | Panic => _ end] =>
      lazymatch r with
      | context [exec] => fail
      | _ => destruct r as [?a|?e|]
      end
  end.

Ltac case_call :=
  match goal with
  | |- context [image_call w ?op] => destruct (image_call w op) as [?e|]
  end.

Ltac leaf :=
  cbn [exec fst snd app layer_call label_call];
  try (split;
       [ first [ reflexivity | rewrite <- ?app_assoc, ?app_nil_r; cbn [app]; reflexivity ]
       | first [ discriminate | intros _; reflexivity ] ]).

Ltac lift_stage := rewrite ?bind_bind; rewrite bind_lift; cbn [app exec layer_call label_call]; case_result; leaf.
Ltac call_stage := rewrite ?bind_bind; rewrite bind_image; cbn [app exec layer_call label_call]; case_call; leaf.

Ltac marshal_stage :=
  rewrite ?bind_bind; rewrite bind_lift; cbn [app exec layer_call]; unfold label_call;
  destruct (on_err _ (json_Marshal _)) as [label|e|]; leaf.

Ltac loop_and_tail b :=
  rewrite ?bind_bind; cbn [app];
  unfold mbind at 1; unfold M_bind at 1; rewrite Save_buildpacks_exec;
  rewrite exec_app;
  destruct (exec w (map _ (additionalBuildpacks b))) as [calls [[]|e|]]; leaf; [];
  destruct (replaceOrder b);
    [ lift_stage; []; call_stage; [] | rewrite ?bind_bind; step ];
    (lift_stage; []; call_stage; []; marshal_stage; []; call_stage; []; call_stage; [];
     rewrite run_image; cbn [exec fst snd app];
     case_call; leaf).

Lemma Save_exec b :
  let '((b', calls), r) := Save_M w (b, []) in
  (calls, r) = exec w (Save_plan w b) /\ (r = Ok tt -> b' = b_composed b).
Proof.
  unfold Save_M, Save_plan, b_composed, b_processed, b_resolved, tmpDir_of. cbv zeta.
  builder_simpl. cbn [exec].
  step. step.
  lift_stage; []. step.
  lift_stage; []. lift_stage; [].
  rewrite bind_lift. cbn [mbind result_bind]. case_result; leaf; [].
  lift_stage; []. call_stage; []. lift_stage; []. call_stage; [].
  cbn [mbind result_bind].
  destruct (b_lifecycle b) as [l|].
  - rewrite ?bind_bind. step. lift_stage; []. call_stage; []. step.
    loop_and_tail b.
  - step. step. loop_and_tail b.
Qed.

End SaveRefinesPlan.

(** ** The sequence of calls of [Save] *)

Lemma bind_Ok {A B : Type} (r : result A) (k : A -> result B) (v : B) :
  r ≫= k = Ok v -> exists a, r = Ok a /\ k a = Ok v.
Proof. destruct r as [a| |]; simpl; [eauto|discriminate|discriminate]. Qed.

Lemma on_err_Ok {A : Type} (f : error -> error) (r : result A) (a : A) :
  on_err f r = Ok a -> r = Ok a.
Proof. destruct r; simpl; [auto|discriminate|discriminate]. Qed.

Ltac invert_binds :=
  repeat match goal with
         | Hbind : _ ≫= _ = Ok _ |- _ =>
             let a := fresh "a" in
             let Ha := fresh "Ha" in
             apply bind_Ok in Hbind as (a & Ha & Hbind)
         end.

Section Sequence.
Context `{Externals}.
Variable w : World.

Lemma defaultDirsLayer_path b dest l :
  defaultDirsLayer w b dest = Ok l -> fst l = filepath_Join [dest; "dirs.tar"].
Proof.
  unfold defaultDirsLayer. intros Hl. invert_binds. injection Hl as <-. reflexivity.
Qed.

Lemma envLayer_path b dest e l :
  envLayer w b dest e = Ok l -> fst l = filepath_Join [dest; "env.tar"].
Proof.
  unfold envLayer. intros Hl. invert_binds. injection Hl as <-. reflexivity.
Qed.

Lemma lifecycleLayer_path lc dest l :
  lifecycleLayer w lc dest = Ok l -> fst l = filepath_Join [dest; "lifecycle.tar"].
Proof.
  unfold lifecycleLayer. intros Hl. invert_binds. injection Hl as <-. reflexivity.
Qed.

Lemma buildpackLayer_path b dest bp l :
  buildpackLayer w b dest bp = Ok l -> fst l = buildpack_layerTar dest bp.
Proof.
  unfold buildpackLayer. intros Hl. invert_binds. injection Hl as <-. reflexivity.
Qed.

Lemma orderLayer_path b dest l :
  orderLayer w b dest = Ok l -> fst l = filepath_Join [dest; "order.tar"].
Proof.
  unfold orderLayer. intros Hl. invert_binds. injection Hl as <-. reflexivity.
Qed.

Lemma stackLayer_path b dest l :
  stackLayer w b dest = Ok l -> fst l = filepath_Join [dest; "stack.tar"].
Proof.
  unfold stackLayer. intros Hl. invert_binds. injection Hl as <-. reflexivity.
Qed.

Lemma plan_kinds_app steps1 ks1 steps2 ks2 :
  plan_kinds steps1 ks1 -> plan_kinds steps2 ks2 ->
  plan_kinds (steps1 ++ steps2) (ks1 ++ ks2).
Proof.
  intros Hplan1 Hplan2. induction Hplan1; simpl; [exact Hplan2| |]; constructor; auto.
Qed.

Lemma layer_call_kind (layer : result (string * tar.Written)) (p : string) :
  (forall l, layer = Ok l -> fst l = p) ->
  forall op, layer_call layer = Ok op -> kind op = KAddLayer p.
Proof.
  intros Hp op. destruct layer as [l| |]; simpl; [|discriminate|discriminate].
  intros [= <-]. simpl. f_equal. apply Hp. reflexivity.
Qed.

Lemma Carries_Wrap f a e : Carries (Wrap e f a) e.
Proof. constructor. constructor. Qed.

Lemma exec_outcome steps ks :
  plan_kinds steps ks ->
  map kind (fst (exec w steps)) `prefix_of` ks /\
  (snd (exec w steps) = Ok tt ->
   map kind (fst (exec w steps)) = ks /\ Forall (succeeded w) (fst (exec w steps))) /\
  (forall op e,
      op ∈ fst (exec w steps) -> image_call w op = Some e ->
      last (fst (exec w steps)) = Some op /\
      exists e', snd (exec w steps) = Err e' /\ Carries e' e).
Proof.
  induction 1 as [|r steps ks Hplan IH|prepared f k steps ks Hkind Hf Hplan IH]; simpl.
  - split; [reflexivity|]. split; [intros _; split; [reflexivity|constructor]|].
    intros op e Hin. inversion Hin.
  - destruct r as [[]|e0|]; [exact IH| |]; simpl;
      (split; [apply prefix_nil|]; split; [discriminate|]; intros op e Hin; inversion Hin).
  - destruct prepared as [op0|e0|]; simpl.
    + specialize (Hkind op0 eq_refl).
      destruct (image_call w op0) as [e0|] eqn:Hcall; simpl.
      * split; [rewrite Hkind; apply prefix_cons, prefix_nil|].
        split; [discriminate|]. intros op e Hin Hop.
        apply list_elem_of_singleton in Hin. subst op.
        split; [reflexivity|]. exists (f e0). split; [reflexivity|].
        assert (e = e0) by congruence. subst e. apply Hf.
      * destruct IH as (Hpre & Hok & Hfail).
        destruct (exec w steps) as [calls r]. simpl in *.
        split; [rewrite Hkind; apply prefix_cons; exact Hpre|].
        split.
        -- intros Hr. destruct (Hok Hr) as [Hks Hall]. split; [congruence|].
           constructor; assumption.
        -- intros op e Hin Hop. apply elem_of_cons in Hin as [->|Hin]; [congruence|].
           destruct (Hfail op e Hin Hop) as [Hlast Hr]. split; [|exact Hr].
           destruct calls; [inversion Hin|exact Hlast].
    + split; [apply prefix_nil|]. split; [discriminate|]. intros op e Hin; inversion Hin.
    + split; [apply prefix_nil|]. split; [discriminate|]. intros op e Hin; inversion Hin.
Qed.

End Sequence.

Section SaveSequence.
Context `{Externals}.
Variable w : World.

Lemma Save_calls b :
  snd (fst (Save w b)) = fst (exec w (Save_plan w b)) /\
  snd (Save w b) = snd (exec w (Save_plan w b)).
Proof.
  pose proof (Save_exec w b) as Hexec. unfold Save.
  destruct (Save_M w (b, [])) as [[b' calls] r]. cbv beta iota in Hexec.
  destruct Hexec as [Hexec _]. cbn [fst snd]. rewrite <- Hexec. split; reflexivity.
Qed.

Lemma Save_plan_commit b :
  Save_plan w b = Save_plan_before_commit w b ++ [Call (Ok ImageSave) (fun err => err)].
Proof.
  unfold Save_plan_before_commit.
  assert (Hlast : exists init, Save_plan w b = init ++ [Call (Ok ImageSave) (fun err => err)]).
  { unfold Save_plan. cbv zeta.
    match goal with
    | |- exists init, ?p ++ ?l ++ ?bps ++ ?o ++ [?s; ?m; ?d; ?c] = _ =>
        exists (p ++ l ++ bps ++ o ++ [s; m; d])
    end.
    rewrite <- !app_assoc. reflexivity. }
  destruct Hlast as [init ->]. rewrite removelast_last. reflexivity.
Qed.

Lemma Save_plan_before_commit_kinds b :
  plan_kinds (Save_plan_before_commit w b)
             (expected_layers w b ++ [KSetLabel MetadataLabel; KSetWorkingDir layersDir]).
Proof.
  assert (Heq : Save_plan_before_commit w b ++ [Call (Ok ImageSave) (fun err => err)] =
                Save_plan w b) by (symmetry; apply Save_plan_commit).
  unfold Save_plan in Heq. cbv zeta in Heq.
  match type of Heq with
  | _ = ?p ++ ?l ++ ?bps ++ ?o ++ [?s; ?m; ?d; ?c] =>
      assert (Hinit : Save_plan_before_commit w b = p ++ l ++ bps ++ o ++ [s; m; d])
        by (refine (proj1 (app_inj_tail _ _ c c _)); rewrite Heq, <- !app_assoc; reflexivity)
  end.
  rewrite Hinit. unfold expected_layers. cbv zeta.
  rewrite <- !app_assoc.
  apply plan_kinds_app; [|apply plan_kinds_app; [|apply plan_kinds_app; [|apply plan_kinds_app]]].
  - repeat apply plan_check.
    apply plan_call;
      [apply layer_call_kind; intros l; apply defaultDirsLayer_path | intros; apply Carries_Wrap |].
    apply plan_call;
      [apply layer_call_kind; intros l; apply envLayer_path | intros; apply Carries_Wrap |].
    constructor.
  - destruct (b_lifecycle b) as [lc|]; [|constructor].
    apply plan_call;
      [apply layer_call_kind; intros l; apply lifecycleLayer_path | intros; apply Carries_Wrap |].
    constructor.
  - clear Heq Hinit. generalize (additionalBuildpacks b) as bps.
    induction bps as [|bp rest IH]; simpl; [constructor|].
    apply plan_call;
      [apply layer_call_kind; intros l; apply buildpackLayer_path | intros; apply Carries_Wrap |].
    exact IH.
  - destruct (replaceOrder b); [|constructor].
    apply plan_call;
      [apply layer_call_kind; intros l; apply orderLayer_path | intros; apply Carries_Wrap |].
    constructor.
  - apply plan_call;
      [apply layer_call_kind; intros l; apply stackLayer_path | intros; apply Carries_Wrap |].
    apply plan_call.
    + intros op. unfold label_call.
      destruct (on_err _ (json_Marshal _)); [|discriminate|discriminate].
      intros [= <-]. reflexivity.
    + intros; apply Carries_Wrap.
    + apply plan_call; [intros op [= <-]; reflexivity | intros; apply Carries_Wrap | constructor].
Qed.

Lemma Save_plan_kinds b : plan_kinds (Save_plan w b) (expected_sequence w b).
Proof.
  rewrite Save_plan_commit. unfold expected_sequence.
  replace (expected_layers w b ++ [KSetLabel MetadataLabel; KSetWorkingDir layersDir; KSave])
    with ((expected_layers w b ++ [KSetLabel MetadataLabel; KSetWorkingDir layersDir]) ++ [KSave])
    by (rewrite <- app_assoc; reflexivity).
  apply plan_kinds_app; [apply Save_plan_before_commit_kinds|].
  apply plan_call; [intros op [= <-]; reflexivity | intros; constructor | constructor].
Qed.

Lemma expected_layers_no_commit b :
  KSave ∉ expected_layers w b ++ [KSetLabel MetadataLabel; KSetWorkingDir layersDir].
Proof.
  unfold expected_layers. cbv zeta. rewrite !elem_of_app, list_elem_of_fmap.
  intros [[Hin|[Hin|[Hin|[Hin|Hin]]]]|Hin].
  - repeat (apply elem_of_cons in Hin as [Hin|Hin]; [discriminate|]). inversion Hin.
  - destruct (b_lifecycle b);
      repeat (apply elem_of_cons in Hin as [Hin|Hin]; [discriminate|]); inversion Hin.
  - destruct Hin as (bp & Hbp & _). discriminate.
  - destruct (replaceOrder b);
      repeat (apply elem_of_cons in Hin as [Hin|Hin]; [discriminate|]); inversion Hin.
  - repeat (apply elem_of_cons in Hin as [Hin|Hin]; [discriminate|]). inversion Hin.
  - repeat (apply elem_of_cons in Hin as [Hin|Hin]; [discriminate|]). inversion Hin.
Qed.

(** When [Save] fails and the commit was invoked, it is the commit that
    failed. *)
Lemma Save_commit_last b :
  snd (Save w b) <> Ok tt -> ImageSave ∈ snd (fst (Save w b)) ->
  exists e, image_call w ImageSave = Some e /\ snd (Save w b) = Err e /\
            last (snd (fst (Save w b))) = Some ImageSave.
Proof.
  destruct (Save_calls b) as [-> ->]. rewrite Save_plan_commit, exec_app.
  pose proof (exec_outcome w _ _ (Save_plan_before_commit_kinds b)) as (Hpre & _ & _).
  assert (Hno : ImageSave ∉ fst (exec w (Save_plan_before_commit w b))).
  { intros Hin. apply (expected_layers_no_commit b).
    destruct Hpre as [rest ->]. apply elem_of_app. left.
    apply list_elem_of_fmap. exists ImageSave. split; [reflexivity|exact Hin]. }
  destruct (exec w (Save_plan_before_commit w b)) as [calls [[]|e|]]; simpl in *.
  - destruct (image_call w ImageSave) as [e|]; simpl.
    + intros _ _. exists e. split; [reflexivity|]. split; [reflexivity|]. apply last_snoc.
    + intros Hr. contradiction.
  - intros _ Hin. contradiction.
  - intros _ Hin. contradiction.
Qed.

End SaveSequence.

(** The first stage that does not succeed ends the run: its call, if it
    makes one, is the last call, and its result is the result. *)
Lemma exec_first_failure (w : World) before s after calls0 :
  exec w before = (calls0, Ok tt) ->
  stage_result w s <> Ok tt ->
  exec w (before ++ s :: after) = (calls0 ++ stage_calls s, stage_result w s).
Proof.
  intros Hbefore Hs. rewrite exec_app, Hbefore.
  destruct s as [r|prepared f]; simpl in *.
  - destruct r as [[]| |]; [contradiction| |]; simpl; rewrite app_nil_r; reflexivity.
  - destruct prepared as [op| |]; simpl; [|rewrite app_nil_r; reflexivity..].
    destruct (image_call w op); simpl in *; [reflexivity|contradiction].
Qed.

(** C6. The calls of [Save] on the image.
    - When [Save] succeeds the calls are exactly: the layers in the fixed
      order (directories, environment, lifecycle when one is set, one per
      pending buildpack in registration order, order when it was replaced,
      stack), the metadata label, the working directory, the commit; and
      every call succeeded.
    - In every run the calls are a prefix of that sequence.
    - The first stage that fails ends the run with its error (wrapped with
      the stage's context where the code wraps it): no stage after it
      runs.
    - A call that fails on the image is the last call, and [Save] returns
      an error that carries its error.
    - When [Save] does not succeed, the commit was not invoked, unless it
      is the commit itself that failed.
    - An error of order resolution or of buildpack validation is returned
      before any call on the image. *)
Theorem Save_call_sequence `{Externals} (w : World) (b : Builder) :
  let calls := snd (fst (Save w b)) in
  let r := snd (Save w b) in
  (r = Ok tt -> map kind calls = expected_sequence w b /\ Forall (succeeded w) calls) /\
  map kind calls `prefix_of` expected_sequence w b /\
  (forall before s after calls0,
      Save_plan w b = before ++ s :: after ->
      exec w before = (calls0, Ok tt) ->
      stage_result w s <> Ok tt ->
      calls = calls0 ++ stage_calls s /\ r = stage_result w s) /\
  (forall op e,
      op ∈ calls -> image_call w op = Some e ->
      last calls = Some op /\ exists e', r = Err e' /\ Carries e' e) /\
  (r <> Ok tt -> ImageSave ∈ calls ->
   exists e, image_call w ImageSave = Some e /\ r = Err e /\ last calls = Some ImageSave) /\
  (forall e, snd (processOrder (Buildpacks (metadata b)) (order b)) = Some e ->
             calls = [] /\ r = Err (Wrap e "processing order" [])) /\
  (forall e, validateBuildpacks (StackID b) (additionalBuildpacks b) = Some e ->
             calls = [] /\ exists e', r = Err e').
Proof.
  intros calls r. subst calls r.
  pose proof (Save_commit_last w b) as Hcommit.
  destruct (Save_calls w b) as [Hcalls Hr]. rewrite Hcalls, Hr in *. clear Hcalls Hr.
  pose proof (exec_outcome w _ _ (Save_plan_kinds w b)) as (Hprefix & Hok & Hfail).
  split; [exact Hok|]. split; [exact Hprefix|].
  split; [|split; [exact Hfail|split; [exact Hcommit|split]]].
  - intros before s after calls0 Hplan Hbefore Hs.
    rewrite Hplan, (exec_first_failure w _ _ after _ Hbefore Hs). auto.
  - intros e He. unfold Save_plan. cbv zeta. cbn [app exec].
    rewrite He. simpl. auto.
  - intros e He. unfold Save_plan. cbv zeta. cbn [app exec].
    rewrite He.
    destruct (snd (processOrder _ _)) as [e1|]; simpl; [eauto|].
    destruct (snd (processMetadata _)) as [e2|]; simpl; eauto.
Qed.

(** [Save_call_sequence] at the sample builder with a lifecycle 0.4.0, in
    the world in which no call fails. *)
Lemma Save_call_sequence_witness :
  let b := sample_builder (Some (sample_lifecycle semver.v0_4_0)) None in
  snd (@Save sample_externals quiet_world b) = Ok tt /\
  map kind (snd (fst (@Save sample_externals quiet_world b))) =
    [ KAddLayer "/tmp/create-builder-scratch/dirs.tar";
      KAddLayer "/tmp/create-builder-scratch/env.tar";
      KAddLayer "/tmp/create-builder-scratch/lifecycle.tar";
      KAddLayer "/tmp/create-builder-scratch/y.1.0.tar";
      KAddLayer "/tmp/create-builder-scratch/order.tar";
      KAddLayer "/tmp/create-builder-scratch/stack.tar";
      KSetLabel "io.buildpacks.builder.metadata";
      KSetWorkingDir "/layers";
      KSave ].
Proof.
  intros b.
  assert (Hr : snd (@Save sample_externals quiet_world b) = Ok tt) by (vm_compute; reflexivity).
  split; [exact Hr|].
  destruct (@Save_call_sequence sample_externals quiet_world b) as (Hok & _).
  destruct (Hok Hr) as [Hkinds _]. rewrite Hkinds. vm_compute. reflexivity.
Defined.

(** ** The compatibility pivot 0.4.0 *)

Lemma LessThan_0_4_0 (cmp : string -> string -> Z) (v : semver.Version) :
  semver.LessThan cmp v semver.v0_4_0 = true <-> precedes_0_4_0 v.
Proof.
  unfold semver.LessThan, semver.Compare, semver.compareSegment, precedes_0_4_0.
  cbn [semver.major semver.minor semver.patch semver.pre semver.v0_4_0].
  destruct (Z.ltb_spec (semver.major v) 0); cbn; [split; [auto|reflexivity]|].
  destruct (Z.ltb_spec 0 (semver.major v)); cbn; [split; [discriminate|lia]|].
  destruct (Z.ltb_spec (semver.minor v) 4); cbn; [split; [intros _; lia|reflexivity]|].
  destruct (Z.ltb_spec 4 (semver.minor v)); cbn; [split; [discriminate|lia]|].
  destruct (Z.ltb_spec (semver.patch v) 0); cbn; [split; [intros _; lia|reflexivity]|].
  destruct (Z.ltb_spec 0 (semver.patch v)); cbn; [split; [discriminate|lia]|].
  destruct (String.eqb_spec (semver.pre v) "") as [Hpre|Hpre]; cbn.
  - split; [discriminate|]. intros [?|[?|[?|(_ & _ & _ & Hne)]]]; [lia..|contradiction].
  - split; [intros _|reflexivity]. right. right. right. repeat split; [lia..|exact Hpre].
Qed.

Section Pivot.
Context `{Externals}.
Variable w : World.

Lemma check_Ok (err : option error) (u : unit) : check err = Ok u <-> err = None.
Proof. destruct err, u; simpl; split; congruence. Qed.

Lemma WriteHeader_Ok tw h tw' :
  WriteHeader w tw h = Ok tw' <-> tw_WriteHeader w h = None /\ tw' = tw ++ [(h, "")].
Proof.
  unfold WriteHeader. destruct (tw_WriteHeader w h); split.
  - discriminate.
  - intros [Hn _]. discriminate.
  - intros [= <-]. auto.
  - intros [_ ->]. reflexivity.
Qed.

(** The order layer, when it is produced, is the one file
    /buildpacks/order.toml with the encoded document, and it is produced
    when the encoding and the archive creation succeed. *)
Lemma orderLayer_Ok b dest l :
  orderLayer w b dest = Ok l <->
  exists buf,
    toml_Encode (orderLayer_tomlData b) = Ok buf /\
    archive_CreateSingleFileTar w (filepath_Join [dest; "order.tar"]) = None /\
    l = (filepath_Join [dest; "order.tar"], single_file "/buildpacks/order.toml" buf).
Proof.
  unfold orderLayer, CreateSingleFileTar. split.
  - intros Hl. invert_binds. apply on_err_Ok in Ha. apply on_err_Ok in Ha0.
    invert_binds. apply check_Ok in Ha1. injection Ha0 as <-. injection Hl as <-.
    exists a. auto.
  - intros (buf & Henc & Hcreate & ->). rewrite Henc, Hcreate. reflexivity.
Qed.

(** The buildpack layer, when it is produced, is the two directories and
    the entries embedded from the blob, and before 0.4.0 only what
    [symlinkLatest] adds to them; and it is produced when its writes
    succeed. *)
Lemma buildpackLayer_Ok b dest bp l :
  let baseTarDir := path.Join [buildpacksDir; EscapedID bp; Version (Info bp)] in
  buildpackLayer w b dest bp = Ok l <->
  os_Create w (buildpack_layerTar dest bp) = None /\
  Forall (fun entry => tw_WriteHeader w (fst entry) = None) (buildpack_dirs w bp) /\
  exists tw,
    embedBuildpackTar w b (buildpack_dirs w bp) bp baseTarDir = Ok tw /\
    if lifecycle_before_0_4_0 b
    then exists tw', symlinkLatest w tw baseTarDir bp (metadata b) = Ok tw' /\
                     l = (buildpack_layerTar dest bp, tw')
    else l = (buildpack_layerTar dest bp, tw).
Proof.
  intros baseTarDir. unfold buildpackLayer. fold baseTarDir.
  fold (buildpack_layerTar dest bp). split.
  - intros Hl. invert_binds. injection Hl as <-.
    apply on_err_Ok, check_Ok in Ha. apply on_err_Ok in Ha2.
    apply WriteHeader_Ok in Ha0 as [Hh1 ->]. apply WriteHeader_Ok in Ha1 as [Hh2 ->].
    split; [exact Ha|]. split; [repeat constructor; assumption|].
    exists a2. split; [exact Ha2|].
    destruct (lifecycle_before_0_4_0 b).
    + exists a3. auto.
    + injection Ha3 as <-. reflexivity.
  - intros (Hcreate & Hdirs & tw & Hembed & Hlink).
    unfold buildpack_dirs in Hdirs. fold baseTarDir in Hdirs.
    apply Forall_cons in Hdirs as [Hh1 Hdirs]. apply Forall_cons in Hdirs as [Hh2 _].
    cbn [fst] in Hh1, Hh2. cbv zeta. rewrite Hcreate. cbn [check on_err mbind result_bind].
    rewrite (proj2 (WriteHeader_Ok _ _ _) (conj Hh1 eq_refl)). cbn [mbind result_bind].
    rewrite (proj2 (WriteHeader_Ok _ _ _) (conj Hh2 eq_refl)). cbn [mbind result_bind app].
    unfold buildpack_dirs in Hembed. fold baseTarDir in Hembed. rewrite Hembed.
    cbn [on_err mbind result_bind].
    destruct (lifecycle_before_0_4_0 b).
    + destruct Hlink as (tw' & -> & ->). reflexivity.
    + rewrite Hlink. reflexivity.
Qed.

End Pivot.

(** C5. For a builder whose metadata records the lifecycle version [v],
    the pivot is the semantic version 0.4.0.
    - When [v] precedes 0.4.0, the order layer encodes the legacy document
      (the bare groups of the metadata) and a buildpack layer is the
      embedded entries followed by what [symlinkLatest] writes: with the
      [symlinkLatest] of the spec, the "latest" symlink to the version
      directory.
    - When [v] does not precede 0.4.0 (0.4.0 itself included), the order
      layer encodes the current document (the order under its [order] key)
      and a buildpack layer is the embedded entries alone.
    - The order layer is the file /buildpacks/order.toml with that
      document. *)
Theorem lifecycle_0_4_0_pivot `{Externals} (w : World) (b : Builder) (v : semver.Version) :
  GetLifecycleVersion b = Some v ->
  (precedes_0_4_0 v ->
   orderLayer_tomlData b = v1OrderTOML (Groups (metadata b)) /\
   forall dest bp l,
     let baseTarDir := path.Join [buildpacksDir; EscapedID bp; Version (Info bp)] in
     buildpackLayer w b dest bp = Ok l ->
     exists tw,
       embedBuildpackTar w b (buildpack_dirs w bp) bp baseTarDir = Ok tw /\
       symlinkLatest w tw baseTarDir bp (metadata b) = Ok (snd l) /\
       (symlinkLatest w tw baseTarDir bp (metadata b) =
          symlinkLatest_spec EscapedID w tw baseTarDir bp (metadata b) ->
        snd l = tw ++ [(latest_symlink (EscapedID bp) baseTarDir, "")])) /\
  (~ precedes_0_4_0 v ->
   orderLayer_tomlData b = orderTOML (order b) /\
   forall dest bp l,
     let baseTarDir := path.Join [buildpacksDir; EscapedID bp; Version (Info bp)] in
     buildpackLayer w b dest bp = Ok l ->
     embedBuildpackTar w b (buildpack_dirs w bp) bp baseTarDir = Ok (snd l)) /\
  (forall dest l,
      orderLayer w b dest = Ok l ->
      exists buf, toml_Encode (orderLayer_tomlData b) = Ok buf /\
                  snd l = single_file "/buildpacks/order.toml" buf) /\
  ~ precedes_0_4_0 semver.v0_4_0 /\
  precedes_0_4_0 (semver.mkVersion 0 3 9 "" "").
Proof.
  intros Hv.
  assert (Hgate : lifecycle_before_0_4_0 b = true <-> precedes_0_4_0 v).
  { unfold lifecycle_before_0_4_0. rewrite Hv. apply LessThan_0_4_0. }
  split; [|split; [|split; [|split]]].
  - intros Hpre. apply Hgate in Hpre. unfold orderLayer_tomlData. rewrite Hpre.
    split; [reflexivity|]. intros dest bp l Hl.
    apply buildpackLayer_Ok in Hl as (_ & _ & tw & Hembed & Hlink).
    rewrite Hpre in Hlink. destruct Hlink as (tw' & Hlink & ->).
    exists tw. split; [exact Hembed|]. split; [exact Hlink|].
    intros Hspec. rewrite Hspec in Hlink. unfold symlinkLatest_spec in Hlink.
    apply WriteHeader_Ok in Hlink as [_ ->]. reflexivity.
  - intros Hpre.
    assert (Hmodern : lifecycle_before_0_4_0 b = false).
    { apply not_true_is_false. rewrite Hgate. exact Hpre. }
    unfold orderLayer_tomlData. rewrite Hmodern.
    split; [reflexivity|]. intros dest bp l Hl.
    apply buildpackLayer_Ok in Hl as (_ & _ & tw & Hembed & Hlink).
    rewrite Hmodern in Hlink. subst l. exact Hembed.
  - intros dest l Hl. apply orderLayer_Ok in Hl as (buf & Henc & _ & ->).
    exists buf. auto.
  - intros Hp. unfold precedes_0_4_0 in Hp. cbn in Hp.
    destruct Hp as [?|[?|[?|(_ & _ & _ & Hne)]]]; [lia..|]. apply Hne. reflexivity.
  - unfold precedes_0_4_0. cbn. right. left. lia.
Qed.

(** [lifecycle_0_4_0_pivot] at the sample builder with the recorded
    versions 0.3.9 and 0.4.0. *)
Lemma lifecycle_0_4_0_pivot_witness :
  let legacy := sample_builder None (Some (semver.mkVersion 0 3 9 "" "")) in
  let current := sample_builder None (Some semver.v0_4_0) in
  let base := "/buildpacks/y/1.0" in
  @orderLayer_tomlData sample_externals legacy = v1OrderTOML (Groups (metadata legacy)) /\
  (exists l, @buildpackLayer sample_externals quiet_world legacy "/tmp" sample_buildpack = Ok l /\
             last (snd l) = Some (latest_symlink "y" base, "")) /\
  @orderLayer_tomlData sample_externals current = orderTOML (order current).
Proof.
  intros legacy current base.
  destruct (@lifecycle_0_4_0_pivot sample_externals quiet_world legacy
              (semver.mkVersion 0 3 9 "" "") eq_refl) as (Hlegacy & _ & _ & _ & H039).
  destruct (@lifecycle_0_4_0_pivot sample_externals quiet_world current
              semver.v0_4_0 eq_refl) as (_ & Hcurrent & _ & H040 & _).
  destruct (Hlegacy H039) as [Hdoc Hlayer]. destruct (Hcurrent H040) as [Hdoc' _].
  split; [exact Hdoc|]. split; [|exact Hdoc'].
  destruct (@buildpackLayer sample_externals quiet_world legacy "/tmp" sample_buildpack)
    as [l| |] eqn:Hl; [|vm_compute in Hl; discriminate Hl..].
  exists l. split; [reflexivity|].
  destruct (Hlayer "/tmp" sample_buildpack l Hl) as (tw & _ & _ & Hspec).
  rewrite (Hspec eq_refl). rewrite last_snoc. reflexivity.
Defined.

(** ** Where the calls of [Save] come from *)

Section Origin.
Context `{Externals}.
Variable w : World.

Lemma Save_final_builder b :
  snd (Save w b) = Ok tt -> fst (fst (Save w b)) = b_composed b.
Proof.
  pose proof (Save_exec w b) as Hexec. unfold Save.
  destruct (Save_M w (b, [])) as [[b' calls] r]. cbv beta iota in Hexec.
  destruct Hexec as [_ Hb]. exact Hb.
Qed.

(** A call that is made was prepared by a stage. *)
Lemma exec_calls_origin steps op :
  op ∈ fst (exec w steps) -> exists f, Call (Ok op) f ∈ steps.
Proof.
  induction steps as [|[r|prepared f] rest IH]; simpl.
  - intros Hin. inversion Hin.
  - destruct r as [[]| |]; simpl; [|intros Hin; inversion Hin..].
    intros Hin. destruct (IH Hin) as [f Hf]. exists f. right. exact Hf.
  - destruct prepared as [op0| |]; simpl; [|intros Hin; inversion Hin..].
    destruct (image_call w op0); simpl.
    + intros Hin. apply list_elem_of_singleton in Hin as ->. exists f. left.
    + destruct (exec w rest) as [calls r]. simpl in *. intros Hin.
      apply elem_of_cons in Hin as [->|Hin]; [exists f; left|].
      destruct (IH Hin) as [g Hg]. exists g. right. exact Hg.
Qed.

(** When the run succeeds, every stage succeeded and every prepared call
    was made. *)
Lemma exec_Ok_steps steps :
  snd (exec w steps) = Ok tt ->
  forall prepared f, Call prepared f ∈ steps ->
    exists op, prepared = Ok op /\ op ∈ fst (exec w steps).
Proof.
  induction steps as [|[r|prepared0 f0] rest IH]; simpl.
  - intros _ prepared f Hin. inversion Hin.
  - destruct r as [[]| |]; simpl; [|discriminate..].
    intros Hr prepared f Hin. apply elem_of_cons in Hin as [Heq|Hin]; [discriminate|].
    exact (IH Hr prepared f Hin).
  - destruct prepared0 as [op0| |]; simpl; [|discriminate..].
    destruct (image_call w op0); simpl; [discriminate|].
    destruct (exec w rest) as [calls r]. simpl in *.
    intros Hr prepared f Hin. apply elem_of_cons in Hin as [Heq|Hin].
    + injection Heq as -> _. exists op0. split; [reflexivity|left].
    + destruct (IH Hr prepared f Hin) as (op & Hop & Hcalls).
      exists op. split; [exact Hop|right; exact Hcalls].
Qed.

Lemma Save_plan_origin b op f :
  Call (Ok op) f ∈ Save_plan w b -> call_origin w b op.
Proof.
  unfold Save_plan, call_origin. cbv zeta. rewrite !elem_of_app, list_elem_of_fmap.
  intros [Hin|[Hin|[Hin|[Hin|Hin]]]].
  - repeat (apply elem_of_cons in Hin as [Hin|Hin]; [try discriminate Hin|]);
      [| |inversion Hin].
    + injection Hin as Hop _. left. auto.
    + injection Hin as Hop _. right. left. auto.
  - destruct (b_lifecycle b) as [l|]; [|inversion Hin].
    apply list_elem_of_singleton in Hin. injection Hin as Hop _.
    right. right. left. exists l. auto.
  - destruct Hin as (bp & Hstep & Hbp). injection Hstep as Hop _.
    right. right. right. left. exists bp. auto.
  - destruct (replaceOrder b); [|inversion Hin].
    apply list_elem_of_singleton in Hin. injection Hin as Hop _.
    right. right. right. right. left. auto.
  - repeat (apply elem_of_cons in Hin as [Hin|Hin]; [injection Hin as Hop _|]);
      [| | | |inversion Hin].
    + do 5 right. left. auto.
    + do 6 right. left. auto.
    + do 7 right. left. auto.
    + do 8 right. auto.
Qed.

Lemma Save_calls_origin b op :
  op ∈ snd (fst (Save w b)) -> call_origin w b op.
Proof.
  destruct (Save_calls w b) as [-> _]. intros Hin.
  destruct (exec_calls_origin _ _ Hin) as [f Hf]. exact (Save_plan_origin _ _ _ Hf).
Qed.

End Origin.

(** ** The persisted groups *)

Lemma b_composed_order `{Externals} (b : Builder) :
  order (b_composed b) = fst (processOrder (Buildpacks (metadata b)) (order b)).
Proof.
  unfold b_composed, b_processed, b_resolved. cbv zeta.
  cbn [b_lifecycle set_metadata set_order].
  destruct (b_lifecycle b); reflexivity.
Qed.

Lemma b_composed_Groups `{Externals} (b : Builder) :
  (forall md, Groups (fst (processMetadata md)) = Groups md) ->
  Groups (metadata (b_composed b)) =
  ToV1Order (fst (processOrder (Buildpacks (metadata b)) (order b))).
Proof.
  intros Hgroups. unfold b_composed, b_processed, b_resolved. cbv zeta.
  cbn [b_lifecycle set_metadata set_order metadata order].
  destruct (b_lifecycle b);
    cbn [metadata set_metadata set_Lifecycle set_Groups Groups]; rewrite Hgroups; reflexivity.
Qed.

(** C8. On a successful [Save] (with a [processMetadata] that leaves the
    groups as they are), the metadata serialized into the metadata label
    has the groups regenerated from the resolved order, whatever groups the
    builder held before: the order that [Save] leaves in the builder is
    the order as [processOrder] resolved it, the groups of its metadata are
    the legacy view of that order, and the one label that [Save] sets is
    the metadata label, with that metadata marshalled. *)
Theorem Save_persists_regenerated_groups `{Externals} (w : World) (b : Builder) :
  (forall md, Groups (fst (processMetadata md)) = Groups md) ->
  snd (Save w b) = Ok tt ->
  let b' := fst (fst (Save w b)) in
  let calls := snd (fst (Save w b)) in
  order b' = fst (processOrder (Buildpacks (metadata b)) (order b)) /\
  Groups (metadata b') = ToV1Order (order b') /\
  exists label,
    json_Marshal (metadata b') = Ok label /\
    forall key value, SetLabel key value ∈ calls <-> key = MetadataLabel /\ value = label.
Proof.
  intros Hgroups Hr b' calls.
  assert (Hb' : b' = b_composed b) by (apply Save_final_builder; exact Hr).
  rewrite Hb'. split; [apply b_composed_order|].
  split; [rewrite b_composed_order; apply b_composed_Groups; exact Hgroups|].
  destruct (Save_calls w b) as [Hcalls Hexec]. fold calls in Hcalls.
  rewrite Hexec in Hr.
  assert (Hstep : Call (label_call (metadata (b_composed b)))
                       (fun err => Wrap err "failed to set metadata label" [])
                  ∈ Save_plan w b).
  { unfold Save_plan. cbv zeta. rewrite !elem_of_app. do 4 right.
    right. left. }
  destruct (exec_Ok_steps w _ Hr _ _ Hstep) as (op & Hop & Hin).
  rewrite <- Hcalls in Hin. unfold label_call in Hop.
  destruct (json_Marshal (metadata (b_composed b))) as [label| |] eqn:Hlabel;
    simpl in Hop; [|discriminate..].
  injection Hop as <-. exists label. split; [reflexivity|].
  intros key value. split.
  - intros Hset. apply Save_calls_origin in Hset.
    unfold call_origin, layer_call, label_call in Hset. cbv zeta in Hset.
    rewrite Hlabel in Hset. simpl in Hset.
    destruct Hset as [Ho|[Ho|[(l & _ & Ho)|[(bp & _ & Ho)|[(_ & Ho)|[Ho|[Ho|[Ho|Ho]]]]]]]];
      try discriminate Ho;
      try (match type of Ho with
           | match ?x with Ok _ => _ | Err _ => _ | Panic => _ end = _ =>
               destruct x; discriminate Ho
           end).
    injection Ho as <- <-. auto.
  - intros [-> ->]. exact Hin.
Qed.

(** [Save_persists_regenerated_groups] at the builder with stale groups:
    the groups persisted are those of the resolved order [[y@1.0]]. *)
Lemma Save_persists_regenerated_groups_witness :
  Groups (metadata stale_builder) = [mkV1Group [mkRef (mkInfo "old" "0.1") false]] /\
  Groups (metadata (fst (fst (@Save sample_externals quiet_world stale_builder)))) =
    [mkV1Group [mkRef (mkInfo "y" "1.0") false]] /\
  SetLabel "io.buildpacks.builder.metadata" "{}"
    ∈ snd (fst (@Save sample_externals quiet_world stale_builder)).
Proof.
  split; [reflexivity|].
  assert (Hr : snd (@Save sample_externals quiet_world stale_builder) = Ok tt)
    by (vm_compute; reflexivity).
  destruct (@Save_persists_regenerated_groups sample_externals quiet_world stale_builder
              (fun md => eq_refl) Hr) as (Horder & Hgroups & label & Hlabel & Hset).
  split.
  - rewrite Hgroups, Horder. reflexivity.
  - apply Hset. split; [reflexivity|].
    simpl in Hlabel. injection Hlabel as <-. reflexivity.
Defined.

(** ** A buildpack blob that fails to open *)

(** [embedBuildpackTar] does not look at the error of [bp.Open()]. *)
Lemma embedBuildpackTar_ignores_Open_error `{Externals} (w : World) b tw bp baseTarDir rc err :
  Open (bp_Blob bp) = (rc, Some err) ->
  embedBuildpackTar w b tw bp baseTarDir =
  match rc with
  | None => Panic
  | Some rc => embedBuildpackTar_entries w b baseTarDir tw rc
  end.
Proof. intros Hopen. unfold embedBuildpackTar. rewrite Hopen. destruct rc; reflexivity. Qed.

(** C7 at a buildpack whose blob fails to open: [Save] returns no error.
    With no reader it panics after the directory and environment layers;
    with a reader it succeeds and commits, the error of [Open] dropped. *)
Theorem Save_drops_buildpack_Open_error :
  snd (@Save sample_externals quiet_world (builder_of unreadable_buildpack)) = Panic /\
  map kind (snd (fst (@Save sample_externals quiet_world (builder_of unreadable_buildpack)))) =
    [ KAddLayer "/tmp/create-builder-scratch/dirs.tar";
      KAddLayer "/tmp/create-builder-scratch/env.tar" ] /\
  snd (@Save sample_externals quiet_world (builder_of half_open_buildpack)) = Ok tt /\
  last (snd (fst (@Save sample_externals quiet_world (builder_of half_open_buildpack)))) =
    Some ImageSave.
Proof. repeat split; vm_compute; reflexivity. Qed.

(** ** A builder whose metadata records no lifecycle version *)





(** ** The current-shape order document *)

Lemma decode_encode_BuildpackRef (r : BuildpackRef) :
  decode_BuildpackRef (encode_BuildpackRef r) = Some r.
Proof. destruct r as [[id version] [|]]; reflexivity. Qed.

Lemma decode_encode_OrderEntry (e : OrderEntry) :
  decode_OrderEntry (encode_OrderEntry e) = Some e.
Proof.
  destruct e as [group]. unfold decode_OrderEntry, encode_OrderEntry, toml.slice_field.
  cbn [toml.lookup String.eqb Ascii.eqb Bool.eqb Group]. simpl toml.lookup.
  rewrite (mapM_fmap_Some _ _ _ decode_encode_BuildpackRef). reflexivity.
Qed.

(** C9. Encoding an order as the current-shape document, the [order] key
    wrapping the entries with their groups, and decoding that document
    gives the order back: the same groups in the same sequence, and in each
    group the same refs with their ids, versions and optional flags. *)
Theorem orderTOML_round_trip (o : Order) :
  decode_orderTOML (encode_orderTOML o) = Some o.
Proof.
  unfold decode_orderTOML, encode_orderTOML, toml.slice_field. simpl toml.lookup.
  apply mapM_fmap_Some. exact decode_encode_OrderEntry.
Qed.

(** * Further properties *)

(** ** Version resolution *)

Lemma processOrder_ref_filled buildpacks (r : BuildpackRef) :
  version_filled r (fst (processOrder_ref buildpacks r)).
Proof.
  unfold processOrder_ref, version_filled.
  destruct (matchingBps (ID r) buildpacks) as [|first rest]; [simpl; auto|].
  destruct (String.eqb_spec (Version r) "") as [Hv|Hv]; cbn [andb].
  - destruct (1 <? length (first :: rest))%nat; [simpl; auto|].
    destruct (hasBuildpackWithVersion _ _); simpl; auto.
  - destruct (hasBuildpackWithVersion _ _); simpl; auto.
Qed.

Lemma processOrder_group_filled buildpacks group :
  Forall2 version_filled group (fst (processOrder_group buildpacks group)).
Proof.
  assert (Hrefl : forall l, Forall2 version_filled l l).
  { induction l; constructor; [unfold version_filled; auto|assumption]. }
  induction group as [|r rest IH]; simpl; [constructor|].
  pose proof (processOrder_ref_filled buildpacks r) as Hr.
  destruct (processOrder_ref buildpacks r) as [r' [e|]]; simpl in *.
  - constructor; [exact Hr|apply Hrefl].
  - destruct (processOrder_group buildpacks rest) as [rest' x]. simpl in *.
    constructor; assumption.
Qed.

(** X1. Whatever [processOrder] returns, error included, the order it
    leaves has the groups and refs of the order it was given, in place:
    the same ids and optional flags, and the same versions except where the
    version was empty. *)
Theorem processOrder_only_fills_versions buildpacks (o : Order) :
  Forall2 (fun g g' => Forall2 version_filled (Group g) (Group g'))
          o (fst (processOrder buildpacks o)).
Proof.
  assert (Hrefl : forall l : Order,
             Forall2 (fun g g' => Forall2 version_filled (Group g) (Group g')) l l).
  { induction l as [|g l IH]; constructor; [|exact IH].
    induction (Group g); constructor; [unfold version_filled; auto|assumption]. }
  induction o as [|g rest IH]; simpl; [constructor|].
  pose proof (processOrder_group_filled buildpacks (Group g)) as Hg.
  destruct (processOrder_group buildpacks (Group g)) as [g' [e|]]; simpl in *.
  - constructor; [exact Hg|apply Hrefl].
  - destruct (processOrder buildpacks rest) as [rest' x]. simpl in *.
    constructor; assumption.
Qed.

Lemma processOrder_ref_pass_known buildpacks (r : BuildpackRef) :
  snd (processOrder_ref buildpacks r) = None ->
  ref_known buildpacks (fst (processOrder_ref buildpacks r)).
Proof.
  unfold processOrder_ref, ref_known.
  destruct (matchingBps (ID r) buildpacks) as [|first rest] eqn:Hm; [discriminate|].
  destruct (String.eqb (Version r) "" && (1 <? length (first :: rest))%nat);
    [discriminate|].
  set (r' := if String.eqb (Version r) "" then setVersion r (Version first) else r).
  assert (Hid : ID r' = ID r) by (unfold r'; destruct (String.eqb (Version r) ""); reflexivity).
  destruct (hasBuildpackWithVersion (first :: rest) (Version r')) eqn:Hhas; [|discriminate].
  intros _. cbn [fst]. rewrite <- Hm in Hhas.
  apply has_exact_version in Hhas as (bp & Hin & Hbid & Hbv).
  exists bp. split; [exact Hin|].
  destruct bp as [[bid bv]], r' as [[rid rv] ro]. simpl in *. congruence.
Qed.

Lemma processOrder_group_None buildpacks group :
  snd (processOrder_group buildpacks group) = None ->
  Forall (ref_passes buildpacks) group.
Proof.
  induction group as [|r rest IH]; simpl; [constructor|].
  destruct (processOrder_ref buildpacks r) as [r' [e|]] eqn:Hr; [discriminate|].
  destruct (processOrder_group buildpacks rest) as [rest' x]. simpl in *.
  intros Hx. constructor; [unfold ref_passes; rewrite Hr; reflexivity|auto].
Qed.

Lemma processOrder_None buildpacks (o : Order) :
  snd (processOrder buildpacks o) = None ->
  Forall (fun g => Forall (ref_passes buildpacks) (Group g)) o.
Proof.
  induction o as [|g rest IH]; simpl; [constructor|].
  destruct (processOrder_group buildpacks (Group g)) as [g' [e|]] eqn:Hg; [discriminate|].
  destruct (processOrder buildpacks rest) as [rest' x]. simpl in *.
  intros Hx. constructor; [|auto].
  apply processOrder_group_None. rewrite Hg. reflexivity.
Qed.

Lemma processOrder_pass buildpacks (o : Order) :
  Forall (fun g => Forall (ref_passes buildpacks) (Group g)) o ->
  processOrder buildpacks o =
  (map (fun g => mkEntry (map (fun r => fst (processOrder_ref buildpacks r)) (Group g))) o,
   None).
Proof.
  induction 1 as [|g rest Hg Hrest IH]; simpl; [reflexivity|].
  rewrite (processOrder_group_pass _ _ Hg), IH. reflexivity.
Qed.

(** X2. When [processOrder] returns no error, every ref of the order it
    leaves has the id and the version of a known buildpack. *)
Theorem processOrder_resolves_to_known buildpacks (o : Order) :
  snd (processOrder buildpacks o) = None ->
  forall g r, g ∈ fst (processOrder buildpacks o) -> r ∈ Group g -> ref_known buildpacks r.
Proof.
  intros Hok g r Hg Hr. pose proof (processOrder_None _ _ Hok) as Hpass.
  rewrite (processOrder_pass _ _ Hpass) in Hg. cbn [fst] in Hg.
  apply list_elem_of_fmap in Hg as (g0 & -> & Hg0). cbn [Group] in Hr.
  apply list_elem_of_fmap in Hr as (r0 & -> & Hr0).
  apply processOrder_ref_pass_known.
  rewrite Forall_forall in Hpass. specialize (Hpass g0 Hg0).
  rewrite Forall_forall in Hpass. exact (Hpass r0 Hr0).
Qed.

(** [processOrder_resolves_to_known] at the known buildpacks x@1.0 and
    y@2 and the order [[x, y@2]]. *)
Lemma processOrder_resolves_to_known_witness :
  ref_known [mkBpMeta (mkInfo "x" "1.0"); mkBpMeta (mkInfo "y" "2")]
            (mkRef (mkInfo "x" "1.0") true).
Proof.
  apply (processOrder_resolves_to_known
           [mkBpMeta (mkInfo "x" "1.0"); mkBpMeta (mkInfo "y" "2")]
           [mkEntry [mkRef (mkInfo "x" "") true; mkRef (mkInfo "y" "2") false]]
           eq_refl
           (mkEntry [mkRef (mkInfo "x" "1.0") true; mkRef (mkInfo "y" "2") false])).
  - left.
  - left.
Defined.

Lemma processOrder_ref_stable buildpacks (r : BuildpackRef) :
  snd (processOrder_ref buildpacks r) = None ->
  processOrder_ref buildpacks (fst (processOrder_ref buildpacks r)) =
  (fst (processOrder_ref buildpacks r), None).
Proof.
  unfold processOrder_ref at 1 3 4.
  destruct (matchingBps (ID r) buildpacks) as [|first rest] eqn:Hm; [discriminate|].
  destruct (String.eqb_spec (Version r) "") as [Hv|Hv]; cbn [andb].
  - destruct (1 <? length (first :: rest))%nat eqn:Hlen; [discriminate|].
    destruct (hasBuildpackWithVersion (first :: rest) (Version (setVersion r (Version first))))
      eqn:Hhas; [|discriminate].
    intros _. cbn [fst]. unfold processOrder_ref.
    change (ID (setVersion r (Version first))) with (ID r). rewrite Hm, Hlen.
    assert (Hset : setVersion (setVersion r (Version first)) (Version first) =
                   setVersion r (Version first)) by reflexivity.
    rewrite Hset, andb_false_r.
    destruct (Version (setVersion r (Version first)) =? ""); rewrite Hhas; reflexivity.
  - destruct (hasBuildpackWithVersion (first :: rest) (Version r)) eqn:Hhas; [|discriminate].
    intros _. cbn [fst]. unfold processOrder_ref. rewrite Hm.
    destruct (String.eqb_spec (Version r) "") as [Hv'|_]; [contradiction|].
    cbn [andb]. rewrite Hhas. reflexivity.
Qed.

(** X3. A resolved order is a fixed point: when [processOrder] returns no
    error, running it again on the order it left returns no error and
    leaves that order as it is. *)
Theorem processOrder_idempotent buildpacks (o : Order) :
  snd (processOrder buildpacks o) = None ->
  processOrder buildpacks (fst (processOrder buildpacks o)) =
  (fst (processOrder buildpacks o), None).
Proof.
  intros Hok. pose proof (processOrder_None _ _ Hok) as Hpass.
  rewrite (processOrder_pass _ _ Hpass). cbn [fst]. clear Hok.
  induction Hpass as [|g rest Hg Hrest IH]; [reflexivity|].
  cbn [map processOrder Group].
  assert (Hgroup : processOrder_group buildpacks
                     (map (fun r => fst (processOrder_ref buildpacks r)) (Group g)) =
                   (map (fun r => fst (processOrder_ref buildpacks r)) (Group g), None)).
  { clear IH. induction Hg as [|r l Hr Hl IHl]; [reflexivity|].
    cbn [map processOrder_group]. rewrite (processOrder_ref_stable _ _ Hr), IHl. reflexivity. }
  rewrite Hgroup, IH. reflexivity.
Qed.

(** [processOrder_idempotent] at the known buildpack x@1.0 and the order
    [[x]]. *)
Lemma processOrder_idempotent_witness :
  processOrder [mkBpMeta (mkInfo "x" "1.0")] [mkEntry [mkRef (mkInfo "x" "1.0") false]] =
  ([mkEntry [mkRef (mkInfo "x" "1.0") false]], None).
Proof.
  exact (processOrder_idempotent [mkBpMeta (mkInfo "x" "1.0")]
           [mkEntry [mkRef (mkInfo "x" "") false]] eq_refl).
Defined.

Lemma ref_passes_resolvable buildpacks (r : BuildpackRef) :
  ref_passes buildpacks r <-> resolvable buildpacks r.
Proof.
  unfold ref_passes, resolvable, processOrder_ref.
  pose proof (has_exact_version buildpacks (ID r) (Version r)) as Hex.
  destruct (matchingBps (ID r) buildpacks) as [|first rest] eqn:Hm.
  - cbn [snd length]. split; [discriminate|].
    intros [[_ Hbp]|[_ Hlen]]; [|discriminate].
    apply Hex in Hbp. discriminate.
  - destruct (String.eqb_spec (Version r) "") as [Hv|Hv]; cbn [andb].
    + destruct rest as [|second rest].
      * cbn [length Nat.ltb Nat.leb snd hasBuildpackWithVersion].
        change (Version (setVersion r (Version first))) with (Version first).
        rewrite String.eqb_refl. cbn [snd]. split; [intros _; right; split; auto|reflexivity].
      * cbn [length snd]. split; [discriminate|].
        intros [[Hne _]|[_ Hlen]]; [contradiction|discriminate].
    + destruct (hasBuildpackWithVersion (first :: rest) (Version r)) eqn:Hhas; cbn [snd].
      * split; [intros _; left; split; [exact Hv|apply Hex; reflexivity]|reflexivity].
      * split; [discriminate|].
        intros [[_ Hbp]|[Hve _]]; [|contradiction].
        apply Hex in Hbp. discriminate.
Qed.

(** X4. [processOrder] returns no error exactly when every ref of every
    group either names a version that a known buildpack with its id has, or
    names no version while exactly one known buildpack has its id. *)
Theorem processOrder_succeeds_iff buildpacks (o : Order) :
  snd (processOrder buildpacks o) = None <->
  forall g r, g ∈ o -> r ∈ Group g -> resolvable buildpacks r.
Proof.
  split.
  - intros Hok g r Hg Hr. apply ref_passes_resolvable.
    pose proof (processOrder_None _ _ Hok) as Hpass.
    rewrite Forall_forall in Hpass. specialize (Hpass g Hg).
    rewrite Forall_forall in Hpass. exact (Hpass r Hr).
  - intros Hall. rewrite processOrder_pass; [reflexivity|].
    apply Forall_forall. intros g Hg. apply Forall_forall. intros r Hr.
    apply ref_passes_resolvable. exact (Hall g r Hg Hr).
Qed.

(** ** Graph and stack validation *)

Lemma fill_bpLookup_perm (bps bps' : list Buildpack) :
  bps ≡ₚ bps' -> fill_bpLookup bps ∅ = fill_bpLookup bps' ∅.
Proof.
  intros Hperm. apply set_eq. intros key. rewrite !fill_bpLookup_elem.
  split; (intros [Hin|(bp & Hbp & Hkey)]; [left; exact Hin|right; exists bp; split; [|exact Hkey]]).
  - rewrite <- Hperm. exact Hbp.
  - rewrite Hperm. exact Hbp.
Qed.

(** X5. Whether [validateBuildpacks] accepts a list does not depend on the
    order in which the buildpacks were added. *)
Theorem validateBuildpacks_permutation stackID (bps bps' : list Buildpack) :
  bps ≡ₚ bps' ->
  (validateBuildpacks stackID bps = None <-> validateBuildpacks stackID bps' = None).
Proof.
  intros Hperm. unfold validateBuildpacks. cbv zeta.
  rewrite (fill_bpLookup_perm _ _ Hperm), !validate_bps_None.
  split; intros HF; [rewrite <- Hperm|rewrite Hperm]; exact HF.
Qed.

(** [validateBuildpacks_permutation] at two buildpacks, swapped. *)
Lemma validateBuildpacks_permutation_witness :
  let x := mkBuildpack (mkInfo "x" "1") [] ["io.buildpacks.stacks.bionic"] empty_blob in
  let m := mkBuildpack (mkInfo "m" "1") [mkEntry [mkRef (mkInfo "x" "1") false]] [] empty_blob in
  validateBuildpacks "io.buildpacks.stacks.bionic" [m; x] = None <->
  validateBuildpacks "io.buildpacks.stacks.bionic" [x; m] = None.
Proof.
  intros x m.
  apply (validateBuildpacks_permutation "io.buildpacks.stacks.bionic" [m; x] [x; m]).
  apply perm_swap.
Defined.

Lemma validate_bp_valid stackID bps bp :
  bp_passes stackID bps bp <-> bp_valid stackID bps bp.
Proof.
  unfold bp_valid. split.
  - intros Hpass. pose proof (validate_bp_xor _ _ _ Hpass) as [[Ho Hs]|[Ho Hs]].
    + right. split; [exact Ho|]. split; [exact Hs|].
      apply (bp_passes_composite stackID bps bp Ho Hs). exact Hpass.
    + left. split; [exact Ho|]. split; [exact Hs|].
      unfold bp_passes, validate_bp in Hpass. rewrite Ho in Hpass.
      destruct (Stacks bp) as [|s ss] eqn:Hst; [contradiction|].
      cbn in Hpass. destruct (SupportsStack bp stackID); [reflexivity|discriminate].
  - intros [(Ho & Hs & Hsup)|(Ho & Hs & Hrefs)].
    + unfold bp_passes, validate_bp. rewrite Ho, Hsup.
      destruct (Stacks bp) as [|s ss]; [contradiction|]. reflexivity.
    + apply (bp_passes_composite stackID bps bp Ho Hs). exact Hrefs.
Qed.

(** X6. [validateBuildpacks] accepts a list exactly when each buildpack
    is a leaf that declares stacks and supports the builder's stack, or a
    composite without stacks whose every ref has the key of a buildpack of
    the list. *)
Theorem validateBuildpacks_accepts_iff stackID (bps : list Buildpack) :
  validateBuildpacks stackID bps = None <-> Forall (bp_valid stackID bps) bps.
Proof.
  unfold validateBuildpacks. cbv zeta. rewrite validate_bps_None.
  split; intros HF; (eapply Forall_impl; [exact HF|]); intros bp Hbp;
    apply validate_bp_valid; exact Hbp.
Qed.

Lemma ref_resolves_mono (bps bps' : list Buildpack) (r : BuildpackRef) :
  (forall bp, bp ∈ bps -> bp ∈ bps') -> ref_resolves bps r -> ref_resolves bps' r.
Proof. intros Hsub (bp & Hin & Hkey). exists bp. split; [apply Hsub; exact Hin|exact Hkey]. Qed.

Lemma bp_valid_mono stackID (bps bps' : list Buildpack) bp :
  (forall bp, bp ∈ bps -> bp ∈ bps') -> bp_valid stackID bps bp -> bp_valid stackID bps' bp.
Proof.
  intros Hsub [Hleaf|(Ho & Hs & Hrefs)]; [left; exact Hleaf|right].
  split; [exact Ho|]. split; [exact Hs|].
  intros g r Hg Hr. eapply ref_resolves_mono; [exact Hsub|]. exact (Hrefs g r Hg Hr).
Qed.

(** X7. Two lists that [validateBuildpacks] accepts for a stack are
    accepted together: adding buildpacks never invalidates a ref. *)
Theorem validateBuildpacks_app stackID (bps bps' : list Buildpack) :
  validateBuildpacks stackID bps = None ->
  validateBuildpacks stackID bps' = None ->
  validateBuildpacks stackID (bps ++ bps') = None.
Proof.
  unfold validateBuildpacks. cbv zeta. rewrite !validate_bps_None. intros H1 H2.
  apply Forall_app. split.
  - eapply Forall_impl; [exact H1|]. intros bp Hbp.
    apply validate_bp_valid, (bp_valid_mono stackID bps); [|apply validate_bp_valid; exact Hbp].
    intros x Hx. apply elem_of_app. left. exact Hx.
  - eapply Forall_impl; [exact H2|]. intros bp Hbp.
    apply validate_bp_valid, (bp_valid_mono stackID bps'); [|apply validate_bp_valid; exact Hbp].
    intros x Hx. apply elem_of_app. right. exact Hx.
Qed.

(** [validateBuildpacks_app] at a leaf and a composite that refers to a
    leaf of its own list. *)
Lemma validateBuildpacks_app_witness :
  let x := mkBuildpack (mkInfo "x" "1") [] ["io.buildpacks.stacks.bionic"] empty_blob in
  let y := mkBuildpack (mkInfo "y" "2") [] ["io.buildpacks.stacks.bionic"] empty_blob in
  let m := mkBuildpack (mkInfo "m" "1") [mkEntry [mkRef (mkInfo "y" "2") false]] [] empty_blob in
  validateBuildpacks "io.buildpacks.stacks.bionic" ([x] ++ [y; m]) = None.
Proof.
  intros x y m.
  apply (validateBuildpacks_app "io.buildpacks.stacks.bionic" [x] [y; m]); vm_compute; reflexivity.
Defined.

(** ** Layer contents *)

Lemma Write_after_WriteHeader (w : World) tw h buf tw1 tw2 :
  WriteHeader w tw h = Ok tw1 -> Write w tw1 buf = Ok tw2 -> tw2 = tw ++ [(h, buf)].
Proof.
  unfold WriteHeader, Write. destruct (tw_WriteHeader w h); [discriminate|].
  intros [= <-]. destruct (tw_Write w buf); [discriminate|].
  rewrite rev_app_distr. cbn [rev app]. rewrite rev_involutive. intros [= <-]. reflexivity.
Qed.

(** X8. The archive of a default-directories layer has five directory
    entries of mode 0755, in this order: /workspace and /layers, owned by
    the builder's user and group, then /buildpacks, /platform and
    /platform/env, owned by root. *)
Theorem defaultDirsLayer_entries (w : World) (b : Builder) dest l :
  defaultDirsLayer w b dest = Ok l ->
  map (fun e => (tar.Name (fst e), tar.Uid (fst e), tar.Gid (fst e))) (snd l) =
    [ ("/workspace", UID b, GID b); ("/layers", UID b, GID b);
      ("/buildpacks", 0%Z, 0%Z); ("/platform", 0%Z, 0%Z); ("/platform/env", 0%Z, 0%Z) ] /\
  Forall (fun e => tar.Typeflag (fst e) = tar.TypeDir /\ tar.Mode (fst e) = mode_0755 /\
                   tar.ModTime (fst e) = time_Now w /\ snd e = "") (snd l).
Proof.
  unfold defaultDirsLayer. cbv zeta. intros Hl.
  apply bind_Ok in Hl as (u & _ & Hl).
  apply bind_Ok in Hl as (tw1 & H1 & Hl). apply on_err_Ok in H1.
  apply bind_Ok in Hl as (tw2 & H2 & Hl). apply on_err_Ok in H2.
  apply bind_Ok in Hl as (tw3 & H3 & Hl). apply on_err_Ok in H3.
  apply bind_Ok in Hl as (tw4 & H4 & Hl). apply on_err_Ok in H4.
  apply bind_Ok in Hl as (tw5 & H5 & Hl). apply on_err_Ok in H5.
  apply WriteHeader_Ok in H1 as [_ ->]. apply WriteHeader_Ok in H2 as [_ ->].
  apply WriteHeader_Ok in H3 as [_ ->]. apply WriteHeader_Ok in H4 as [_ ->].
  apply WriteHeader_Ok in H5 as [_ ->]. injection Hl as <-.
  split; [reflexivity|]. repeat constructor.
Qed.

(** [defaultDirsLayer_entries] in a world where no call fails. *)
Lemma defaultDirsLayer_entries_witness :
  exists l, defaultDirsLayer quiet_world (sample_builder None None) "/tmp" = Ok l /\
            map (fun e => (tar.Name (fst e), tar.Uid (fst e), tar.Gid (fst e))) (snd l) =
              [ ("/workspace", 1000%Z, 1000%Z); ("/layers", 1000%Z, 1000%Z);
                ("/buildpacks", 0%Z, 0%Z); ("/platform", 0%Z, 0%Z); ("/platform/env", 0%Z, 0%Z) ].
Proof.
  eexists. split; [reflexivity|].
  exact (proj1 (defaultDirsLayer_entries quiet_world (sample_builder None None) "/tmp" _ eq_refl)).
Defined.

Lemma envLayer_entries_Ok (w : World) now env tw tw' :
  envLayer_entries w now tw env = Ok tw' -> tw' = tw ++ map (env_entry now) env.
Proof.
  revert tw. induction env as [|[k v] rest IH]; intros tw; cbn [envLayer_entries map].
  - intros [= <-]. rewrite app_nil_r. reflexivity.
  - intros Hl. apply bind_Ok in Hl as (tw1 & H1 & Hl). apply bind_Ok in Hl as (tw2 & H2 & Hl).
    rewrite (Write_after_WriteHeader _ _ _ _ _ _ H1 H2) in Hl.
    apply IH in Hl. rewrite Hl, <- app_assoc. reflexivity.
Qed.

Lemma components_plain (k : string) : has_slash k = false -> path.components k = [k].
Proof.
  induction k as [|c k IH]; [reflexivity|]. cbn [has_slash path.components].
  destruct (Ascii.eqb c "/"); [discriminate|]. cbn [orb]. intros Hk.
  rewrite (IH Hk). reflexivity.
Qed.

Lemma env_path_plain (k : string) :
  plain_name k -> path.Join [platformDir; "env"; k] = "/platform/env/" +:+ k.
Proof.
  intros (Hne & Hdot & Hdots & Hslash).
  unfold platformDir. cbn [path.Join String.eqb Ascii.eqb Bool.eqb path.join].
  unfold path.Clean. cbv beta iota fix delta [String.append].
  cbn [Ascii.eqb Bool.eqb path.components].
  rewrite (components_plain k Hslash). cbn [fold_left].
  unfold path.clean_step at 4. cbn [String.eqb Ascii.eqb Bool.eqb orb].
  unfold path.clean_step at 3. cbn [String.eqb Ascii.eqb Bool.eqb orb].
  unfold path.clean_step at 2. cbn [String.eqb Ascii.eqb Bool.eqb orb].
  unfold path.clean_step.
  destruct (String.eqb_spec k "") as [?|_]; [contradiction|].
  destruct (String.eqb_spec k ".") as [?|_]; [contradiction|].
  destruct (String.eqb_spec k "..") as [?|_]; [contradiction|].
  reflexivity.
Qed.

(** X9. The archive of an environment layer has one file per variable,
    in the order the variables are visited: its content is the value, its
    size the length of the value, its mode 0644, and, when the variable's
    name is one plain path element, its path is /platform/env/ followed by
    the name. *)
Theorem envLayer_one_file_per_variable (w : World) (b : Builder) dest env l :
  envLayer w b dest env = Ok l ->
  snd l = map (env_entry (time_Now w)) env /\
  map snd (snd l) = map snd env /\
  (Forall (fun kv => plain_name (fst kv)) env ->
   map (fun e => tar.Name (fst e)) (snd l) = map (fun kv => "/platform/env/" +:+ fst kv) env).
Proof.
  unfold envLayer. cbv zeta. intros Hl.
  apply bind_Ok in Hl as (u & _ & Hl). apply bind_Ok in Hl as (tw & Htw & Hl).
  injection Hl as <-. cbn [snd]. apply envLayer_entries_Ok in Htw. cbn [app] in Htw. subst tw.
  split; [reflexivity|]. split.
  - rewrite map_map. reflexivity.
  - intros Hplain. rewrite map_map. cbn [env_entry fst tar.Name].
    induction Hplain as [|kv rest Hkv Hrest IH]; [reflexivity|].
    cbn [map]. rewrite (env_path_plain _ Hkv), IH. reflexivity.
Qed.

(** [envLayer_one_file_per_variable] at two variables. *)
Lemma envLayer_one_file_per_variable_witness :
  exists l, envLayer quiet_world (sample_builder None None) "/tmp"
                     [("FOO", "bar"); ("CNB_X", "1")] = Ok l /\
            map (fun e => (tar.Name (fst e), snd e)) (snd l) =
              [("/platform/env/FOO", "bar"); ("/platform/env/CNB_X", "1")].
Proof.
  eexists. split; [reflexivity|].
  pose proof (envLayer_one_file_per_variable quiet_world (sample_builder None None) "/tmp"
                [("FOO", "bar"); ("CNB_X", "1")] _ eq_refl) as (Hl & _ & _).
  cbv zeta in Hl. rewrite Hl. reflexivity.
Defined.

Lemma embedBuildpackTar_entries_Ok (w : World) (b : Builder) baseTarDir entries tw tw' :
  embedBuildpackTar_entries w b baseTarDir tw (reader_of entries) = Ok tw' ->
  tw' = tw ++ map (relocated b baseTarDir) (List.filter (fun e => negb (is_root e)) entries).
Proof.
  revert tw. induction entries as [|[h content] rest IH]; intros tw;
    cbn [reader_of embedBuildpackTar_entries].
  - intros [= <-]. rewrite app_nil_r. reflexivity.
  - cbv zeta. cbn [List.filter]. unfold is_root at 1. cbn [fst tar.Name tar.set_Name].
    destruct (String.eqb (path.Clean (tar.Name h)) "." || String.eqb (path.Clean (tar.Name h)) "/").
    + cbn [negb]. apply IH.
    + cbn [negb map]. intros Hl.
      apply bind_Ok in Hl as (tw1 & H1 & Hl). apply on_err_Ok in H1.
      apply bind_Ok in Hl as (buf & Hbuf & Hl). injection Hbuf as <-.
      apply bind_Ok in Hl as (tw2 & H2 & Hl). apply on_err_Ok in H2.
      rewrite (Write_after_WriteHeader _ _ _ _ _ _ H1 H2) in Hl.
      apply IH in Hl. rewrite Hl, <- app_assoc. reflexivity.
Qed.

(** X10. When a buildpack archive that reads without error is embedded,
    the layer gets its entries in their order with their content, except
    the entries whose cleaned path is "." or "/": each is renamed to the
    cleaned join of the version directory and its cleaned path, and is
    owned by the builder's user and group whatever its owner was. *)
Theorem embedBuildpackTar_relocates (w : World) (b : Builder) (bp : Buildpack)
    baseTarDir entries tw tw' :
  Open (bp_Blob bp) = (Some (reader_of entries), None) ->
  embedBuildpackTar w b tw bp baseTarDir = Ok tw' ->
  let added := map (relocated b baseTarDir) (List.filter (fun e => negb (is_root e)) entries) in
  tw' = tw ++ added /\
  Forall (fun e => tar.Uid (fst e) = UID b /\ tar.Gid (fst e) = GID b) added /\
  map snd added = map snd (List.filter (fun e => negb (is_root e)) entries).
Proof.
  intros Hopen Hl. unfold embedBuildpackTar in Hl. rewrite Hopen in Hl.
  apply embedBuildpackTar_entries_Ok in Hl. cbv zeta. split; [exact Hl|]. split.
  - apply Forall_forall. intros e He. apply list_elem_of_fmap in He as (e0 & -> & _).
    split; reflexivity.
  - rewrite map_map. reflexivity.
Qed.

(** [embedBuildpackTar_relocates] at an archive with its root directory
    and one file owned by 501:20. *)
Lemma embedBuildpackTar_relocates_witness :
  let dir := tar.mkHeader tar.TypeDir "./" "" 0 mode_0755 501 20 0 in
  let file := tar.mkHeader tar.TypeReg "./bin/detect" "" 2 mode_0755 501 20 0 in
  let bp := mkBuildpack (mkInfo "y" "1.0") [] ["io.buildpacks.stacks.bionic"]
                        (mkBlob (Some (reader_of [(dir, ""); (file, "#!")]), None)) in
  exists tw',
    embedBuildpackTar quiet_world (sample_builder None None) [] bp "/buildpacks/y/1.0" = Ok tw' /\
    tw' = [(tar.mkHeader tar.TypeReg "/buildpacks/y/1.0/bin/detect" "" 2 mode_0755 1000 1000 0,
            "#!")].
Proof.
  intros dir file bp. eexists. split; [reflexivity|].
  exact (proj1 (embedBuildpackTar_relocates quiet_world (sample_builder None None) bp
                  "/buildpacks/y/1.0" [(dir, ""); (file, "#!")] [] _ eq_refl eq_refl)).
Defined.

Lemma embedLifecycleTar_entries_observed (w : World) tr tw tw' :
  embedLifecycleTar_entries w tw tr = Ok tw' ->
  exists added,
    tw' = tw ++ added /\
    (forall name, observed tr name ->
       exists e, e ∈ added /\ tar.Name (fst e) = lifecycleDir +:+ "/" +:+ name) /\
    (forall e, e ∈ added ->
       exists name, observed tr name /\ tar.Name (fst e) = lifecycleDir +:+ "/" +:+ name).
Proof.
  revert tw. induction tr as [|err|h content rest IH]; intros tw;
    cbn [embedLifecycleTar_entries].
  - intros [= <-]. exists []. rewrite app_nil_r. split; [reflexivity|]. split.
    + intros name (h & Hy & _). inversion Hy.
    + intros e He. inversion He.
  - discriminate.
  - destruct (FindStringSubmatch (path.Clean (tar.Name h))) as [binaryName|] eqn:Hfind.
    + cbv zeta. intros Hl.
      apply bind_Ok in Hl as (tw1 & H1 & Hl). apply on_err_Ok in H1.
      apply bind_Ok in Hl as (buf & Hbuf & Hl).
      apply bind_Ok in Hl as (tw2 & H2 & Hl). apply on_err_Ok in H2.
      rewrite (Write_after_WriteHeader _ _ _ _ _ _ H1 H2) in Hl.
      apply IH in Hl as (added & -> & Hall & Honly).
      exists ((tar.set_Name h (lifecycleDir +:+ "/" +:+ binaryName), buf) :: added).
      split; [rewrite <- app_assoc; reflexivity|]. split.
      * intros name (h0 & Hy & Hname). inversion Hy; subst.
        -- eexists. split; [left|]. cbn [fst tar.Name tar.set_Name]. congruence.
        -- destruct (Hall name) as (e & He & Hn); [exists h0; split; assumption|].
           exists e. split; [right; exact He|exact Hn].
      * intros e He. apply elem_of_cons in He as [->|He].
        -- exists binaryName. split; [exists h; split; [constructor|exact Hfind]|reflexivity].
        -- destruct (Honly e He) as (name & (h0 & Hy & Hname) & Hn).
           exists name. split; [exists h0; split; [constructor; exact Hy|exact Hname]|exact Hn].
    + intros Hl. apply IH in Hl as (added & -> & Hall & Honly).
      exists added. split; [reflexivity|]. split.
      * intros name (h0 & Hy & Hname). inversion Hy; subst; [congruence|].
        apply Hall. exists h0. split; assumption.
      * intros e He. destruct (Honly e He) as (name & (h0 & Hy & Hname) & Hn).
        exists name. split; [exists h0; split; [constructor; exact Hy|exact Hname]|exact Hn].
Qed.

Lemma lifecycleLayer_Ok (w : World) (l : lifecycle) dest layer :
  lifecycleLayer w l dest = Ok layer ->
  exists rc added,
    Open (lc_Blob l) = (Some rc, None) /\
    snd layer = (tar.mkHeader tar.TypeDir lifecycleDir "" 0 mode_0755 0 0 (time_Now w), "")
                :: added /\
    (forall name, observed rc name ->
       exists e, e ∈ added /\ tar.Name (fst e) = lifecycleDir +:+ "/" +:+ name) /\
    (forall e, e ∈ added ->
       exists name, observed rc name /\ tar.Name (fst e) = lifecycleDir +:+ "/" +:+ name).
Proof.
  unfold lifecycleLayer. cbv zeta. intros Hl.
  apply bind_Ok in Hl as (u & _ & Hl). apply bind_Ok in Hl as (tw1 & H1 & Hl).
  apply bind_Ok in Hl as (tw2 & H2 & Hl). injection Hl as <-. cbn [snd].
  apply WriteHeader_Ok in H1 as [_ ->]. unfold embedLifecycleTar in H2.
  destruct (Open (lc_Blob l)) as [[rc|] [err|]]; try discriminate.
  apply embedLifecycleTar_entries_observed in H2 as (added & -> & Hall & Honly).
  exists rc, added. split; [reflexivity|]. split; [reflexivity|]. split; assumption.
Qed.

(** X11. The archive of a lifecycle layer starts with the directory
    /lifecycle, owned by root; after it, the paths of its entries are
    exactly /lifecycle/name for the names observed in the lifecycle
    archive, the filenames of the entries whose cleaned path is one
    directory followed by one filename. *)
Theorem lifecycleLayer_flattens (w : World) (l : lifecycle) dest layer :
  lifecycleLayer w l dest = Ok layer ->
  exists rc added,
    Open (lc_Blob l) = (Some rc, None) /\
    snd layer = (tar.mkHeader tar.TypeDir "/lifecycle" "" 0 mode_0755 0 0 (time_Now w), "")
                :: added /\
    forall p, (exists name, observed rc name /\ p = "/lifecycle/" +:+ name) <->
              (exists e, e ∈ added /\ tar.Name (fst e) = p).
Proof.
  intros Hl. apply lifecycleLayer_Ok in Hl as (rc & added & Hopen & Hlayer & Hall & Honly).
  exists rc, added. split; [exact Hopen|]. split; [exact Hlayer|].
  intros p. split.
  - intros (name & Hobs & ->). exact (Hall name Hobs).
  - intros (e & He & <-). destruct (Honly e He) as (name & Hobs & Hn).
    exists name. split; [exact Hobs|exact Hn].
Qed.

(** [lifecycleLayer_flattens] at an archive with one binary. *)
Lemma lifecycleLayer_flattens_witness :
  exists layer,
    lifecycleLayer quiet_world (sample_lifecycle semver.v0_4_0) "/tmp" = Ok layer /\
    exists e, e ∈ snd layer /\ tar.Name (fst e) = "/lifecycle/detector".
Proof.
  eexists. split; [reflexivity|].
  destruct (lifecycleLayer_flattens quiet_world (sample_lifecycle semver.v0_4_0) "/tmp" _ eq_refl)
    as (rc & added & Hopen & Hlayer & Hiff).
  injection Hopen as <-.
  destruct (proj1 (Hiff "/lifecycle/detector")) as (e & He & Hn).
  - exists "detector". split; [|reflexivity].
    exists (file_header "lifecycle/detector"). split; [constructor|reflexivity].
  - exists e. split; [|exact Hn]. rewrite Hlayer. right. exact He.
Defined.

(** X12. When [validateBinaries] accepts a lifecycle, the archive of its
    lifecycle layer has an entry /lifecycle/name for each of the seven
    lifecycle binaries. *)
Theorem validated_lifecycle_layer_has_binaries (w : World) (l : lifecycle) dest layer :
  validateBinaries l = Ok tt ->
  lifecycleLayer w l dest = Ok layer ->
  forall p, p ∈ lifecycleBinaries ->
    exists e, e ∈ snd layer /\ tar.Name (fst e) = "/lifecycle/" +:+ p.
Proof.
  intros Hval Hl p Hp.
  apply lifecycleLayer_Ok in Hl as (rc & added & Hopen & Hlayer & Hall & _).
  unfold validateBinaries in Hval. rewrite Hopen in Hval.
  apply bind_Ok in Hval as (headers & Hobs & Hfind).
  pose proof (proj1 (find_all_Ok _ _) Hfind p Hp) as Hin.
  apply (observe_elem rc ∅ headers p Hobs) in Hin as [Hin|Hin]; [set_solver|].
  destruct (Hall p Hin) as (e & He & Hn).
  exists e. split; [rewrite Hlayer; right; exact He|exact Hn].
Qed.

(** [validated_lifecycle_layer_has_binaries] at a lifecycle with the seven
    binaries and the exporter among them. *)
Lemma validated_lifecycle_layer_has_binaries_witness :
  exists layer,
    lifecycleLayer quiet_world full_lifecycle "/tmp" = Ok layer /\
    exists e, e ∈ snd layer /\ tar.Name (fst e) = "/lifecycle/exporter".
Proof.
  eexists. split; [reflexivity|].
  apply (validated_lifecycle_layer_has_binaries quiet_world full_lifecycle "/tmp" _
           eq_refl eq_refl "exporter").
  unfold lifecycleBinaries. set_solver.
Defined.

(** ** Lifecycle validation *)

Lemma cut_slash_Some (s d f : string) :
  cut_slash s = Some (d, f) <-> s = d +:+ "/" +:+ f /\ has_slash d = false.
Proof.
  revert d. induction s as [|c s IH]; intros d; cbn [cut_slash].
  - split; [discriminate|]. intros [Hs _]. destruct d; discriminate.
  - destruct (Ascii.eqb_spec c "/") as [->|Hc].
    + split.
      * intros [= <- <-]. split; reflexivity.
      * intros [Hs Hd]. destruct d as [|c' d].
        -- change (String "/" s = String "/" f) in Hs. injection Hs as <-. reflexivity.
        -- change (String "/" s = String c' (d +:+ "/" +:+ f)) in Hs.
           cbn [has_slash] in Hd. injection Hs as <- _.
           rewrite Ascii.eqb_refl in Hd. discriminate.
    + destruct (cut_slash s) as [[d' f']|] eqn:Hcut.
      * split.
        -- intros [= <- <-]. destruct (proj1 (IH d') eq_refl) as [-> Hd'].
           split; [reflexivity|]. cbn [has_slash].
           destruct (Ascii.eqb_spec c "/"); [contradiction|exact Hd'].
        -- intros [Hs Hd]. destruct d as [|c' d].
           ++ change (String c s = String "/" f) in Hs. injection Hs as -> _. contradiction.
           ++ change (String c s = String c' (d +:+ "/" +:+ f)) in Hs.
              injection Hs as <- Hs. cbn [has_slash] in Hd.
              apply orb_false_iff in Hd as [_ Hd].
              pose proof (proj2 (IH d) (conj Hs Hd)) as Heq. congruence.
      * split; [discriminate|]. intros [Hs Hd]. destruct d as [|c' d].
        -- change (String c s = String "/" f) in Hs. injection Hs as -> _. contradiction.
        -- change (String c s = String c' (d +:+ "/" +:+ f)) in Hs.
           injection Hs as <- Hs. cbn [has_slash] in Hd.
           apply orb_false_iff in Hd as [_ Hd].
           pose proof (proj2 (IH d) (conj Hs Hd)) as Heq. discriminate.
Qed.

(** X13. The pattern of the lifecycle binaries, [^[^/]+/([^/]+)$], as
    the embedding reads it: a path matches exactly when it is a non-empty
    directory name, a slash and a non-empty filename, neither with a slash,
    and the match is the filename. *)
Theorem FindStringSubmatch_two_components (s f : string) :
  FindStringSubmatch s = Some f <->
  exists d, s = d +:+ "/" +:+ f /\ d <> "" /\ f <> "" /\
            has_slash d = false /\ has_slash f = false.
Proof.
  unfold FindStringSubmatch. split.
  - destruct (cut_slash s) as [[d f']|] eqn:Hcut; [|discriminate].
    apply cut_slash_Some in Hcut as [-> Hd].
    destruct (String.eqb_spec d "") as [|Hne]; [discriminate|].
    destruct (String.eqb_spec f' "") as [|Hnf]; [discriminate|].
    destruct (has_slash f') eqn:Hf; [discriminate|].
    cbn. intros [= <-]. exists d. repeat split; assumption.
  - intros (d & -> & Hd & Hf & Hsd & Hsf).
    rewrite (proj2 (cut_slash_Some _ d f) (conj eq_refl Hsd)).
    destruct (String.eqb_spec d "") as [|_]; [contradiction|].
    destruct (String.eqb_spec f "") as [|_]; [contradiction|].
    rewrite Hsf. reflexivity.
Qed.

Lemma observe_reads rc (seen : gset string) :
  (exists headers, observe rc seen = Ok headers) <-> reads_to_end rc.
Proof.
  revert seen. induction rc as [|err|h content rest IH]; intros seen; cbn [observe].
  - split; [constructor|eauto].
  - split; [intros [hs Hhs]; discriminate|inversion 1].
  - destruct (FindStringSubmatch (path.Clean (tar.Name h))); rewrite IH;
      (split; [constructor; assumption|inversion 1; assumption]).
Qed.

Lemma observe_error rc (seen : gset string) :
  ~ reads_to_end rc -> exists err, observe rc seen = Err err.
Proof.
  intros Hno. destruct (observe rc seen) as [headers|err|] eqn:Hobs.
  - exfalso. apply Hno. apply (observe_reads rc seen). eauto.
  - eauto.
  - exfalso. clear Hno. revert seen Hobs.
    induction rc as [|err|h content rest IH]; intros seen; cbn [observe]; try discriminate.
    destruct (FindStringSubmatch (path.Clean (tar.Name h))); apply IH.
Qed.

Lemma find_all_first (before : list string) q after (headers : gset string) :
  (forall p, p ∈ before -> p ∈ headers) -> q ∉ headers ->
  find_all (before ++ q :: after) headers = Err (Errorf "did not find '%s' in tar" [Str q]).
Proof.
  induction before as [|p before IH]; intros Hall Hq; cbn [app find_all].
  - destruct (decide (q ∈ headers)); [contradiction|reflexivity].
  - destruct (decide (p ∈ headers)) as [_|Hp].
    + apply IH; [|exact Hq]. intros p' Hp'. apply Hall. right. exact Hp'.
    + exfalso. apply Hp, Hall. left.
Qed.

(** X14. On a lifecycle whose blob opens, [validateBinaries] returns no
    error exactly when the archive reads to its end and each of the seven
    binaries is observed; when the archive reads to its end and a binary is
    missing, the error names the first missing one in the order detector,
    restorer, analyzer, builder, exporter, cacher, launcher; when the
    archive does not read to its end, it returns an error even if all
    binaries were observed. *)
Theorem validateBinaries_cases (l : lifecycle) rc :
  Open (lc_Blob l) = (Some rc, None) ->
  (validateBinaries l = Ok tt <->
   reads_to_end rc /\ forall p, p ∈ lifecycleBinaries -> observed rc p) /\
  (forall before q after,
      reads_to_end rc ->
      lifecycleBinaries = before ++ q :: after ->
      (forall p, p ∈ before -> observed rc p) -> ~ observed rc q ->
      validateBinaries l = Err (Errorf "did not find '%s' in tar" [Str q])) /\
  (~ reads_to_end rc -> exists err, validateBinaries l = Err err).
Proof.
  intros Hopen. unfold validateBinaries. rewrite Hopen. split; [|split].
  - split.
    + intros Hval. apply bind_Ok in Hval as (headers & Hobs & Hfind). split.
      * apply (observe_reads rc ∅). eauto.
      * intros p Hp. pose proof (proj1 (find_all_Ok _ _) Hfind p Hp) as Hin.
        apply (observe_elem rc ∅ headers p Hobs) in Hin as [Hin|Hin]; [set_solver|exact Hin].
    + intros [Hreads Hall]. apply (observe_reads rc ∅) in Hreads as [headers Hobs].
      rewrite Hobs. cbn [mbind result_bind]. apply find_all_Ok. intros p Hp.
      apply (observe_elem rc ∅ headers p Hobs). right. exact (Hall p Hp).
  - intros before q after Hreads Hbin Hbefore Hq.
    apply (observe_reads rc ∅) in Hreads as [headers Hobs]. rewrite Hobs.
    cbn [mbind result_bind]. rewrite Hbin.
    apply find_all_first.
    + intros p Hp. apply (observe_elem rc ∅ headers p Hobs). right. exact (Hbefore p Hp).
    + intros Hin. apply (observe_elem rc ∅ headers q Hobs) in Hin as [Hin|Hin];
        [set_solver|contradiction].
  - intros Hno. destruct (observe_error rc ∅ Hno) as [err Herr]. rewrite Herr. cbn. eauto.
Qed.

(** [validateBinaries_cases] at the archive without exporter. *)
Lemma validateBinaries_cases_witness :
  validateBinaries (mkLifecycle DefaultLifecycleDescriptor blob_without_exporter) =
  Err (Errorf "did not find '%s' in tar" [Str "exporter"]).
Proof.
  apply (proj1 (proj2 (validateBinaries_cases
                         (mkLifecycle DefaultLifecycleDescriptor blob_without_exporter)
                         _ eq_refl))
               ["detector"; "restorer"; "analyzer"; "builder"] "exporter" ["cacher"; "launcher"]).
  - repeat constructor.
  - reflexivity.
  - intros p Hp.
    repeat (apply elem_of_cons in Hp as [->|Hp];
            [match goal with
             | |- observed _ ?n => exists (file_header ("lifecycle/" +:+ n))
             end; split; [repeat constructor|reflexivity]|]).
    inversion Hp.
  - intros (h & Hy & Hname).
    repeat (inversion Hy as [?|? ? ? ? Hy']; subst; [discriminate Hname|];
            clear Hy; rename Hy' into Hy).
    inversion Hy.
Defined.

(** X15. A lifecycle that [NewLifecycle] returns has the blob it was made
    from, and either the default descriptor, the archive having no entry
    lifecycle.toml, or the descriptor decoded from that entry and binaries
    that [validateBinaries] accepts. *)
Theorem NewLifecycle_Ok `{Externals} (blob : Blob) (l : lifecycle) :
  NewLifecycle blob = Ok l ->
  lc_Blob l = blob /\
  exists rc, Open blob = (Some rc, None) /\
    ((descriptor l = DefaultLifecycleDescriptor /\
      exists err, ReadTarEntry rc "lifecycle.toml" = Err err /\ Cause err = ErrEntryNotExist) \/
     (exists h buf, ReadTarEntry rc "lifecycle.toml" = Ok (h, buf) /\
                    toml_Decode buf = Ok (descriptor l) /\
                    validateBinaries l = Ok tt)).
Proof.
  unfold NewLifecycle. destruct (Open blob) as [[rc|] [err|]] eqn:Hopen; try discriminate.
  destruct (ReadTarEntry rc "lifecycle.toml") as [[h buf]|err|] eqn:Hread; [| |discriminate].
  - intros Hl. apply bind_Ok in Hl as (d & Hd & Hl). apply on_err_Ok in Hd.
    cbv zeta in Hl. apply bind_Ok in Hl as (u & Hval & Hl). apply on_err_Ok in Hval.
    injection Hl as <-. destruct u. split; [reflexivity|].
    exists rc. split; [reflexivity|]. right. exists h, buf. repeat split; assumption.
  - destruct (Cause err) eqn:Hcause; try discriminate.
    intros [= <-]. split; [reflexivity|]. exists rc. split; [reflexivity|].
    left. split; [reflexivity|]. exists err. split; [exact Hread|exact Hcause].
Qed.

(** [NewLifecycle_Ok] at the archive without descriptor entry. *)
Lemma NewLifecycle_Ok_witness :
  lc_Blob (mkLifecycle DefaultLifecycleDescriptor blob_without_exporter) = blob_without_exporter.
Proof.
  exact (proj1 (@NewLifecycle_Ok sample_externals blob_without_exporter _ eq_refl)).
Defined.

Lemma Compare_0_3_0 (cmp : string -> string -> Z) (e : semver.Version) :
  semver.Equal cmp semver.v0_3_0 e = true <-> is_0_3_0 e.
Proof.
  unfold semver.Equal, semver.Compare, semver.compareSegment, is_0_3_0, semver.v0_3_0.
  cbn [semver.major semver.minor semver.patch semver.pre String.eqb andb].
  destruct e as [ma mi pa pr md]. cbn [semver.major semver.minor semver.patch semver.pre].
  destruct (0 <? ma)%Z eqn:H1; [cbn; split; [discriminate|lia]|].
  destruct (ma <? 0)%Z eqn:H2; [cbn; split; [discriminate|lia]|].
  cbn [Z.eqb negb].
  destruct (3 <? mi)%Z eqn:H3; [cbn; split; [discriminate|lia]|].
  destruct (mi <? 3)%Z eqn:H4; [cbn; split; [discriminate|lia]|].
  cbn [Z.eqb negb].
  destruct (0 <? pa)%Z eqn:H5; [cbn; split; [discriminate|lia]|].
  destruct (pa <? 0)%Z eqn:H6; [cbn; split; [discriminate|lia]|].
  cbn [Z.eqb negb].
  destruct (String.eqb_spec pr "") as [->|Hpr].
  - cbn. split; [intros _; repeat split; lia|reflexivity].
  - cbn. split; [discriminate|]. intros (_ & _ & _ & Hp). contradiction.
Qed.

(** X16. A lifecycle with the default descriptor, as [NewLifecycle]
    returns for an archive without lifecycle.toml, passes [Validate] when
    no version is expected, and passes it for an expected version exactly
    when that version is 0.3.0, whatever its build metadata. *)
Theorem Validate_default_descriptor `{Externals} (version_String : semver.Version -> string)
    (l : lifecycle) :
  descriptor l = DefaultLifecycleDescriptor ->
  Validate version_String l None = Ok tt /\
  forall expected,
    (Validate version_String l (Some expected) = Ok tt <-> is_0_3_0 expected) /\
    (~ is_0_3_0 expected ->
     Validate version_String l (Some expected) =
     Err (Wrap (err_version_mismatch version_String semver.v0_3_0 expected)
               "invalid lifecycle: version" [])).
Proof.
  intros Hd. unfold Validate, validateVersion. rewrite Hd. split; [reflexivity|].
  intros expected. cbn [DefaultLifecycleDescriptor d_Info li_Version].
  pose proof (Compare_0_3_0 comparePrerelease expected) as Hcmp.
  destruct (semver.Equal comparePrerelease semver.v0_3_0 expected); cbn [negb on_err].
  - split; [split; [intros _; apply Hcmp; reflexivity|reflexivity]|].
    intros Hno. exfalso. apply Hno, Hcmp. reflexivity.
  - split; [split; [discriminate|]|reflexivity].
    intros Hyes. apply Hcmp in Hyes. discriminate.
Qed.

(** [Validate_default_descriptor] at the expected version 0.3.0+build7. *)
Lemma Validate_default_descriptor_witness :
  @Validate sample_externals (fun _ => "")
            (mkLifecycle DefaultLifecycleDescriptor blob_without_exporter)
            (Some (semver.mkVersion 0 3 0 "" "build7")) = Ok tt.
Proof.
  apply (proj2 (@Validate_default_descriptor sample_externals (fun _ => "")
                  (mkLifecycle DefaultLifecycleDescriptor blob_without_exporter) eq_refl)
               (semver.mkVersion 0 3 0 "" "build7")).
  repeat split.
Defined.

(** ** Loading a builder *)

(** X17. [userAndGroupIDs] returns the ids exactly when both variables
    are read without error and [strconv.Atoi] parses them; the test for an
    empty value only chooses the message. A missing group id is reported
    before a malformed user id. *)
Theorem userAndGroupIDs_cases (img : imgutil_Image) :
  (forall uid gid,
      userAndGroupIDs img = Ok (uid, gid) <->
      exists sUID sGID,
        img_Env img envUID = Ok sUID /\ img_Env img envGID = Ok sGID /\
        strconv.Atoi sUID = Some uid /\ strconv.Atoi sGID = Some gid) /\
  (forall sUID,
      img_Env img envUID = Ok sUID -> sUID <> "" -> img_Env img envGID = Ok "" ->
      userAndGroupIDs img = Err (err_missing_env img envGID)).
Proof.
  unfold userAndGroupIDs. split.
  - intros uid gid. split.
    + intros Hok. apply bind_Ok in Hok as (sUID & HU & Hok). apply on_err_Ok in HU.
      destruct (String.eqb sUID ""); [discriminate|].
      apply bind_Ok in Hok as (sGID & HG & Hok). apply on_err_Ok in HG.
      destruct (String.eqb sGID ""); [discriminate|].
      destruct (strconv.Atoi sUID) as [u|] eqn:Hu; [|discriminate].
      destruct (strconv.Atoi sGID) as [g|] eqn:Hg; [|discriminate].
      injection Hok as <- <-. exists sUID, sGID. repeat split; assumption.
    + intros (sUID & sGID & HU & HG & Hu & Hg). rewrite HU. cbn [on_err mbind result_bind].
      destruct (String.eqb_spec sUID "") as [->|_]; [discriminate|].
      rewrite HG. cbn [on_err mbind result_bind].
      destruct (String.eqb_spec sGID "") as [->|_]; [discriminate|].
      rewrite Hu, Hg. reflexivity.
  - intros sUID HU Hne HG. rewrite HU. cbn [on_err mbind result_bind].
    destruct (String.eqb_spec sUID "") as [|_]; [contradiction|].
    rewrite HG. reflexivity.
Qed.

(** [userAndGroupIDs_cases] at an image whose user id is not a number and
    whose group id is not set. *)
Lemma userAndGroupIDs_cases_witness :
  let img := mkImage "some/builder" (fun _ => Ok "")
                     (fun key => if String.eqb key envUID then Ok "root" else Ok "") in
  userAndGroupIDs img = Err (err_missing_env img envGID).
Proof.
  intros img. apply (proj2 (userAndGroupIDs_cases img) "root"); [reflexivity| |reflexivity].
  discriminate.
Defined.

Section LoadProperties.
Context `{Externals}.
Variable json_Unmarshal : string -> result Metadata.
Variable ToOrder : V1Order -> Order.

Lemma GetBuilder_Ok (img : imgutil_Image) (b : Builder) :
  GetBuilder json_Unmarshal ToOrder img = Ok b ->
  exists uid gid stackID label md,
    userAndGroupIDs img = Ok (uid, gid) /\
    img_Label img stackLabel = Ok stackID /\ stackID <> "" /\
    img_Label img MetadataLabel = Ok label /\ label <> "" /\
    json_Unmarshal label = Ok md /\
    b = loaded ToOrder md uid gid stackID.
Proof.
  unfold GetBuilder, get_label, parse_metadata. intros Hb.
  apply bind_Ok in Hb as ([uid gid] & Hids & Hb).
  apply bind_Ok in Hb as (stackID & Hstack & Hb). apply on_err_Ok in Hstack.
  destruct (String.eqb_spec stackID "") as [|Hs]; [discriminate|].
  apply bind_Ok in Hb as (label & Hlabel & Hb). apply on_err_Ok in Hlabel.
  destruct (String.eqb_spec label "") as [|Hl]; [discriminate|].
  apply bind_Ok in Hb as (md & Hmd & Hb). apply on_err_Ok in Hmd.
  injection Hb as <-. exists uid, gid, stackID, label, md. repeat split; assumption.
Qed.

End LoadProperties.

(** X18. Every image from which [GetBuilder] loads a builder gives the
    same builder with [New], on the image renamed. A builder that [New]
    returns is the one [GetBuilder] loads, unless the image has an empty
    metadata label: then [GetBuilder] asks to recreate the builder, and
    [New] starts from the metadata that the document {} decodes to. *)
Theorem New_extends_GetBuilder `{Externals} (json_Unmarshal : string -> result Metadata)
    (ToOrder : V1Order -> Order) (img : imgutil_Image) (name : string) :
  (forall b, GetBuilder json_Unmarshal ToOrder img = Ok b ->
             New json_Unmarshal ToOrder img name = Ok (b, Rename img name)) /\
  (forall b img',
      New json_Unmarshal ToOrder img name = Ok (b, img') ->
      img' = Rename img name /\
      (GetBuilder json_Unmarshal ToOrder img = Ok b \/
       (img_Label img MetadataLabel = Ok "" /\
        GetBuilder json_Unmarshal ToOrder img = Err (err_recreate img MetadataLabel) /\
        json_Unmarshal "{}" = Ok (metadata b)))).
Proof.
  split.
  - intros b Hb. apply GetBuilder_Ok in Hb
      as (uid & gid & stackID & label & md & Hids & Hstack & Hs & Hlabel & Hl & Hmd & ->).
    unfold New, get_label, parse_metadata. rewrite Hids, Hstack. cbn [on_err mbind result_bind].
    destruct (String.eqb_spec stackID "") as [|_]; [contradiction|].
    rewrite Hlabel. cbn [on_err mbind result_bind].
    destruct (String.eqb_spec label "") as [|_]; [contradiction|].
    rewrite Hmd. reflexivity.
  - intros b img'. unfold New, GetBuilder, get_label, parse_metadata. intros Hb.
    apply bind_Ok in Hb as ([uid gid] & Hids & Hb). rewrite Hids.
    apply bind_Ok in Hb as (stackID & Hstack & Hb). rewrite Hstack.
    cbn [mbind result_bind].
    destruct (String.eqb stackID ""); [discriminate|].
    apply bind_Ok in Hb as (label & Hlabel & Hb). rewrite Hlabel.
    cbn [mbind result_bind]. apply on_err_Ok in Hlabel.
    cbv zeta in Hb. apply bind_Ok in Hb as (md & Hmd & Hb). apply on_err_Ok in Hmd.
    injection Hb as <- <-. split; [reflexivity|].
    destruct (String.eqb_spec label "") as [->|_].
    + right. split; [exact Hlabel|]. split; [reflexivity|exact Hmd].
    + left. rewrite Hmd. reflexivity.
Qed.

(** [New_extends_GetBuilder] at an image without metadata label. *)
Lemma New_extends_GetBuilder_witness :
  exists b,
    @New sample_externals sample_Unmarshal sample_ToOrder (sample_image "") "my/builder" =
      Ok (b, Rename (sample_image "") "my/builder") /\
    @GetBuilder sample_externals sample_Unmarshal sample_ToOrder (sample_image "") =
      Err (err_recreate (sample_image "") "io.buildpacks.builder.metadata") /\
    UID b = 1234%Z /\ GID b = 4321%Z.
Proof.
  eexists. split; [reflexivity|]. split; [|split; reflexivity].
  destruct (proj2 (@New_extends_GetBuilder sample_externals sample_Unmarshal sample_ToOrder
                     (sample_image "") "my/builder") _ _ eq_refl)
    as [_ [Hget|(_ & Hget & _)]]; [discriminate Hget|exact Hget].
Defined.

Lemma New_Ok `{Externals} (json_Unmarshal : string -> result Metadata)
    (ToOrder : V1Order -> Order) (img : imgutil_Image) (name : string) (b : Builder)
    (img' : imgutil_Image) :
  New json_Unmarshal ToOrder img name = Ok (b, img') ->
  exists md uid gid stackID, stackID <> "" /\ b = loaded ToOrder md uid gid stackID.
Proof.
  unfold New, get_label, parse_metadata. intros Hb.
  apply bind_Ok in Hb as ([uid gid] & Hids & Hb).
  apply bind_Ok in Hb as (stackID & Hstack & Hb).
  destruct (String.eqb_spec stackID "") as [|Hs]; [discriminate|].
  apply bind_Ok in Hb as (label & Hlabel & Hb).
  cbv zeta in Hb. apply bind_Ok in Hb as (md & Hmd & Hb).
  injection Hb as <- <-. exists md, uid, gid, stackID. split; [exact Hs|reflexivity].
Qed.

Lemma Save_Ok_kinds `{Externals} (w : World) (b : Builder) :
  snd (Save w b) = Ok tt -> map kind (snd (fst (Save w b))) = expected_sequence w b.
Proof.
  destruct (Save_calls w b) as [Hcalls Hr]. rewrite Hcalls, Hr. intros Hok.
  exact (proj1 (proj1 (proj2 (exec_outcome w _ _ (Save_plan_kinds w b))) Hok)).
Qed.

(** ** Saving a builder *)

(** X19. A builder that [GetBuilder] or [New] returns has a stack id, no
    lifecycle, no pending buildpack and the order of the groups of its
    metadata, not replaced; when it is saved as it is and [Save] succeeds,
    the calls on the image are the directories, environment and stack
    layers, the label, the working directory and the commit: no lifecycle,
    buildpack or order layer is added. *)
Theorem Save_of_loaded_builder `{Externals} (json_Unmarshal : string -> result Metadata)
    (ToOrder : V1Order -> Order) (w : World) (img : imgutil_Image) (name : string) (b : Builder) :
  (GetBuilder json_Unmarshal ToOrder img = Ok b \/
   exists img', New json_Unmarshal ToOrder img name = Ok (b, img')) ->
  (StackID b <> "" /\ b_lifecycle b = None /\ additionalBuildpacks b = [] /\
   replaceOrder b = false /\ GetOrder b = ToOrder (Groups (metadata b))) /\
  (snd (Save w b) = Ok tt -> map kind (snd (fst (Save w b))) = plain_sequence w).
Proof.
  intros Hb.
  assert (exists md uid gid stackID, stackID <> "" /\ b = loaded ToOrder md uid gid stackID)
    as (md & uid & gid & stackID & Hs & ->).
  { destruct Hb as [Hb|[img' Hb]].
    - apply GetBuilder_Ok in Hb
        as (uid & gid & stackID & label & md & _ & _ & Hs & _ & _ & _ & ->).
      exists md, uid, gid, stackID. split; [exact Hs|reflexivity].
    - exact (New_Ok _ _ _ _ _ _ Hb). }
  split; [repeat split; exact Hs|].
  intros Hok. rewrite (Save_Ok_kinds w _ Hok). reflexivity.
Qed.

(** [Save_of_loaded_builder] at a new builder on an image without
    metadata label. *)
Lemma Save_of_loaded_builder_witness :
  exists b,
    @New sample_externals sample_Unmarshal sample_ToOrder (sample_image "") "my/builder" =
      Ok (b, Rename (sample_image "") "my/builder") /\
    map kind (snd (fst (@Save sample_externals quiet_world b))) =
      [ KAddLayer "/tmp/create-builder-scratch/dirs.tar";
        KAddLayer "/tmp/create-builder-scratch/env.tar";
        KAddLayer "/tmp/create-builder-scratch/stack.tar";
        KSetLabel "io.buildpacks.builder.metadata"; KSetWorkingDir "/layers"; KSave ].
Proof.
  eexists. split; [reflexivity|].
  apply (proj2 (@Save_of_loaded_builder sample_externals sample_Unmarshal sample_ToOrder quiet_world
                  (sample_image "") "my/builder" _
                  (or_intror (ex_intro _ _ eq_refl)))).
  reflexivity.
Defined.

Lemma matchingBps_app id (l l' : list BuildpackMetadata) :
  matchingBps id (l ++ l') = matchingBps id l ++ matchingBps id l'.
Proof.
  induction l as [|bp l IH]; [reflexivity|]. cbn [app matchingBps].
  destruct (String.eqb id (ID bp)); [cbn [app]; rewrite IH|]; auto.
Qed.

(** X20. After [AddBuildpack], a ref with the id and the non-empty
    version of the added buildpack resolves, and so does every ref with a
    version that resolved before. A ref without version that resolved
    before no longer does when the added buildpack has its id, even with
    the version already known: [processOrder] reports multiple versions. *)
Theorem AddBuildpack_and_resolution (b : Builder) (bp : Buildpack) (r : BuildpackRef) :
  (Version r <> "" -> ID r = ID (Info bp) -> Version r = Version (Info bp) ->
   ref_passes (GetBuildpacks (AddBuildpack b bp)) r) /\
  (Version r <> "" -> ref_passes (GetBuildpacks b) r ->
   ref_passes (GetBuildpacks (AddBuildpack b bp)) r) /\
  (Version r = "" -> ref_passes (GetBuildpacks b) r -> ID (Info bp) = ID r ->
   processOrder_ref (GetBuildpacks (AddBuildpack b bp)) r = (r, Some (err_ambiguous (ID r)))).
Proof.
  unfold GetBuildpacks, AddBuildpack. cbn [metadata Buildpacks]. split; [|split].
  - intros Hv Hid Hver. apply ref_passes_resolvable. left. split; [exact Hv|].
    exists (mkBpMeta (Info bp)). split; [apply elem_of_app; right; left|].
    cbn [bm_info]. split; congruence.
  - intros Hv Hpass. apply ref_passes_resolvable in Hpass as [[_ (x & Hx & Hid & Hver)]|[He _]];
      [|contradiction].
    apply ref_passes_resolvable. left. split; [exact Hv|].
    exists x. split; [apply elem_of_app; left; exact Hx|]. split; assumption.
  - intros Hv Hpass Hid.
    apply ref_passes_resolvable in Hpass as [[Hne _]|[_ Hlen]]; [contradiction|].
    apply processOrder_ref_ambiguous; [exact Hv|].
    rewrite matchingBps_app, length_app, Hlen. cbn [matchingBps bm_info].
    rewrite Hid, String.eqb_refl. cbn [length]. lia.
Qed.

(** [AddBuildpack_and_resolution] at a builder that knows y@1.0, to which
    y@1.0 is added again. *)
Lemma AddBuildpack_and_resolution_witness :
  processOrder_ref (GetBuildpacks (AddBuildpack (sample_builder None None) sample_buildpack))
                   (mkRef (mkInfo "y" "") false)
  = (mkRef (mkInfo "y" "") false, Some (err_ambiguous "y")).
Proof.
  apply (proj2 (proj2 (AddBuildpack_and_resolution (sample_builder None None) sample_buildpack
                         (mkRef (mkInfo "y" "") false)))); reflexivity.
Defined.






Lemma Save_plan_order_step `{Externals} (w : World) (b : Builder) :
  replaceOrder b = true ->
  Call (layer_call (orderLayer w (b_composed b) (tmpDir_of w)))
       (fun err => Wrap err "adding order.tar layer" []) ∈ Save_plan w b.
Proof.
  intros Hrep. unfold Save_plan. cbv zeta. rewrite Hrep.
  rewrite !elem_of_app. right. right. right. left. left.
Qed.

Lemma Save_plan_stack_step `{Externals} (w : World) (b : Builder) :
  Call (layer_call (stackLayer w (b_composed b) (tmpDir_of w)))
       (fun err => Wrap err "adding stack.tar layer" []) ∈ Save_plan w b.
Proof.
  unfold Save_plan. cbv zeta.
  rewrite !elem_of_app. right. right. right. right. left.
Qed.

Lemma Save_Ok_step `{Externals} (w : World) (b : Builder) prepared f :
  snd (Save w b) = Ok tt -> Call prepared f ∈ Save_plan w b ->
  exists op, prepared = Ok op /\ op ∈ snd (fst (Save w b)).
Proof.
  destruct (Save_calls w b) as [Hcalls Hr]. rewrite Hcalls, Hr. intros Hok Hin.
  exact (exec_Ok_steps w _ Hok _ _ Hin).
Qed.

Lemma layer_call_Ok (layer : result (string * tar.Written)) op :
  layer_call layer = Ok op -> exists l, layer = Ok l /\ op = AddLayer (fst l) (snd l).
Proof.
  destruct layer as [l| |]; cbn [layer_call]; [|discriminate|discriminate].
  intros [= <-]. eauto.
Qed.

Lemma default_descriptor_legacy `{Externals} (b : Builder) (l : lifecycle) :
  b_lifecycle b = Some l -> descriptor l = DefaultLifecycleDescriptor ->
  lifecycle_before_0_4_0 (b_composed b) = true.
Proof.
  intros Hl Hd. unfold b_composed. cbv zeta.
  change (b_lifecycle (b_processed b)) with (b_lifecycle b). rewrite Hl, Hd.
  reflexivity.
Qed.

(** X23. A lifecycle with the default descriptor, that of an archive
    without lifecycle.toml, puts [Save] in the regime of the lifecycles
    before 0.4.0, whatever version the metadata had: after [SetLifecycle]
    with it and [SetOrder], a [Save] that succeeds leaves 0.3.0 as the
    lifecycle version of the builder, and the order layer that it adds
    holds the encoding of the legacy groups of the metadata. *)
Theorem Save_default_descriptor_is_legacy `{Externals} (w : World) (b : Builder)
    (l : lifecycle) (o : Order) :
  descriptor l = DefaultLifecycleDescriptor ->
  let b0 := SetOrder (SetLifecycle b l) o in
  snd (Save w b0) = Ok tt ->
  let b' := fst (fst (Save w b0)) in
  GetLifecycleVersion b' = Some semver.v0_3_0 /\
  exists buf,
    toml_Encode (v1OrderTOML (Groups (metadata b'))) = Ok buf /\
    AddLayer (filepath_Join [tmpDir_of w; "order.tar"])
             (single_file "/buildpacks/order.toml" buf) ∈ snd (fst (Save w b0)).
Proof.
  intros Hd b0 Hok. cbv zeta. rewrite (Save_final_builder w b0 Hok).
  assert (Hl : b_lifecycle b0 = Some l) by reflexivity.
  assert (Hrep : replaceOrder b0 = true) by reflexivity.
  split.
  - unfold b_composed. cbv zeta.
    change (b_lifecycle (b_processed b0)) with (b_lifecycle b0). rewrite Hl, Hd. reflexivity.
  - destruct (Save_Ok_step w b0 _ _ Hok (Save_plan_order_step w b0 Hrep)) as (op & Hop & Hin).
    apply layer_call_Ok in Hop as (layer & Hlayer & ->).
    apply orderLayer_Ok in Hlayer as (buf & Hbuf & _ & ->).
    unfold orderLayer_tomlData in Hbuf. rewrite (default_descriptor_legacy b0 l Hl Hd) in Hbuf.
    exists buf. split; [exact Hbuf|exact Hin].
Qed.

(** [Save_default_descriptor_is_legacy] at a builder whose metadata had
    the lifecycle version 0.4.0. *)
Lemma Save_default_descriptor_is_legacy_witness :
  let l := mkLifecycle DefaultLifecycleDescriptor blob_without_exporter in
  let b := sample_builder None (Some semver.v0_4_0) in
  let o := [mkEntry [mkRef (mkInfo "y" "") false]] in
  GetLifecycleVersion b = Some semver.v0_4_0 /\
  AddLayer "/tmp/create-builder-scratch/order.tar"
           (single_file "/buildpacks/order.toml" "[[groups]]")
    ∈ snd (fst (@Save sample_externals quiet_world (SetOrder (SetLifecycle b l) o))).
Proof.
  intros l b o. split; [reflexivity|].
  destruct (@Save_default_descriptor_is_legacy sample_externals quiet_world b l o
              eq_refl eq_refl) as (_ & buf & Hbuf & Hin).
  injection Hbuf as <-. exact Hin.
Defined.

(** X24. When [Save] succeeds after [SetStackInfo], and the processing
    of the metadata leaves the stack as it is, the stack layer that [Save]
    adds holds the encoding of the run image and the mirrors that were
    set. *)
Theorem Save_writes_stack_info `{Externals} (w : World) (b : Builder) (sc : StackConfig) :
  (forall md, Stack (fst (processMetadata md)) = Stack md) ->
  snd (Save w (SetStackInfo b sc)) = Ok tt ->
  exists buf,
    toml_Encode (stackTOML (mkStack (mkRunImage (sc_RunImage sc) (sc_RunImageMirrors sc))))
      = Ok buf /\
    AddLayer (filepath_Join [tmpDir_of w; "stack.tar"])
             (single_file "/buildpacks/stack.toml" buf)
      ∈ snd (fst (Save w (SetStackInfo b sc))).
Proof.
  intros Hstack Hok.
  destruct (Save_Ok_step w _ _ _ Hok (Save_plan_stack_step w (SetStackInfo b sc)))
    as (op & Hop & Hin).
  apply layer_call_Ok in Hop as (layer & Hlayer & ->).
  unfold stackLayer in Hlayer. cbv zeta in Hlayer.
  apply bind_Ok in Hlayer as (buf & Hbuf & Hlayer). apply on_err_Ok in Hbuf.
  apply bind_Ok in Hlayer as (tw & Htw & Hlayer). apply on_err_Ok in Htw.
  unfold CreateSingleFileTar in Htw. apply bind_Ok in Htw as (u & _ & Htw).
  injection Htw as <-. injection Hlayer as <-. cbn [fst snd] in Hin.
  assert (HS : Stack (metadata (b_composed (SetStackInfo b sc))) =
               mkStack (mkRunImage (sc_RunImage sc) (sc_RunImageMirrors sc))).
  { unfold b_composed. cbv zeta.
    destruct (b_lifecycle (b_processed (SetStackInfo b sc)));
      cbn [metadata set_metadata set_Lifecycle Stack];
      unfold b_processed; cbv zeta; cbn [metadata set_metadata]; rewrite Hstack; reflexivity. }
  rewrite HS in Hbuf. exists buf. split; [exact Hbuf|exact Hin].
Qed.

(** [Save_writes_stack_info] at a run image with one mirror. *)
Lemma Save_writes_stack_info_witness :
  let b := SetStackInfo (sample_builder None None) (mkStackConfig "run" ["mirror/run"]) in
  AddLayer "/tmp/create-builder-scratch/stack.tar"
           (single_file "/buildpacks/stack.toml" "[run-image]")
    ∈ snd (fst (@Save sample_externals quiet_world b)).
Proof.
  intros b.
  destruct (@Save_writes_stack_info sample_externals quiet_world (sample_builder None None)
              (mkStackConfig "run" ["mirror/run"]) (fun md => eq_refl) eq_refl)
    as (buf & Hbuf & Hin).
  injection Hbuf as <-. exact Hin.
Defined.

(** X25. When the lifecycle version of the metadata is absent or not
    before 0.4.0 and the archive of the buildpack reads without error, the
    archive of its layer is the directory of the buildpack, the directory
    of its version, both owned by root, and the entries of the archive
    relocated below the version directory; no entry follows them. *)
Theorem buildpackLayer_contents `{Externals} (w : World) (b : Builder) (bp : Buildpack)
    dest entries layer :
  lifecycle_before_0_4_0 b = false ->
  Open (bp_Blob bp) = (Some (reader_of entries), None) ->
  buildpackLayer w b dest bp = Ok layer ->
  snd layer =
    buildpack_dirs w bp ++
    map (relocated b (path.Join [buildpacksDir; EscapedID bp; Version (Info bp)]))
        (List.filter (fun e => negb (is_root e)) entries).
Proof.
  intros Hnew Hopen Hlayer.
  apply buildpackLayer_Ok in Hlayer as (_ & _ & tw & Hembed & Hrest).
  rewrite Hnew in Hrest. subst layer. cbn [snd].
  unfold embedBuildpackTar in Hembed. rewrite Hopen in Hembed.
  exact (embedBuildpackTar_entries_Ok _ _ _ _ _ _ Hembed).
Qed.

(** [buildpackLayer_contents] at the buildpack y@1.0 with one file. *)
Lemma buildpackLayer_contents_witness :
  exists layer,
    @buildpackLayer sample_externals quiet_world (sample_builder None None) "/tmp"
                    sample_buildpack = Ok layer /\
    map (fun e => (tar.Name (fst e), tar.Uid (fst e))) (snd layer) =
      [("/buildpacks/y", 0%Z); ("/buildpacks/y/1.0", 0%Z);
       ("/buildpacks/y/1.0/cnb/detect", 1000%Z)].
Proof.
  eexists. split; [reflexivity|].
  exact (f_equal (map (fun e => (tar.Name (fst e), tar.Uid (fst e))))
           (@buildpackLayer_contents sample_externals quiet_world (sample_builder None None)
              sample_buildpack "/tmp" [(file_header "./cnb/detect", "#!")] _
              eq_refl eq_refl eq_refl)).
Defined.

Lemma Save_plan_env_step `{Externals} (w : World) (b : Builder) :
  Call (layer_call (envLayer w (b_processed b) (tmpDir_of w) (env b)))
       (fun err => Wrap err "adding env layer" []) ∈ Save_plan w b.
Proof.
  unfold Save_plan. cbv zeta. rewrite !elem_of_app. left.
  do 5 right. left.
Qed.

(** X26. When [Save] succeeds after [SetEnv], the environment layer that
    it adds has one file per variable that was set, in the order the
    variables are visited, with the value as its content. *)
Theorem Save_writes_env `{Externals} (w : World) (b : Builder) (e : list (string * string)) :
  snd (Save w (SetEnv b e)) = Ok tt ->
  AddLayer (filepath_Join [tmpDir_of w; "env.tar"]) (map (env_entry (time_Now w)) e)
    ∈ snd (fst (Save w (SetEnv b e))).
Proof.
  intros Hok.
  destruct (Save_Ok_step w _ _ _ Hok (Save_plan_env_step w (SetEnv b e))) as (op & Hop & Hin).
  apply layer_call_Ok in Hop as (layer & Hlayer & ->).
  unfold envLayer in Hlayer. cbv zeta in Hlayer.
  apply bind_Ok in Hlayer as (u & _ & Hlayer). apply bind_Ok in Hlayer as (tw & Htw & Hlayer).
  apply envLayer_entries_Ok in Htw. cbn [app] in Htw. subst tw.
  injection Hlayer as <-. cbn [fst snd] in Hin. exact Hin.
Qed.

(** [Save_writes_env] at two variables. *)
Lemma Save_writes_env_witness :
  exists archive,
    AddLayer "/tmp/create-builder-scratch/env.tar" archive
      ∈ snd (fst (@Save sample_externals quiet_world
                    (SetEnv (sample_builder None None) [("A", "1"); ("B", "22")]))) /\
    map (fun e => (tar.Name (fst e), tar.Size (fst e), snd e)) archive =
      [("/platform/env/A", 1%Z, "1"); ("/platform/env/B", 2%Z, "22")].
Proof.
  eexists. split.
  - exact (@Save_writes_env sample_externals quiet_world (sample_builder None None)
             [("A", "1"); ("B", "22")] eq_refl).
  - reflexivity.
Defined.

(** X27. When [Save] succeeds after [SetOrder], and the lifecycle version
    of the builder it leaves is absent or not before 0.4.0, the order layer
    that it adds holds the encoding of the order that was set, with its
    versions resolved against the buildpacks of the metadata. *)
Theorem Save_writes_resolved_order `{Externals} (w : World) (b : Builder) (o : Order) :
  snd (Save w (SetOrder b o)) = Ok tt ->
  lifecycle_before_0_4_0 (fst (fst (Save w (SetOrder b o)))) = false ->
  exists buf,
    toml_Encode (orderTOML (fst (processOrder (GetBuildpacks b) o))) = Ok buf /\
    AddLayer (filepath_Join [tmpDir_of w; "order.tar"])
             (single_file "/buildpacks/order.toml" buf)
      ∈ snd (fst (Save w (SetOrder b o))).
Proof.
  intros Hok. rewrite (Save_final_builder w _ Hok). intros Hnew.
  destruct (Save_Ok_step w _ _ _ Hok (Save_plan_order_step w (SetOrder b o) eq_refl))
    as (op & Hop & Hin).
  apply layer_call_Ok in Hop as (layer & Hlayer & ->).
  apply orderLayer_Ok in Hlayer as (buf & Hbuf & _ & ->).
  unfold orderLayer_tomlData in Hbuf. rewrite Hnew, b_composed_order in Hbuf.
  exists buf. split; [exact Hbuf|exact Hin].
Qed.

(** [Save_writes_resolved_order] at an order whose ref names no
    version. *)
Lemma Save_writes_resolved_order_witness :
  let b := sample_builder None None in
  let o := [mkEntry [mkRef (mkInfo "y" "") true]] in
  fst (processOrder (GetBuildpacks b) o) = [mkEntry [mkRef (mkInfo "y" "1.0") true]] /\
  AddLayer "/tmp/create-builder-scratch/order.tar"
           (single_file "/buildpacks/order.toml" "[[order]]")
    ∈ snd (fst (@Save sample_externals quiet_world (SetOrder b o))).
Proof.
  intros b o. split; [reflexivity|].
  destruct (@Save_writes_resolved_order sample_externals quiet_world b o eq_refl eq_refl)
    as (buf & Hbuf & Hin).
  injection Hbuf as <-. exact Hin.
Defined.
